(** * Bounded random redirector (index.js)

    A shallow embedding of [index.js]: the URL generator
    ([generateRandomString], [generateRandomSubdomain],
    [getRandomTopLevelDomain], [buildRedirectURL]) and the redirect guard
    ([performRedirect], [secureRedirect]).

    - A JavaScript Number is an IEEE 754 binary64 value: [spec_float] with
      precision 53 and maximal exponent 1024, with the rounding of the
      specification of floating-point arithmetic ([SFmul], [SFadd], [SFdiv]).
    - [Math.random()] reads the next element of a sequence of Numbers; the
      sequence is a parameter, the cursor is threaded through the calls.
    - A string is a [string]; one [ascii] stands for one code unit below 256.
    - [localStorage] is a finite map from keys to strings. *)

From Stdlib Require Import ZArith QArith Lia Bool List Ascii String DecimalString.
From Stdlib Require Import Floats.SpecFloat.
From Stdlib Require DecimalN DecimalFacts.
From stdpp Require Import base option list strings gmap.

Local Open Scope Z_scope.

(** ** Numbers *)

Definition Number := spec_float.

Definition prec : Z := 53.
Definition emax : Z := 1024.

Definition NaN : Number := S754_nan.

(** The Number value of an integer: the nearest binary64, ties to even. *)
Definition Number_of_Z (z : Z) : Number := binary_normalize prec emax z 0 false.

Definition Number_mul (x y : Number) : Number := SFmul prec emax x y.
Definition Number_add (x y : Number) : Number := SFadd prec emax x y.

(** [x < y] and [x > y]; both are false when an operand is NaN. *)
Definition Number_lt (x y : Number) : bool := SFltb x y.
Definition Number_gt (x y : Number) : bool := SFltb y x.

(** A decimal literal [num/den] (0.3 is [decimal 3 10]) denotes the binary64
    nearest to the fraction, which the correctly rounded quotient is. *)
Definition decimal (num den : Z) : Number :=
  SFdiv prec emax (Number_of_Z num) (Number_of_Z den).

(** [Math.floor] on a finite Number, as the integer it is.  On NaN and on
    the infinities, where [Math.floor] returns its argument, the value here
    is 0: the generator applies [Math.floor] to products of a draw and a
    list length only, and these are finite for the draws that
    [Math.random()] returns, which are in [0, 1) (lemma [mul_unit_finite]).
    For a draw outside [0, 1) the generator here and the script can
    differ. *)
Definition Math_floor (x : Number) : Z :=
  match x with
  | S754_finite s m e => Z.shiftl (cond_Zopp s (Z.pos m)) e
  | _ => 0
  end.

(** The rational number that a finite Number is. *)
Definition Number_value (x : Number) : Q :=
  match x with
  | S754_finite s m e =>
      if e <? 0 then Qmake (cond_Zopp s (Z.pos m)) (2 ^ Z.to_pos (- e))
      else inject_Z (cond_Zopp s (Z.pos m) * 2 ^ e)
  | _ => 0%Q
  end.

(** What [Math.random()] promises: a Number at least 0 and below 1. *)
Definition unit_interval (x : Number) : bool :=
  match x with
  | S754_zero false => true
  | S754_finite false m e =>
      bounded prec emax m e && (e <=? 0) && (Z.pos m <? 2 ^ (- e))
  | _ => false
  end.

(** Neither NaN nor an infinity. *)
Definition is_finite (x : Number) : bool :=
  match x with
  | S754_zero _ | S754_finite _ _ _ => true
  | _ => false
  end.

(** ** Strings and arrays *)

(** [s.charAt(pos)]: the one-character string at [pos], the empty string
    out of range. *)
Definition charAt (s : string) (pos : Z) : string :=
  if 0 <=? pos then
    match String.get (Z.to_nat pos) s with
    | Some c => String c EmptyString
    | None => EmptyString
    end
  else EmptyString.

(** [xs[i]]: [None] stands for [undefined]. *)
Definition Array_get {A} (xs : list A) (i : Z) : option A :=
  if 0 <=? i then xs !! Z.to_nat i else None.

(** [xs.splice(start, 0, item)]: a negative [start] counts from the end,
    and the position is clamped to the array. *)
Definition Array_splice {A} (xs : list A) (start : Z) (item : A) : list A :=
  let len := Z.of_nat (List.length xs) in
  let actualStart := if start <? 0 then Z.max (len + start) 0 else Z.min start len in
  take (Z.to_nat actualStart) xs ++ item :: drop (Z.to_nat actualStart) xs.

(** [xs.join(sep)]: an [undefined] element counts as the empty string. *)
Definition Array_join (sep : string) (xs : list (option string)) : string :=
  String.concat sep (map (default EmptyString) xs).

(** An interpolated [${x}]: [undefined] is rendered by its name. *)
Definition interpolate (x : option string) : string := default "undefined"%string x.

(** ** The random source *)

(** The sequence of Numbers that the calls of [Math.random()] return. *)
Definition RandomSource := nat -> Number.

(** A computation that calls [Math.random()]: from the source and the
    number of draws made so far to a result and the new number of draws. *)
Definition Rand (A : Type) : Type := RandomSource -> nat -> A * nat.

Definition ret {A} (a : A) : Rand A := fun _ i => (a, i).

Definition bind {A B} (c : Rand A) (k : A -> Rand B) : Rand B :=
  fun random i => let (a, j) := c random i in k a random j.

Definition Math_random : Rand Number := fun random i => (random i, S i).

Notation "x <- c ;; k" := (bind c (fun x => k))
  (at level 100, c at next level, right associativity).

(** ** Configuration (domainConfig) *)

Record LengthRange := { min : Z; max : Z }.

Record DomainConfig := {
  topLevelDomains : list string;
  subDomainPrefixes : list string;
  subDomainRandomLength : LengthRange;
  includeWwwAsSpecial : bool
}.

Definition domainConfig : DomainConfig := {|
  topLevelDomains := ["example.com"; "demo.org"; "mysite.net"; "product.io"]%string;
  subDomainPrefixes :=
    ["www"; "blog"; "app"; "web"; "dev"; "api"; "beta"; "alpha";
     "test"; "store"; "shop"; "cdn"; "image"; "data"; "static";
     "report"; "admin"; "panel"; "user"; "member"; "service"]%string;
  subDomainRandomLength := {| min := 3; max := 6 |};
  includeWwwAsSpecial := true
|}.

(** ** The URL generator *)

Definition characters : string := "abcdefghijklmnopqrstuvwxyz0123456789".

(** [Math.floor(Math.random() * n)] for an integer [n]. *)
Definition random_index (n : Z) : Rand Z :=
  r <- Math_random ;;
  ret (Math_floor (Number_mul r (Number_of_Z n))).

(** The loop of [generateRandomString], with [n] iterations to go. *)
Fixpoint generateRandomString_loop (n : nat) (result : string) : Rand string :=
  match n with
  | O => ret result
  | S n' =>
      k <- random_index (Z.of_nat (String.length characters)) ;;
      generateRandomString_loop n' (result ++ charAt characters k)
  end.

(** [generateRandomString(length)] for an integer [length]; the loop runs
    [length] times, and not at all when [length] is negative.  (A string
    has no maximal length here.) *)
Definition generateRandomString (length : Z) : Rand string :=
  generateRandomString_loop (Z.to_nat length) EmptyString.

Section Generator.

Variable cfg : DomainConfig.

(** The parts of the subdomain after the prefix and the optional random
    string have been pushed. *)
Definition subdomain_parts : Rand (list (option string)) :=
  let prefixes := subDomainPrefixes cfg in
  let min := min (subDomainRandomLength cfg) in
  let max := max (subDomainRandomLength cfg) in
  k <- random_index (Z.of_nat (List.length prefixes)) ;;
  let randomPrefix := Array_get prefixes k in
  let subDomainParts := [randomPrefix] in
  r <- Math_random ;;
  if Number_gt r (decimal 3 10) then
    k <- random_index (max - min + 1) ;;
    let randomLength := k + min in
    s <- generateRandomString randomLength ;;
    ret (subDomainParts ++ [Some s])
  else ret subDomainParts.

(** The optional insertion of ['www']; the draw of the decision is made
    only when the flag is set. *)
Definition insert_www (subDomainParts : list (option string)) : Rand (list (option string)) :=
  if includeWwwAsSpecial cfg then
    r <- Math_random ;;
    if Number_lt r (decimal 2 10) then
      wwwIndex <- random_index (Z.of_nat (List.length subDomainParts) + 1) ;;
      ret (Array_splice subDomainParts wwwIndex (Some "www"%string))
    else ret subDomainParts
  else ret subDomainParts.

Definition generateRandomSubdomain : Rand string :=
  subDomainParts <- subdomain_parts ;;
  subDomainParts <- insert_www subDomainParts ;;
  ret (Array_join "-" subDomainParts).

Definition getRandomTopLevelDomain : Rand (option string) :=
  let topDomains := topLevelDomains cfg in
  k <- random_index (Z.of_nat (List.length topDomains)) ;;
  ret (Array_get topDomains k).

Definition buildRedirectURL : Rand string :=
  subdomainPart <- generateRandomSubdomain ;;
  topDomain <- getRandomTopLevelDomain ;;
  r <- Math_random ;;
  let protocol := if Number_gt r (decimal 5 10) then "https"%string else "http"%string in
  ret (protocol ++ "://" ++ subdomainPart ++ "." ++ interpolate topDomain)%string.

End Generator.

(** ** parseInt and Number.prototype.toString *)

(** White space and line terminators below code unit 256. *)
Definition is_whitespace (c : ascii) : bool :=
  let n := N_of_ascii c in
  ((9 <=? n) && (n <=? 13) || (n =? 32) || (n =? 160))%N.

Fixpoint trim_start (s : string) : string :=
  match s with
  | String c s' => if is_whitespace c then trim_start s' else s
  | EmptyString => s
  end.

Definition digit_value (c : ascii) : option Z :=
  let n := Z.of_N (N_of_ascii c) in
  if (48 <=? n) && (n <=? 57) then Some (n - 48) else None.

(** The value of the longest prefix of decimal digits; [acc] is the value
    of the digits read so far, [None] when there are none. *)
Fixpoint parse_digits (s : string) (acc : option Z) : option Z :=
  match s with
  | String c s' =>
      match digit_value c with
      | Some d => parse_digits s' (Some (10 * default 0 acc + d))
      | None => acc
      end
  | EmptyString => acc
  end.

(** [parseInt(s, 10)]: leading white space is skipped, a sign is read, and
    the digits that follow give the integer; NaN when there is no digit.
    With the radix given as 10 no [0x] prefix is recognised.  (The digits
    are taken exactly; beyond twenty significant digits an engine may
    round them first.) *)
Definition parseInt (s : string) : Number :=
  let s := trim_start s in
  let '(negative, s) :=
    match s with
    | String "-" s' => (true, s')
    | String "+" s' => (false, s')
    | _ => (false, s)
    end in
  match parse_digits s None with
  | None => NaN
  | Some 0 => S754_zero negative
  | Some mathInt => Number_of_Z (if negative then - mathInt else mathInt)
  end.

(** The integer that a finite Number without fractional part is. *)
Definition integer_value (x : Number) : option Z :=
  match x with
  | S754_zero _ => Some 0
  | S754_finite s m e =>
      if 0 <=? e then Some (cond_Zopp s (Z.pos m * 2 ^ e))
      else if Z.pos m mod 2 ^ (- e) =? 0 then Some (cond_Zopp s (Z.pos m / 2 ^ (- e)))
      else None
  | _ => None
  end.

Definition digits_of (n : Z) : string := NilZero.string_of_uint (N.to_uint (Z.to_N n)).

(** The candidates [(s, n)] with [k] digits for a positive integer [v]
    whose Number is [x]: [s * 10^(n-k)] must round to [x]. *)
Definition digit_candidates (x : Number) (v k : Z) : list (Z * Z) :=
  let nd := Z.of_nat (String.length (digits_of v)) in
  flat_map (fun n =>
      let p := 10 ^ (n - k) in
      filter (fun '(s, _) =>
                (10 ^ (k - 1) <=? s) && (s <? 10 ^ k) && SFeqb (Number_of_Z (s * p)) x)
             (if k <=? n then [(v / p, n); (v / p + 1, n)] else []))
    [nd; nd + 1].

(** Of two candidates the one nearer to [v], the even one at equal
    distance. *)
Definition nearer (v k : Z) (c1 c2 : Z * Z) : Z * Z :=
  let dist '(s, n) := Z.abs (s * 10 ^ (n - k) - v) in
  if dist c2 <? dist c1 then c2
  else if (dist c2 =? dist c1) && Z.even (fst c2) then c2 else c1.

(** The least number of digits [k], from [k] on, for which there is a
    candidate, with the candidate chosen. *)
Fixpoint shortest_digits (fuel : nat) (x : Number) (v k : Z) : option (Z * Z * Z) :=
  match fuel with
  | O => None
  | S fuel' =>
      match digit_candidates x v k with
      | c :: cs => let '(s, n) := fold_left (nearer v k) cs c in Some (s, n, k)
      | [] => shortest_digits fuel' x v (k + 1)
      end
  end.

(** The digits of a positive integral Number [x] of value [v]: as few
    significant digits as identify [x], padded with zeros up to 21 digits,
    in exponent notation beyond. *)
Definition positive_integer_toString (x : Number) (v : Z) : string :=
  match shortest_digits 17 x v 1 with
  | Some (s, n, k) =>
      if n <=? 21 then digits_of (s * 10 ^ (n - k))
      else
        match digits_of s with
        | String d EmptyString => String d ("e+" ++ digits_of (n - 1))
        | String d ds => String d ("." ++ ds ++ "e+" ++ digits_of (n - 1))
        | EmptyString => EmptyString
        end
  | None => EmptyString
  end.

(** [x.toString()] for the Numbers that [parseInt(..) + 1] can be: NaN, the
    infinities and the integers.  (For a Number with a fractional part the
    result is left empty.) *)
Definition Number_toString (x : Number) : string :=
  match x with
  | S754_nan => "NaN"
  | S754_infinity s => if s then "-Infinity" else "Infinity"
  | S754_zero _ => "0"
  | S754_finite s _ _ =>
      match integer_value (SFabs x) with
      | Some v => (if s then "-" else "") ++ positive_integer_toString (SFabs x) v
      | None => ""
      end
  end%string.

(** ** The browser *)

(** What the script does to its environment, in the order it does it. *)
Inductive Event : Type :=
  | SetItem (key value : string)
  | RemoveItem (key : string)
  | SetTimeout (delay : Z)
  | ConsoleLog (targetURL : string)
  | ConsoleWarn (limit : Z)
  | ConsoleError (error : string)
  | LocationReplace (targetURL : string).

(** [localStorage], the pending timers (each removes the counter after its
    delay), the URL the browser has been sent to, and the events so far. *)
Record Browser := {
  localStorage : gmap string string;
  timers : list Z;
  location : option string;
  events : list Event
}.

Definition emit (ev : Event) (w : Browser) : Browser :=
  {| localStorage := localStorage w; timers := timers w;
     location := location w; events := events w ++ [ev] |}.

Definition getItem (key : string) (w : Browser) : option string :=
  localStorage w !! key.

Definition setItem (key value : string) (w : Browser) : Browser :=
  {| localStorage := <[key := value]> (localStorage w); timers := timers w;
     location := location w; events := events w ++ [SetItem key value] |}.

Definition removeItem (key : string) (w : Browser) : Browser :=
  {| localStorage := delete key (localStorage w); timers := timers w;
     location := location w; events := events w ++ [RemoveItem key] |}.

Definition setTimeout (delay : Z) (w : Browser) : Browser :=
  {| localStorage := localStorage w; timers := timers w ++ [delay];
     location := location w; events := events w ++ [SetTimeout delay] |}.

Definition navigate (targetURL : string) (w : Browser) : Browser :=
  {| localStorage := localStorage w; timers := timers w;
     location := Some targetURL; events := events w |}.

(** [value || fallback] for a string or [null]: the empty string is falsy. *)
Definition or_else (value : option string) (fallback : string) : string :=
  match value with
  | None | Some EmptyString => fallback
  | Some s => s
  end.

(** ** The redirect *)

Definition storageKey : string := "randomRedirectCount".
Definition maxRedirects : Z := 3.

Section Redirect.

Variable cfg : DomainConfig.

(** [window.location.replace(url)]: [None] when the call returns and the
    navigation starts, [Some error] when it throws [error]. *)
Variable location_replace : string -> option string.

Definition performRedirect (w : Browser) : Rand Browser :=
  targetURL <- buildRedirectURL cfg ;;
  let w := emit (ConsoleLog targetURL) w in
  let w := emit (LocationReplace targetURL) w in
  match location_replace targetURL with
  | None => ret (navigate targetURL w)
  | Some error => ret (emit (ConsoleError error) w)
  end.

Definition secureRedirect (w : Browser) : Rand Browser :=
  let redirectCount := parseInt (or_else (getItem storageKey w) "0") in
  if Number_lt redirectCount (Number_of_Z maxRedirects) then
    let w := setItem storageKey
               (Number_toString (Number_add redirectCount (Number_of_Z 1))) w in
    let w := setTimeout (10 * 1000) w in
    performRedirect w
  else ret (emit (ConsoleWarn maxRedirects) w).

End Redirect.

(** The timer set by [secureRedirect] fires: the counter is removed. *)
Definition fire_timer (w : Browser) : Browser :=
  match timers w with
  | [] => w
  | _ :: rest =>
      let w := removeItem storageKey w in
      {| localStorage := localStorage w; timers := rest;
         location := location w; events := events w |}
  end.

(** ** Character classes and the URL pattern *)

(** [[a-z0-9]] *)
Definition lower_alnum (c : ascii) : bool :=
  let n := N_of_ascii c in
  ((97 <=? n) && (n <=? 122) || (48 <=? n) && (n <=? 57))%N.

(** [[a-z0-9-]] *)
Definition label_char (c : ascii) : bool :=
  lower_alnum c || (N_of_ascii c =? 45)%N.

Fixpoint string_forall (P : ascii -> bool) (s : string) : bool :=
  match s with
  | EmptyString => true
  | String c s' => P c && string_forall P s'
  end.

(** [^(https|http)://[a-z0-9-]+\.(TLD)$], [TLD] the alternation of the
    entries of [tlds]. *)
Definition url_pattern (tlds : list string) (url : string) : Prop :=
  exists scheme label tld : string,
    (scheme = "https" \/ scheme = "http")%string /\
    label <> EmptyString /\ string_forall label_char label = true /\
    In tld tlds /\
    url = (scheme ++ "://" ++ label ++ "." ++ tld)%string.

(** A token of a subdomain label: a defined, non-empty string over
    [[a-z0-9-]]. *)
Definition token (x : option string) : Prop :=
  exists s, x = Some s /\ s <> EmptyString /\ string_forall label_char s = true.

Definition is_token (s : string) : bool :=
  negb (String.eqb s EmptyString) && string_forall label_char s.

(** The configurations the generator is meant for: non-empty lists, the
    prefixes tokens, and a length range with [1 <= min <= max]. *)
Definition valid_config (cfg : DomainConfig) : bool :=
  (1 <=? Z.of_nat (List.length (topLevelDomains cfg))) &&
  (Z.of_nat (List.length (topLevelDomains cfg)) <? 2 ^ 32) &&
  (1 <=? Z.of_nat (List.length (subDomainPrefixes cfg))) &&
  (Z.of_nat (List.length (subDomainPrefixes cfg)) <? 2 ^ 32) &&
  forallb is_token (subDomainPrefixes cfg) &&
  (1 <=? min (subDomainRandomLength cfg)) &&
  (min (subDomainRandomLength cfg) <=? max (subDomainRandomLength cfg)) &&
  (max (subDomainRandomLength cfg) <? 2 ^ 32).

(** A source of draws for examples: 0, 0.37, 0.74, 0.11, ... *)
Definition sample_source : RandomSource :=
  fun i => decimal (Z.of_nat (i * 37 mod 100)) 100.

(** A source whose draws make [generateRandomSubdomain] insert ['www']:
    0.05 selects the prefix ['blog'], 0.5 asks for a random string, 0.1
    gives it the length 3, three draws select ['x'], ['7'] and ['q'], 0.1
    decides for the insertion and 0.5 selects the middle position. *)
Definition insertion_source : RandomSource :=
  fun i => nth i [decimal 5 100; decimal 5 10; decimal 1 10; decimal 235 360;
                  decimal 335 360; decimal 165 360; decimal 1 10; decimal 5 10]
               (decimal 5 10).

(** ** Determinism *)

(** Two sources agree on the draws [i], ..., [j - 1]. *)
Definition agree (r1 r2 : RandomSource) (i j : nat) : Prop :=
  forall k, (i <= k < j)%nat -> r1 k = r2 k.

(** A computation depends on the source only through the draws it makes:
    the cursor never goes back, and a source with the same draws from the
    old cursor to the new one gives the same result and the same cursor. *)
Definition reads_own_draws {A} (c : Rand A) : Prop :=
  forall r1 i,
    (i <= snd (c r1 i))%nat /\
    forall r2, agree r1 r2 i (snd (c r1 i)) -> c r2 i = c r1 i.

(** A second source: the sample source for twenty draws, 0.5 from then on. *)
Definition sample_source' : RandomSource :=
  fun i => if (i <? 20)%nat then sample_source i else decimal 1 2.

(** ** Page loads *)

(** The URLs passed to [window.location.replace], oldest first. *)
Definition redirects (w : Browser) : list string :=
  omap (fun ev => match ev with LocationReplace url => Some url | _ => None end)
       (events w).

(** Consecutive page loads with no timer firing in between: each load runs
    [secureRedirect] once, on its own source of draws. *)
Definition page_loads (cfg : DomainConfig) (location_replace : string -> option string)
    (loads : list (RandomSource * nat)) (w : Browser) : Browser :=
  fold_left (fun w '(random, i) => fst (secureRedirect cfg location_replace w random i))
            loads w.

(** The stored counter, when there is one, reads as an integer from 0 to
    [maxRedirects]. *)
Definition counter_in_range (w : Browser) : Prop :=
  forall s, getItem storageKey w = Some s ->
    exists z, 0 <= z <= maxRedirects /\ SFeqb (parseInt s) (Number_of_Z z) = true.

Definition counter_at_max (w : Browser) : Prop :=
  exists s, getItem storageKey w = Some s /\
    SFeqb (parseInt s) (Number_of_Z maxRedirects) = true.

(** The counter stored: nothing for 0, the digit for 1, 2 and 3. *)
Definition stored_count (w : Browser) (c : Z) : Prop :=
  (c = 0 /\ getItem storageKey w = None) \/
  (1 <= c <= 3 /\ getItem storageKey w = Some (digits_of c)).

(** The page is left, as after a navigation or when it is closed: the
    script context ends and its pending timers are discarded;
    [localStorage] stays. *)
Definition unload (w : Browser) : Browser :=
  {| localStorage := localStorage w; timers := [];
     location := location w; events := events w |}.

(** What happens to the redirector: a page load runs [secureRedirect], a
    pending timer fires, or the page is left and its timers are lost.  A
    navigation that [location.replace] starts leaves the page at some
    later step, or never when it fails; a load that finds timers pending
    is one in another window of the same origin, which shares
    [localStorage]. *)
Inductive step (cfg : DomainConfig) (location_replace : string -> option string) :
    Browser -> Browser -> Prop :=
  | step_load (w : Browser) (random : RandomSource) (i : nat) :
      step cfg location_replace w (fst (secureRedirect cfg location_replace w random i))
  | step_timer (w : Browser) :
      timers w <> [] -> step cfg location_replace w (fire_timer w)
  | step_unload (w : Browser) :
      step cfg location_replace w (unload w).

(** Browsers for examples: nothing stored, or [value] stored as counter. *)
Definition fresh_browser : Browser :=
  {| localStorage := ∅; timers := []; location := None; events := [] |}.

Definition browser_with (value : string) : Browser :=
  {| localStorage := {[ storageKey := value ]}; timers := []; location := None;
     events := [] |}.

(** ** Executions of the redirector *)

(** The events that page loads and timers add to the trace: the warning of
    a blocked load; for an allowed load the counter written, the timer
    set, the URL logged and passed to [location.replace], and the error
    logged when that call throws; for a timer the counter removed. *)
Inductive script_events : list Event -> Prop :=
  | events_none : script_events []
  | events_blocked (tr : list Event) :
      script_events tr -> script_events (tr ++ [ConsoleWarn maxRedirects])
  | events_redirect (tr : list Event) (value url : string) :
      script_events tr ->
      script_events (tr ++ [SetItem storageKey value; SetTimeout 10000;
                            ConsoleLog url; LocationReplace url])
  | events_failed (tr : list Event) (value url error : string) :
      script_events tr ->
      script_events (tr ++ [SetItem storageKey value; SetTimeout 10000;
                            ConsoleLog url; LocationReplace url; ConsoleError error])
  | events_reset (tr : list Event) :
      script_events tr -> script_events (tr ++ [RemoveItem storageKey]).

(** The keys removed from [localStorage], oldest first. *)
Definition removals (w : Browser) : list string :=
  omap (fun ev => match ev with RemoveItem key => Some key | _ => None end)
       (events w).

(** The delays passed to [setTimeout], oldest first. *)
Definition timeouts (w : Browser) : list Z :=
  omap (fun ev => match ev with SetTimeout delay => Some delay | _ => None end)
       (events w).

(** The count that the stored counter stands for: 0 when there is none. *)
Definition count_is (w : Browser) (z : Z) : Prop :=
  match getItem storageKey w with
  | None => z = 0
  | Some s => 0 <= z <= maxRedirects /\ SFeqb (parseInt s) (Number_of_Z z) = true
  end.

(** The integer that the digits read by [parseInt] denote, with the sign;
    [None] when there is no digit. *)
Definition leading_integer (s : string) : option Z :=
  let s := trim_start s in
  let '(negative, s) :=
    match s with
    | String "-" s' => (true, s')
    | String "+" s' => (false, s')
    | _ => (false, s)
    end in
  match parse_digits s None with
  | None => None
  | Some mathInt => Some (if negative then - mathInt else mathInt)
  end.
(** ** Host name labels *)

Fixpoint string_last (s : string) : option ascii :=
  match s with
  | EmptyString => None
  | String c EmptyString => Some c
  | String _ s' => string_last s'
  end.

(** A label of a host name (RFC 1123, in lower case): 1 to 63 characters
    of [[a-z0-9-]], the first and the last of them not a hyphen. *)
Definition host_label (s : string) : bool :=
  (1 <=? Z.of_nat (String.length s)) && (Z.of_nat (String.length s) <=? 63) &&
  string_forall label_char s &&
  match s with String c _ => lower_alnum c | EmptyString => false end &&
  match string_last s with Some c => lower_alnum c | None => false end.

(** A non-empty string over [[a-z0-9]]. *)
Definition is_word (s : string) : bool :=
  negb (String.eqb s EmptyString) && string_forall lower_alnum s.

(** A valid configuration whose prefixes are words, short enough for a
    prefix, a random string, ['www'] and two hyphens to fit a label. *)
Definition host_config (cfg : DomainConfig) : bool :=
  valid_config cfg &&
  forallb (fun s => is_word s &&
                    (Z.of_nat (String.length s) + max (subDomainRandomLength cfg) + 5 <=? 63))
          (subDomainPrefixes cfg).

(** ** Decimal digits *)

(** The integer that the decimal digits [d] denote, after the digits of
    value [acc]. *)
Fixpoint uint_value (d : Decimal.uint) (acc : Z) : Z :=
  match d with
  | Decimal.Nil => acc
  | Decimal.D0 d' => uint_value d' (10 * acc)
  | Decimal.D1 d' => uint_value d' (10 * acc + 1)
  | Decimal.D2 d' => uint_value d' (10 * acc + 2)
  | Decimal.D3 d' => uint_value d' (10 * acc + 3)
  | Decimal.D4 d' => uint_value d' (10 * acc + 4)
  | Decimal.D5 d' => uint_value d' (10 * acc + 5)
  | Decimal.D6 d' => uint_value d' (10 * acc + 6)
  | Decimal.D7 d' => uint_value d' (10 * acc + 7)
  | Decimal.D8 d' => uint_value d' (10 * acc + 8)
  | Decimal.D9 d' => uint_value d' (10 * acc + 9)
  end.

(** An integer in decimal, as [Number.prototype.toString] writes it. *)
Definition Z_toString (z : Z) : string :=
  if z <? 0 then ("-" ++ digits_of (- z))%string else digits_of z.

(** The integer that the stored counter starts with; a missing or empty
    counter counts as 0. *)
Definition stored_integer (w : Browser) (z : Z) : Prop :=
  leading_integer (or_else (getItem storageKey w) "0") = Some z.

(** Configurations and a browser for examples: the shipped configuration
    with one of its lists emptied, and a browser with a counter stored and
    a timer pending. *)
Definition config_without_domains : DomainConfig := {|
  topLevelDomains := [];
  subDomainPrefixes := subDomainPrefixes domainConfig;
  subDomainRandomLength := subDomainRandomLength domainConfig;
  includeWwwAsSpecial := includeWwwAsSpecial domainConfig
|}.

Definition config_without_prefixes : DomainConfig := {|
  topLevelDomains := topLevelDomains domainConfig;
  subDomainPrefixes := [];
  subDomainRandomLength := subDomainRandomLength domainConfig;
  includeWwwAsSpecial := includeWwwAsSpecial domainConfig
|}.

Definition browser_with_timer (value : string) : Browser :=
  {| localStorage := {[ storageKey := value; "theme"%string := "dark"%string ]};
     timers := [10 * 1000]; location := None; events := [] |}.

(** ** The generator in the page's memory *)

(** In the page [domainConfig] is one object that every call reads anew,
    and its two lists are arrays, which [push] and [splice] change in
    place.  The generator is given here as the script runs it, on the
    memory of the page: [prefixes] and [topDomains] are the arrays of the
    configuration themselves, not copies, and [subDomainParts] is an array
    made by the call. *)
Module Page.

(** The address of an array. *)
Definition loc := positive.

(** The object [domainConfig]: the lists are held by reference. *)
Record ConfigObject := {
  topLevelDomains : loc;
  subDomainPrefixes : loc;
  subDomainRandomLength : LengthRange;
  includeWwwAsSpecial : bool
}.

(** The memory: the arrays, [None] an element [undefined], and the object
    that the global [domainConfig] names. *)
Record Memory := {
  arrays : gmap loc (list (option string));
  domainConfig : ConfigObject
}.

(** A computation that calls [Math.random()] and reads and writes the
    memory. *)
Definition Script (A : Type) : Type := Memory -> Rand (A * Memory).

Definition value {A} (a : A) : Script A := fun m => ret (a, m).

Definition after {A B} (c : Script A) (k : A -> Script B) : Script B :=
  fun m => am <- c m ;; k (fst am) (snd am).

Notation "x <~ c ;; k" := (after c (fun x => k))
  (at level 100, c at next level, right associativity).

(** A computation that leaves the memory alone. *)
Definition draw {A} (c : Rand A) : Script A := fun m => a <- c ;; ret (a, m).

(** The elements of the array at [xs]. *)
Definition elements (xs : loc) (m : Memory) : list (option string) :=
  default [] (arrays m !! xs).

Definition store (xs : loc) (elts : list (option string)) (m : Memory) : Memory :=
  {| arrays := <[xs := elts]> (arrays m); domainConfig := domainConfig m |}.

(** The global [domainConfig]. *)
Definition the_domainConfig : Script ConfigObject := fun m => ret (domainConfig m, m).

(** [[]]: a new array, at an address not in use. *)
Definition Array_literal : Script loc :=
  fun m => let xs := fresh (dom (arrays m)) in ret (xs, store xs [] m).

(** [xs.length] *)
Definition Array_length (xs : loc) : Script Z :=
  fun m => ret (Z.of_nat (List.length (elements xs m)), m).

(** [xs[i]] *)
Definition Array_at (xs : loc) (i : Z) : Script (option string) :=
  fun m => ret (mjoin (Array_get (elements xs m) i), m).

(** [xs.push(item)] *)
Definition Array_push (xs : loc) (item : option string) : Script unit :=
  fun m => ret (tt, store xs (elements xs m ++ [item]) m).

(** [xs.splice(start, 0, item)] *)
Definition Array_splice_at (xs : loc) (start : Z) (item : option string) : Script unit :=
  fun m => ret (tt, store xs (Array_splice (elements xs m) start item) m).

(** [xs.join(sep)] *)
Definition Array_join_at (sep : string) (xs : loc) : Script string :=
  fun m => ret (Array_join sep (elements xs m), m).

Definition generateRandomSubdomain : Script string :=
  config <~ the_domainConfig ;;
  let prefixes := subDomainPrefixes config in
  config <~ the_domainConfig ;;
  let min := min (subDomainRandomLength config) in
  let max := max (subDomainRandomLength config) in
  subDomainParts <~ Array_literal ;;
  r <~ draw Math_random ;;
  length <~ Array_length prefixes ;;
  randomPrefix <~ Array_at prefixes (Math_floor (Number_mul r (Number_of_Z length))) ;;
  _ <~ Array_push subDomainParts randomPrefix ;;
  r <~ draw Math_random ;;
  _ <~ (if Number_gt r (decimal 3 10) then
          k <~ draw (random_index (max - min + 1)) ;;
          let randomLength := k + min in
          s <~ draw (generateRandomString randomLength) ;;
          Array_push subDomainParts (Some s)
        else value tt) ;;
  config <~ the_domainConfig ;;
  _ <~ (if includeWwwAsSpecial config then
          r <~ draw Math_random ;;
          if Number_lt r (decimal 2 10) then
            r <~ draw Math_random ;;
            length <~ Array_length subDomainParts ;;
            let wwwIndex := Math_floor (Number_mul r (Number_of_Z (length + 1))) in
            Array_splice_at subDomainParts wwwIndex (Some "www"%string)
          else value tt
        else value tt) ;;
  Array_join_at "-" subDomainParts.

Definition getRandomTopLevelDomain : Script (option string) :=
  config <~ the_domainConfig ;;
  let topDomains := topLevelDomains config in
  r <~ draw Math_random ;;
  length <~ Array_length topDomains ;;
  Array_at topDomains (Math_floor (Number_mul r (Number_of_Z length))).

Definition buildRedirectURL : Script string :=
  subdomainPart <~ generateRandomSubdomain ;;
  topDomain <~ getRandomTopLevelDomain ;;
  r <~ draw Math_random ;;
  let protocol := if Number_gt r (decimal 5 10) then "https"%string else "http"%string in
  value (protocol ++ "://" ++ subdomainPart ++ "." ++ interpolate topDomain)%string.

End Page.

(** The memory holds the configuration [cfg]: the object [domainConfig]
    has its values, and the arrays it refers to have its entries. *)
Definition holds (cfg : DomainConfig) (m : Page.Memory) : Prop :=
  Page.arrays m !! Page.topLevelDomains (Page.domainConfig m)
  = Some (Some <$> topLevelDomains cfg) /\
  Page.arrays m !! Page.subDomainPrefixes (Page.domainConfig m)
  = Some (Some <$> subDomainPrefixes cfg) /\
  Page.subDomainRandomLength (Page.domainConfig m) = subDomainRandomLength cfg /\
  Page.includeWwwAsSpecial (Page.domainConfig m) = includeWwwAsSpecial cfg.

(** The memory after the declaration of [domainConfig] (lines 2 to 23):
    the two arrays, and the object that refers to them. *)
Definition declared (cfg : DomainConfig) : Page.Memory :=
  {| Page.arrays := {[ 1%positive := Some <$> topLevelDomains cfg;
                  2%positive := Some <$> subDomainPrefixes cfg ]};
     Page.domainConfig := {| Page.topLevelDomains := 1%positive;
                             Page.subDomainPrefixes := 2%positive;
                             Page.subDomainRandomLength := subDomainRandomLength cfg;
                             Page.includeWwwAsSpecial := includeWwwAsSpecial cfg |} |}.
(** ** Binary64 rounding *)

Lemma digits2_pos_size (p : positive) : digits2_pos p = Pos.size p.
Proof. induction p; simpl; congruence. Qed.

Lemma digits_lower (p : positive) : 2 ^ (Z.pos (digits2_pos p) - 1) <= Z.pos p.
Proof.
  rewrite digits2_pos_size.
  induction p as [p IH | p IH |]; simpl Pos.size.
  - rewrite Pos2Z.inj_succ.
    replace (Z.succ (Z.pos (Pos.size p)) - 1) with (Z.succ (Z.pos (Pos.size p) - 1)) by lia.
    rewrite Z.pow_succ_r by lia. lia.
  - rewrite Pos2Z.inj_succ.
    replace (Z.succ (Z.pos (Pos.size p)) - 1) with (Z.succ (Z.pos (Pos.size p) - 1)) by lia.
    rewrite Z.pow_succ_r by lia. lia.
  - reflexivity.
Qed.

Lemma digits_upper (p : positive) : Z.pos p < 2 ^ Z.pos (digits2_pos p).
Proof.
  rewrite digits2_pos_size.
  induction p as [p IH | p IH |]; simpl Pos.size.
  - rewrite Pos2Z.inj_succ, Z.pow_succ_r by lia. lia.
  - rewrite Pos2Z.inj_succ, Z.pow_succ_r by lia. lia.
  - reflexivity.
Qed.

(** Iterating [f] a positive number of times, one step at a time. *)
Lemma iter_pos_comm {A} (f : A -> A) (p : positive) (x : A) :
  SpecFloat.iter_pos f p (f x) = f (SpecFloat.iter_pos f p x).
Proof.
  revert x. induction p as [p IH | p IH |]; intros x; simpl.
  - now rewrite !IH.
  - now rewrite !IH.
  - reflexivity.
Qed.

Lemma iter_pos_succ {A} (f : A -> A) (p : positive) (x : A) :
  SpecFloat.iter_pos f (Pos.succ p) x = f (SpecFloat.iter_pos f p x).
Proof.
  revert x. induction p as [p IH | p IH |]; intros x; simpl.
  - rewrite !IH. now rewrite !iter_pos_comm.
  - now rewrite !iter_pos_comm.
  - reflexivity.
Qed.

(** One right shift halves the mantissa and moves its low bit to the
    round bit. *)
Lemma shr_1_m (mrs : shr_record) :
  0 <= shr_m mrs -> shr_m (shr_1 mrs) = shr_m mrs / 2.
Proof.
  destruct mrs as [m r s]; simpl; intros Hm.
  destruct m as [| [p | p |] | p]; cbn [shr_m shr_1]; try lia.
  - reflexivity.
  - apply Z.div_unique with 1; lia.
  - apply Z.div_unique with 0; lia.
  - reflexivity.
Qed.

Lemma shr_1_r (mrs : shr_record) :
  0 <= shr_m mrs -> shr_r (shr_1 mrs) = Z.odd (shr_m mrs).
Proof.
  destruct mrs as [m r s]; simpl; intros Hm.
  destruct m as [| [p | p |] | p]; simpl; try lia; reflexivity.
Qed.

(** After [p] shifts of a non-negative mantissa [m]: the mantissa is
    [m / 2^p], and a set round bit means that the part shifted out is at
    least half a unit. *)
Lemma iter_shr_1 (p : positive) (mrs : shr_record) :
  0 <= shr_m mrs ->
  let mrs' := SpecFloat.iter_pos shr_1 p mrs in
  shr_m mrs' = shr_m mrs / 2 ^ Z.pos p /\
  (shr_r mrs' = true -> 2 ^ Z.pos p <= 2 * (shr_m mrs mod 2 ^ Z.pos p)).
Proof.
  intros Hm. induction p as [| p IH] using Pos.peano_ind; cbn zeta.
  - simpl SpecFloat.iter_pos. rewrite shr_1_m, shr_1_r by assumption.
    change (2 ^ 1) with 2. split; [reflexivity |].
    intros Hodd. rewrite Zmod_odd, Hodd. lia.
  - rewrite iter_pos_succ. cbn zeta in IH. destruct IH as [IHm IHr].
    set (x := SpecFloat.iter_pos shr_1 p mrs) in *.
    assert (Hx : 0 <= shr_m x) by (rewrite IHm; apply Z.div_pos; lia).
    rewrite shr_1_m, shr_1_r by assumption.
    rewrite Pos2Z.inj_succ, Z.pow_succ_r by lia.
    rewrite IHm. split.
    + rewrite Z.div_div by lia. f_equal. lia.
    + intros Hodd.
      pose proof (Z.div_mod (shr_m mrs) (2 ^ Z.pos p) ltac:(lia)) as Hd.
      pose proof (Z.mod_pos_bound (shr_m mrs) (2 ^ Z.pos p) ltac:(lia)) as Hb.
      set (q := shr_m mrs / 2 ^ Z.pos p) in *.
      set (t := shr_m mrs mod 2 ^ Z.pos p) in *.
      set (P := 2 ^ Z.pos p) in *.
      assert (Hq : q mod 2 = 1) by (rewrite Zmod_odd, Hodd; reflexivity).
      pose proof (Z.div_mod q 2 ltac:(lia)) as Hq2.
      assert (Hmod : shr_m mrs mod (2 * P) = P + t).
      { symmetry. apply Z.mod_unique with (q / 2); [lia | nia]. }
      rewrite Hmod. lia.
Qed.

(** ** Products of a draw and a list length *)

Lemma fexp_binary64 (e : Z) : fexp prec emax e = Z.max (e - 53) (-1074).
Proof. reflexivity. Qed.

Lemma pow2_pos (k : Z) : 0 <= k -> 0 < 2 ^ k.
Proof. intros. apply Z.pow_pos_nonneg; lia. Qed.

Lemma pow2_split (j k : Z) : 0 <= j -> 0 <= k -> 2 ^ (j + k) = 2 ^ j * 2 ^ k.
Proof. intros. apply Z.pow_add_r; assumption. Qed.

(** Below a power of two, at most that many binary digits. *)
Lemma digits_le (p : positive) (k : Z) :
  Z.pos p < 2 ^ k -> Z.pos (digits2_pos p) <= k.
Proof.
  intros Hlt. pose proof (digits_lower p) as Hlo.
  destruct (Z_lt_le_dec k 0) as [Hk | Hk].
  - rewrite Z.pow_neg_r in Hlt by assumption. lia.
  - assert (H : Z.pos (digits2_pos p) - 1 < k); [| lia].
    apply (Z.pow_lt_mono_r_iff 2); lia.
Qed.

(** [Math.floor] of a non-negative mantissa with a non-positive exponent. *)
Lemma floor_below (m : positive) (e N : Z) :
  e <= 0 -> Z.pos m < N * 2 ^ (- e) ->
  0 <= Math_floor (S754_finite false m e) < N.
Proof.
  intros He Hlt. cbn [Math_floor cond_Zopp].
  rewrite Z.shiftl_div_pow2 by assumption.
  pose proof (pow2_pos (- e) ltac:(lia)).
  split; [apply Z.div_pos; lia |].
  apply Z.div_lt_upper_bound; lia.
Qed.

(** The rounding step keeps the mantissa or adds one; it adds one only
    when the round bit is set. *)
Lemma round_nearest_even_cases (mrs : shr_record) :
  let m := round_nearest_even (shr_m mrs) (loc_of_shr_record mrs) in
  m = shr_m mrs \/ (m = shr_m mrs + 1 /\ shr_r mrs = true).
Proof.
  destruct mrs as [m [] []]; cbn; auto.
  destruct (Z.even m); auto.
Qed.

(** Rounding to nearest of a positive [M * 2^E] below [2^52]: the result
    is zero or a finite [m * 2^e]; it is not below the truncation of the
    value to the unit [2^e], and exceeds the value by at most half of the
    unit [S * 2^E] to which the value is rounded first.  That unit is at
    most [2^-52] times the value, or is the least one, [2^-1074]. *)
Lemma binary_round_aux_bounds (M : positive) (E : Z) :
  E <= 0 -> Z.pos M < 2 ^ 52 * 2 ^ (- E) ->
  exists m e S,
    binary_round_aux prec emax false (Z.pos M) E loc_Exact
    = match m with Z.pos p => S754_finite false p e | _ => S754_zero false end /\
    0 <= m /\ E <= e <= 0 /\
    Z.pos M / 2 ^ (e - E) <= m /\
    0 <= S /\ 2 * (m * 2 ^ (e - E)) <= 2 * Z.pos M + S /\
    (S * 2 ^ 53 <= 2 * Z.pos M \/ (E <= -1074 /\ S = 2 ^ (-1074 - E))).
Proof.
  intros HE HM.
  set (a := - E) in *.
  pose proof (digits_lower M) as Hlo. pose proof (digits_upper M) as Hup.
  set (d := Z.pos (digits2_pos M)) in *.
  assert (Hd : 1 <= d) by (unfold d; lia).
  pose proof (pow2_pos a ltac:(lia)) as Ha.
  assert (Hda : d <= 52 + a).
  { apply digits_le. rewrite pow2_split by lia. exact HM. }
  unfold binary_round_aux, shr_fexp.
  cbn [Zdigits2 shr_record_of_loc]. fold d.
  rewrite fexp_binary64.
  set (e1 := Z.max (d + E - 53) (-1074)).
  assert (He1 : e1 < 0) by (unfold e1, a in *; lia).
  assert (Hexact : e1 - E <= 0 ->
    exists m e S,
      (let '(mrs'', e'') :=
         shr {| shr_m := Z.pos M; shr_r := false; shr_s := false |} E (e1 - E) in
       match shr_m mrs'' with
       | 0 => S754_zero false
       | Z.pos m => if e'' <=? emax - prec then S754_finite false m e''
                    else S754_infinity false
       | Z.neg _ => S754_nan
       end)
      = match m with Z.pos p => S754_finite false p e | _ => S754_zero false end /\
      0 <= m /\ E <= e <= 0 /\
      Z.pos M / 2 ^ (e - E) <= m /\
      0 <= S /\ 2 * (m * 2 ^ (e - E)) <= 2 * Z.pos M + S /\
      (S * 2 ^ 53 <= 2 * Z.pos M \/ (E <= -1074 /\ S = 2 ^ (-1074 - E)))).
  { intros Hs. exists (Z.pos M), E, 0.
    replace (E - E) with 0 by lia. rewrite Z.div_1_r.
    destruct (e1 - E) as [| p | p]; try lia; cbn [shr shr_m];
      (replace (E <=? emax - prec) with true
         by (symmetry; apply Z.leb_le; unfold emax, prec; lia));
      (split; [reflexivity | lia]). }
  destruct (e1 - E) as [| p | p] eqn:Hs; cbn [shr].
  - cbn [shr_m round_nearest_even loc_of_shr_record shr_record_of_loc Zdigits2].
    fold d. rewrite fexp_binary64. fold e1. rewrite Hs. apply Hexact. lia.
  - (* [p] low bits are shifted out, then the mantissa is rounded *)
    clear Hexact.
    set (mrs1 := SpecFloat.iter_pos shr_1 p
                   {| shr_m := Z.pos M; shr_r := false; shr_s := false |}).
    destruct (iter_shr_1 p {| shr_m := Z.pos M; shr_r := false; shr_s := false |}
                ltac:(cbn; lia)) as [Hq Hr].
    cbn [shr_m] in Hq, Hr. fold mrs1 in Hq, Hr.
    pose proof (round_nearest_even_cases mrs1) as Hm1. cbn zeta in Hm1.
    set (m1 := round_nearest_even (shr_m mrs1) (loc_of_shr_record mrs1)) in *.
    replace (E + Z.pos p) with e1 by lia.
    pose proof (pow2_pos (Z.pos p) ltac:(lia)) as HS.
    pose proof (Z.div_mod (Z.pos M) (2 ^ Z.pos p) ltac:(lia)) as Hdm.
    pose proof (Z.mod_pos_bound (Z.pos M) (2 ^ Z.pos p) ltac:(lia)) as Hrem.
    assert (Hp : 0 < e1 - E) by lia.
    replace (Z.pos p) with (e1 - E) in * by lia. clear Hs.
    set (S := 2 ^ (e1 - E)) in *. set (rem := Z.pos M mod S) in *.
    rewrite <- Hq in Hdm. set (q := shr_m mrs1) in *.
    assert (Hq0 : 0 <= q) by nia.
    pose proof (pow2_pos (- e1) ltac:(lia)) as He1p.
    assert (Hsplit : 2 ^ a = 2 ^ (- e1) * S).
    { unfold S. rewrite <- pow2_split by lia. f_equal. lia. }
    (* the unit of the first rounding *)
    assert (HSunit : S * 2 ^ 53 <= 2 * Z.pos M \/ (E <= -1074 /\ S = 2 ^ (-1074 - E))).
    { destruct (Z.max_spec (d + E - 53) (-1074)) as [[_ Hmax] | [_ Hmax]];
        fold e1 in Hmax.
      - right. split; [lia |]. unfold S. f_equal. lia.
      - left.
        assert (Hd2 : 2 ^ d = 2 * 2 ^ (d - 1)).
        { replace d with (Z.succ (d - 1)) at 1 by lia. apply Z.pow_succ_r. lia. }
        assert (Hd53 : 2 ^ d = S * 2 ^ 53)
          by (unfold S; rewrite <- pow2_split by lia; f_equal; lia).
        lia. }
    assert (Hm1q : q <= m1 /\ 2 * (m1 * S) <= 2 * Z.pos M + S).
    { destruct Hm1 as [-> | [-> Hrb]]; [nia |]. specialize (Hr Hrb). nia. }
    assert (Hm1le : m1 <= 2 ^ (52 - e1)).
    { replace (52 - e1) with (52 + - e1) by lia. rewrite pow2_split by lia.
      rewrite Hsplit in HM. nia. }
    cbn [shr_m].
    destruct m1 as [| m | m] eqn:Hm1e; [| | lia].
    + cbn [Zdigits2]. rewrite fexp_binary64.
      assert (Hs2 : Z.max (0 + e1 - 53) (-1074) - e1 <= 0) by (unfold e1; lia).
      exists 0, e1, S.
      destruct (Z.max (0 + e1 - 53) (-1074) - e1) as [| p2 | p2]; [| lia |];
        cbn [shr shr_m]; (split; [reflexivity |]); fold S;
        (repeat split; [lia | lia | lia | lia | lia | lia | exact HSunit]).
    + cbn [Zdigits2]. rewrite fexp_binary64.
      assert (Hdm1 : Z.pos (digits2_pos m) <= 53 - e1).
      { apply digits_le.
        assert (2 ^ (53 - e1) = 2 * 2 ^ (52 - e1)).
        { replace (53 - e1) with (Z.succ (52 - e1)) by lia. apply Z.pow_succ_r. lia. }
        pose proof (pow2_pos (52 - e1) ltac:(lia)). lia. }
      set (e2 := Z.max (Z.pos (digits2_pos m) + e1 - 53) (-1074)).
      assert (He2 : e2 <= 0) by (unfold e2; lia).
      destruct (e2 - e1) as [| p2 | p2] eqn:Hs2; cbn [shr shr_m].
      * replace (e1 <=? emax - prec) with true
          by (symmetry; apply Z.leb_le; unfold emax, prec; lia).
        exists (Z.pos m), e1, S. fold S.
        split; [reflexivity |].
        repeat split; [lia | lia | lia | lia | lia | lia | exact HSunit].
      * destruct (iter_shr_1 p2 {| shr_m := Z.pos m; shr_r := false; shr_s := false |}
                    ltac:(cbn; lia)) as [Hq2 _].
        cbn [shr_m] in Hq2. rewrite Hq2.
        pose proof (pow2_pos (Z.pos p2) ltac:(lia)) as HS2.
        pose proof (Z.div_mod (Z.pos m) (2 ^ Z.pos p2) ltac:(lia)) as Hdm2.
        pose proof (Z.mod_pos_bound (Z.pos m) (2 ^ Z.pos p2) ltac:(lia)) as Hrem2.
        assert (Hunit2 : 2 ^ (e1 + Z.pos p2 - E) = S * 2 ^ Z.pos p2).
        { unfold S. rewrite <- pow2_split by lia. f_equal. lia. }
        assert (Hm2 : 0 <= Z.pos m / 2 ^ Z.pos p2) by (apply Z.div_pos; lia).
        exists (Z.pos m / 2 ^ Z.pos p2), (e1 + Z.pos p2), S.
        split.
        { destruct (Z.pos m / 2 ^ Z.pos p2) as [| m2 | m2]; [reflexivity | | lia].
          replace (e1 + Z.pos p2 <=? emax - prec) with true
            by (symmetry; apply Z.leb_le; unfold emax, prec; lia).
          reflexivity. }
        rewrite Hunit2.
        repeat split; [lia | lia | lia | | lia | nia | exact HSunit].
        rewrite <- Z.div_div by lia. fold q. apply Z.div_le_mono; lia.
      * replace (e1 <=? emax - prec) with true
          by (symmetry; apply Z.leb_le; unfold emax, prec; lia).
        exists (Z.pos m), e1, S. fold S.
        split; [reflexivity |].
        repeat split; [lia | lia | lia | lia | lia | lia | exact HSunit].
  - cbn [shr_m round_nearest_even loc_of_shr_record shr_record_of_loc Zdigits2].
    fold d. rewrite fexp_binary64. fold e1. rewrite Hs. apply Hexact. lia.
Qed.

(** [Math.floor] of the result of a rounding. *)
Lemma floor_rounded (m e : Z) :
  0 <= m -> e <= 0 ->
  Math_floor (match m with Z.pos p => S754_finite false p e | _ => S754_zero false end)
  = m / 2 ^ (- e).
Proof.
  intros Hm He. destruct m as [| p | p]; [| | lia].
  - cbn. now rewrite Z.div_0_l by (apply Z.pow_nonzero; lia).
  - cbn [Math_floor cond_Zopp]. now rewrite Z.shiftl_div_pow2.
Qed.

Lemma is_finite_rounded (m e : Z) :
  is_finite (match m with Z.pos p => S754_finite false p e | _ => S754_zero false end) = true.
Proof. now destruct m. Qed.

(** Rounding a positive [M * 2^E] that is at most [N - N * 2^-53], for an
    integer [N] of at most 52 bits, stays below [N]: the result is
    finite and its floor is below [N]. *)
Lemma binary_round_aux_below (M : positive) (E N T : Z) :
  E <= 0 -> 1 <= N <= 2 ^ 52 -> 0 < T ->
  N * 2 ^ (- E) = T * 2 ^ 53 ->
  Z.pos M <= T * 2 ^ 53 - T ->
  let x := binary_round_aux prec emax false (Z.pos M) E loc_Exact in
  is_finite x = true /\ 0 <= Math_floor x < N.
Proof.
  intros HE HN HT HNT HM. cbn zeta.
  pose proof (pow2_pos (- E) ltac:(lia)) as Ha.
  destruct (binary_round_aux_bounds M E HE ltac:(nia))
    as (m & e & S & -> & Hm & He & _ & HS & Hup & HSunit).
  rewrite is_finite_rounded, floor_rounded by lia.
  split; [reflexivity |].
  pose proof (pow2_pos (- e) ltac:(lia)) as Hep.
  pose proof (pow2_pos (e - E) ltac:(lia)) as HU.
  assert (Hsplit : 2 ^ (- E) = 2 ^ (- e) * 2 ^ (e - E))
    by (rewrite <- pow2_split by lia; f_equal; lia).
  assert (HST : S < 2 * T).
  { destruct HSunit as [Hnormal | [HE' ->]]; [nia |].
    assert (H53 : 2 ^ (- E) = 2 ^ (-1074 - E) * 2 ^ 1021 * 2 ^ 53)
      by (rewrite <- !pow2_split by lia; f_equal; lia).
    pose proof (pow2_pos (-1074 - E) ltac:(lia)).
    pose proof (pow2_pos 1021 ltac:(lia)).
    assert (T = N * (2 ^ (-1074 - E) * 2 ^ 1021)) by nia.
    nia. }
  split; [apply Z.div_pos; lia |].
  apply Z.div_lt_upper_bound; [lia |].
  rewrite Hsplit in HNT. nia.
Qed.

(** Rounding a positive [M * 2^E] that is at least the integer [N] does
    not go below [N]. *)
Lemma binary_round_aux_at_least (M : positive) (E N : Z) :
  E <= 0 -> Z.pos M < 2 ^ 52 * 2 ^ (- E) -> 0 <= N ->
  N * 2 ^ (- E) <= Z.pos M ->
  N <= Math_floor (binary_round_aux prec emax false (Z.pos M) E loc_Exact).
Proof.
  intros HE HM HN HNM.
  destruct (binary_round_aux_bounds M E HE HM)
    as (m & e & S & -> & Hm & He & Hlo & _).
  rewrite floor_rounded by lia.
  pose proof (pow2_pos (- e) ltac:(lia)) as Hep.
  pose proof (pow2_pos (e - E) ltac:(lia)) as HU.
  assert (Hsplit : 2 ^ (- E) = 2 ^ (- e) * 2 ^ (e - E))
    by (rewrite <- pow2_split by lia; f_equal; lia).
  apply Z.div_le_lower_bound; [lia |].
  eapply Z.le_trans; [| exact Hlo].
  apply Z.div_le_lower_bound; [lia |].
  rewrite Hsplit in HNM. lia.
Qed.

(** A draw is at most [1 - 2^-53], and its exponent at most -53. *)
Lemma unit_interval_bound (m : positive) (e : Z) :
  unit_interval (S754_finite false m e) = true ->
  e <= -53 /\ Z.pos m <= (2 ^ 53 - 1) * 2 ^ (- e - 53).
Proof.
  cbn [unit_interval]. unfold bounded, canonical_mantissa.
  rewrite fexp_binary64. intros H.
  apply andb_prop in H as [H Hlt]. apply andb_prop in H as [H He0].
  apply andb_prop in H as [Hc _].
  apply Z.eqb_eq in Hc. apply Z.leb_le in He0. apply Z.ltb_lt in Hlt.
  pose proof (digits_lower m) as Hlo. pose proof (digits_upper m) as Hup.
  set (d := Z.pos (digits2_pos m)) in *. clearbody d.
  assert (Hd53 : d <= 53) by lia.
  assert (Hm53 : Z.pos m < 2 ^ 53).
  { eapply Z.lt_le_trans; [exact Hup |]. apply Z.pow_le_mono_r; lia. }
  assert (He : e <= -53).
  { destruct (Z.max_spec (d + e - 53) (-1074)) as [[_ Hmax] | [_ Hmax]]; [lia |].
    assert (52 < - e); [| lia].
    apply (Z.pow_lt_mono_r_iff 2); [lia | lia |].
    replace (d - 1) with 52 in Hlo by lia. lia. }
  split; [exact He |].
  pose proof (pow2_pos (- e - 53) ltac:(lia)). nia.
Qed.

Lemma iter_xO_pos (k m : positive) : Z.pos (Pos.iter xO m k) = Z.pos m * 2 ^ Z.pos k.
Proof.
  induction k as [| k IH] using Pos.peano_ind.
  - cbn. lia.
  - rewrite Pos.iter_succ, Pos2Z.inj_succ, Z.pow_succ_r by lia.
    change (Z.pos (Pos.iter xO m k)~0) with (2 * Z.pos (Pos.iter xO m k)). lia.
Qed.

Lemma iter_xO_digits (k m : positive) :
  digits2_pos (Pos.iter xO m k) = (digits2_pos m + k)%positive.
Proof.
  induction k as [| k IH] using Pos.peano_ind.
  - cbn. lia.
  - rewrite Pos.iter_succ. cbn [digits2_pos]. rewrite IH. lia.
Qed.

(** Integers of at most 53 bits are Numbers exactly. *)
Lemma Number_of_Z_exact (n : Z) :
  1 <= n < 2 ^ 53 ->
  exists m e, Number_of_Z n = S754_finite false m e /\
              e <= 0 /\ Z.pos m = n * 2 ^ (- e).
Proof.
  intros Hn. destruct n as [| n | n]; try lia.
  unfold Number_of_Z, binary_normalize, binary_round.
  rewrite fexp_binary64.
  pose proof (digits_le n 53 ltac:(lia)) as Hd.
  set (d := digits2_pos n) in *.
  assert (Haux : forall mz ez, Z.pos (digits2_pos mz) = 53 -> -1074 <= ez <= 0 ->
            binary_round_aux prec emax false (Z.pos mz) ez loc_Exact
            = S754_finite false mz ez).
  { intros mz ez Hdz Hez. unfold binary_round_aux, shr_fexp.
    cbn [Zdigits2 shr_record_of_loc]. rewrite fexp_binary64, Hdz.
    replace (Z.max (53 + ez - 53) (-1074) - ez) with 0 by lia.
    cbn [shr shr_m round_nearest_even loc_of_shr_record shr_record_of_loc Zdigits2].
    rewrite fexp_binary64, Hdz.
    replace (Z.max (53 + ez - 53) (-1074) - ez) with 0 by lia.
    cbn [shr shr_m].
    replace (ez <=? emax - prec) with true
      by (symmetry; apply Z.leb_le; unfold emax, prec; lia).
    reflexivity. }
  unfold shl_align.
  replace (Z.max (Z.pos d + 0 - 53) (-1074)) with (Z.pos d - 53) by lia.
  destruct (Z.pos d - 53 - 0) as [| k | k] eqn:Hk; try lia.
  - rewrite Haux; [| fold d; lia | lia].
    exists n, 0. repeat split; [lia | cbn; lia].
  - rewrite Haux; [| rewrite iter_xO_digits; fold d; lia | lia].
    exists (Pos.iter xO n k), (Z.pos d - 53).
    repeat split; [lia |]. rewrite iter_xO_pos. do 2 f_equal. lia.
Qed.

(** [Math.floor(Math.random() * n)] is an index below [n]: the product of
    a draw and the Number of a positive integer of at most 52 bits is
    finite, and its floor lies in [0, n). *)
Theorem floor_mul_unit (r : Number) (n : Z) :
  unit_interval r = true -> 1 <= n <= 2 ^ 52 ->
  is_finite (Number_mul r (Number_of_Z n)) = true /\
  0 <= Math_floor (Number_mul r (Number_of_Z n)) < n.
Proof.
  intros Hr Hn.
  destruct (Number_of_Z_exact n ltac:(lia)) as (mn & en & -> & Hen & Hmn).
  destruct r as [[] | | | [] mx ex]; try discriminate Hr.
  - cbn. lia.
  - destruct (unit_interval_bound mx ex Hr) as [Hex Hmx].
    unfold Number_mul, SFmul. cbn [xorb].
    pose proof (pow2_pos (- ex - 53) ltac:(lia)).
    pose proof (pow2_pos (- en) ltac:(lia)).
    apply (binary_round_aux_below (mx * mn) (ex + en) n
             (n * 2 ^ (- ex - 53) * 2 ^ (- en))); try lia.
    + replace (- (ex + en)) with ((- ex - 53) + 53 + - en) by lia.
      rewrite !pow2_split by lia. ring.
    + rewrite Pos2Z.inj_mul, Hmn. nia.
Qed.

Corollary mul_unit_finite (r : Number) (n : Z) :
  unit_interval r = true -> 1 <= n <= 2 ^ 52 ->
  is_finite (Number_mul r (Number_of_Z n)) = true.
Proof. intros Hr Hn. apply floor_mul_unit; assumption. Qed.


(** ** Where a draw falls *)

Lemma value_finite (m : positive) (e : Z) :
  e < 0 ->
  Number_value (S754_finite false m e) = (Z.pos m # 2 ^ Z.to_pos (- e))%Q /\
  Z.pos (2 ^ Z.to_pos (- e)) = 2 ^ (- e).
Proof.
  intros He. unfold Number_value.
  replace (e <? 0) with true by (symmetry; apply Z.ltb_lt; lia).
  split; [reflexivity |].
  rewrite Pos2Z.inj_pow, Z2Pos.id by lia. reflexivity.
Qed.

Lemma Qle_scaled_l (a b m : Z) (D : positive) :
  (inject_Z a <= inject_Z b * (m # D))%Q <-> a * Z.pos D <= b * m.
Proof. unfold Qle, Qmult, inject_Z. cbn [Qnum Qden]. lia. Qed.

Lemma Qle_scaled_r (b c m : Z) (D : positive) :
  (inject_Z b * (m # D) <= inject_Z c * (1 - (1 # 2 ^ 53)))%Q
  <-> b * m * 2 ^ 53 <= c * (2 ^ 53 - 1) * Z.pos D.
Proof.
  unfold Qle, Qmult, Qminus, Qplus, Qopp, inject_Z. cbn [Qnum Qden].
  change (Z.pos (1 * 2 ^ 53)) with (2 ^ 53).
  change (Z.pos (1 * (1 * 2 ^ 53))) with (2 ^ 53).
  rewrite !Pos2Z.inj_mul. change (Z.pos (2 ^ 53)) with (2 ^ 53). lia.
Qed.

(** A draw has a mantissa of at most 53 bits, a full one unless the
    exponent is the least one. *)
Lemma unit_interval_canonical (m : positive) (e : Z) :
  unit_interval (S754_finite false m e) = true ->
  -1074 <= e <= -53 /\ Z.pos m < 2 ^ 53 /\ (e = -1074 \/ 2 ^ 52 <= Z.pos m).
Proof.
  intros Hunit. destruct (unit_interval_bound m e Hunit) as [He _].
  revert Hunit. cbn [unit_interval]. unfold bounded, canonical_mantissa.
  rewrite fexp_binary64. intros H.
  apply andb_prop in H as [H _]. apply andb_prop in H as [H _].
  apply andb_prop in H as [Hc _]. apply Z.eqb_eq in Hc.
  pose proof (digits_lower m) as Hlo. pose proof (digits_upper m) as Hup.
  set (d := Z.pos (digits2_pos m)) in *. clearbody d.
  assert (Hm53 : Z.pos m < 2 ^ 53).
  { eapply Z.lt_le_trans; [exact Hup |]. apply Z.pow_le_mono_r; lia. }
  repeat split; [lia | lia | exact Hm53 |].
  destruct (Z.max_spec (d + e - 53) (-1074)) as [[_ Hmax] | [_ Hmax]]; [left; lia |].
  right. replace (d - 1) with 52 in Hlo by lia. exact Hlo.
Qed.

(** [Math.floor(r * n)] is [pos] for every draw [r] with
    [pos / n <= r <= (pos + 1) / n * (1 - 2^-53)]. *)
Theorem floor_mul_cell (r : Number) (n pos : Z) :
  unit_interval r = true -> 1 <= n <= 2 ^ 52 -> 0 <= pos < n ->
  (inject_Z pos <= inject_Z n * Number_value r)%Q ->
  (inject_Z n * Number_value r <= inject_Z (pos + 1) * (1 - (1 # 2 ^ 53)))%Q ->
  Math_floor (Number_mul r (Number_of_Z n)) = pos.
Proof.
  intros Hr Hn Hpos Hlo Hhi.
  destruct (Number_of_Z_exact n ltac:(lia)) as (mn & en & -> & Hen & Hmn).
  destruct r as [[] | | | [] mx ex]; try discriminate Hr.
  - cbn [Number_value] in Hlo.
    assert (pos = 0); [| subst pos; reflexivity].
    revert Hlo. unfold Qle, Qmult, inject_Z. cbn [Qnum Qden]. lia.
  - destruct (unit_interval_bound mx ex Hr) as [Hex Hmx].
    destruct (value_finite mx ex ltac:(lia)) as [Hval HD].
    rewrite Hval in Hlo, Hhi.
    apply (proj1 (Qle_scaled_l _ _ _ _)) in Hlo.
    apply (proj1 (Qle_scaled_r _ _ _ _)) in Hhi. rewrite HD in Hlo, Hhi.
    unfold Number_mul, SFmul. cbn [xorb].
    pose proof (pow2_pos (- ex - 53) ltac:(lia)) as Hb.
    pose proof (pow2_pos (- en) ltac:(lia)) as Hc.
    pose proof (pow2_pos (- ex) ltac:(lia)) as Hbx.
    assert (Hsplit : 2 ^ (- (ex + en)) = 2 ^ (- ex) * 2 ^ (- en))
      by (rewrite <- pow2_split by lia; f_equal; lia).
    assert (Hsplit53 : 2 ^ (- ex) = 2 ^ (- ex - 53) * 2 ^ 53)
      by (rewrite <- pow2_split by lia; f_equal; lia).
    assert (HM : Z.pos (mx * mn) < 2 ^ 52 * 2 ^ (- (ex + en))).
    { rewrite Pos2Z.inj_mul, Hmn, Hsplit. nia. }
    apply Z.le_antisymm.
    + assert (H : Math_floor (binary_round_aux prec emax false (Z.pos (mx * mn))
                               (ex + en) loc_Exact) < pos + 1); [| lia].
      apply (binary_round_aux_below (mx * mn) (ex + en) (pos + 1)
               ((pos + 1) * 2 ^ (- ex - 53) * 2 ^ (- en))).
      * lia.
      * lia.
      * apply Z.mul_pos_pos; [apply Z.mul_pos_pos |]; lia.
      * rewrite Hsplit, Hsplit53. ring.
      * rewrite Pos2Z.inj_mul, Hmn. rewrite Hsplit53 in Hhi. nia.
    + apply binary_round_aux_at_least; try lia.
      rewrite Pos2Z.inj_mul, Hmn, Hsplit. nia.
Qed.

(** The literal [0.2] separates the draws below one fifth from the
    others: no binary64 lies between one fifth and the literal. *)
Lemma lt_one_fifth (r : Number) :
  unit_interval r = true ->
  Number_lt r (decimal 2 10) = true <-> (Number_value r < 1 # 5)%Q.
Proof.
  intros Hr.
  assert (Hlit : decimal 2 10 = S754_finite false 7205759403792794 (-55))
    by (vm_compute; reflexivity).
  rewrite Hlit. clear Hlit.
  destruct r as [[] | | | [] m e]; try discriminate Hr.
  - split; reflexivity.
  - destruct (unit_interval_canonical m e Hr) as (He & Hm & Hnorm).
    destruct (value_finite m e ltac:(lia)) as [-> HD].
    unfold Qlt. cbn [Qnum Qden]. rewrite HD.
    unfold Number_lt, SFltb, SFcompare.
    assert (Hcmp : forall k, PosDef.Pos.compare_cont Eq m k = Pos.compare m k)
      by reflexivity.
    rewrite Hcmp. clear Hcmp Hr HD.
    assert (H52 : 2 ^ 52 = 4503599627370496) by (vm_compute; reflexivity).
    assert (H53 : 2 ^ 53 = 9007199254740992) by (vm_compute; reflexivity).
    assert (H54 : 2 ^ 54 = 18014398509481984) by (vm_compute; reflexivity).
    assert (H55 : 2 ^ 55 = 36028797018963968) by (vm_compute; reflexivity).
    assert (H56 : 2 ^ 56 = 72057594037927936) by (vm_compute; reflexivity).
    rewrite H52 in Hnorm. rewrite H53 in Hm.
    destruct (Z.compare_spec e (-55)) as [-> | Hlt | Hgt].
    + replace (- -55) with 55 by reflexivity. rewrite H55.
      rewrite Pos2Z.inj_compare.
      destruct (Z.compare_spec (Z.pos m) 7205759403792794) as [Hm' | Hm' | Hm'];
        (split; [intros H; try discriminate H; lia | intros H; try reflexivity; lia]).
    + split; [intros _ | reflexivity].
      assert (2 ^ 56 <= 2 ^ (- e)) by (apply Z.pow_le_mono_r; lia).
      rewrite H56 in *. lia.
    + split; [discriminate |]. intros H. exfalso.
      destruct Hnorm as [-> | Hnorm]; [lia |].
      assert (2 ^ (- e) <= 2 ^ 54) by (apply Z.pow_le_mono_r; lia).
      rewrite H54 in *. lia.
Qed.

(** ** The generator *)

Lemma append_cons (c : ascii) (s1 s2 : string) :
  (String c s1 ++ s2 = String c (s1 ++ s2))%string.
Proof. reflexivity. Qed.

Lemma append_nil_l (s : string) : (EmptyString ++ s = s)%string.
Proof. reflexivity. Qed.

Lemma append_nil_r (s : string) : (s ++ EmptyString = s)%string.
Proof. induction s as [| c s IH]; [reflexivity | now rewrite append_cons, IH]. Qed.

Lemma append_assoc (s1 s2 s3 : string) :
  ((s1 ++ s2) ++ s3 = s1 ++ (s2 ++ s3))%string.
Proof.
  induction s1 as [| c s1 IH]; [reflexivity |].
  now rewrite !append_cons, IH.
Qed.

Lemma string_forall_app (P : ascii -> bool) (s1 s2 : string) :
  string_forall P (s1 ++ s2) = string_forall P s1 && string_forall P s2.
Proof.
  induction s1 as [| c s1 IH]; [reflexivity |].
  rewrite append_cons. cbn. rewrite IH. apply andb_assoc.
Qed.

Lemma string_length_app (s1 s2 : string) :
  String.length (s1 ++ s2) = (String.length s1 + String.length s2)%nat.
Proof.
  induction s1 as [| c s1 IH]; [reflexivity |].
  rewrite append_cons. cbn. now rewrite IH.
Qed.

Lemma string_forall_weaken (P Q : ascii -> bool) (s : string) :
  (forall c, P c = true -> Q c = true) ->
  string_forall P s = true -> string_forall Q s = true.
Proof.
  intros HPQ. induction s as [| c s IH]; [reflexivity |].
  cbn. intros [Hc Hs]%andb_prop. now rewrite (HPQ c Hc), IH.
Qed.

(** The equations of the computations with draws. *)
Lemma bind_eq {A B} (c : Rand A) (k : A -> Rand B) (random : RandomSource) (i : nat) :
  bind c k random i = let (a, j) := c random i in k a random j.
Proof. reflexivity. Qed.

Lemma bind_Math_random {B} (k : Number -> Rand B) (random : RandomSource) (i : nat) :
  bind Math_random k random i = k (random i) random (S i).
Proof. reflexivity. Qed.

Lemma bind_random_index {B} (n : Z) (k : Z -> Rand B) (random : RandomSource) (i : nat) :
  bind (random_index n) k random i
  = k (Math_floor (Number_mul (random i) (Number_of_Z n))) random (S i).
Proof. reflexivity. Qed.

(** Every character of [characters] is a lower-case letter or a digit. *)
Lemma charAt_characters (k : Z) :
  0 <= k < 36 ->
  exists c, charAt characters k = String c EmptyString /\ lower_alnum c = true.
Proof.
  intros Hk. unfold charAt.
  replace (0 <=? k) with true by (symmetry; apply Z.leb_le; lia).
  assert (Hn : (Z.to_nat k < 36)%nat) by lia.
  generalize dependent (Z.to_nat k). intros n Hn.
  do 36 (destruct n as [| n]; [cbn; eexists; split; reflexivity |]).
  lia.
Qed.

Section Draws.

Variable random : RandomSource.
Hypothesis random_unit : forall i, unit_interval (random i) = true.

(** [Math.floor(Math.random() * n)] takes one draw and is an index below
    [n]. *)
Lemma random_index_range (n : Z) (i : nat) :
  1 <= n <= 2 ^ 52 ->
  exists k, random_index n random i = (k, S i) /\ 0 <= k < n.
Proof.
  intros Hn. unfold random_index, bind, Math_random, ret.
  eexists. split; [reflexivity |].
  apply floor_mul_unit; [apply random_unit | exact Hn].
Qed.

Lemma generateRandomString_loop_spec (n : nat) (result : string) (i : nat) :
  exists suffix,
    generateRandomString_loop n result random i = ((result ++ suffix)%string, (i + n)%nat) /\
    String.length suffix = n /\ string_forall lower_alnum suffix = true.
Proof.
  revert result i. induction n as [| n IH]; intros result i.
  - exists EmptyString. cbn. unfold ret.
    rewrite Nat.add_0_r, append_nil_r. repeat split.
  - cbn [generateRandomString_loop]. unfold bind at 1.
    destruct (random_index_range (Z.of_nat (String.length characters)) i)
      as (k & -> & Hk); [cbn; lia |].
    destruct (charAt_characters k Hk) as (c & -> & Hc).
    destruct (IH (result ++ String c EmptyString)%string (S i)) as (suffix & -> & Hlen & Hall).
    exists (String c suffix). split; [| split].
    + f_equal; [| lia]. now rewrite append_assoc.
    + cbn. now rewrite Hlen.
    + cbn. now rewrite Hc, Hall.
Qed.

(** C6: for every length [L >= 0] and every sequence of draws,
    [generateRandomString(L)] returns a string of exactly [L] characters,
    each a lower-case letter or a digit; for [L = 0] it is the empty
    string. *)
Theorem generateRandomString_length_alphabet (L : Z) (i : nat) :
  0 <= L ->
  let s := fst (generateRandomString L random i) in
  Z.of_nat (String.length s) = L /\
  string_forall lower_alnum s = true /\
  (L = 0 -> s = EmptyString).
Proof.
  intros HL. unfold generateRandomString.
  destruct (generateRandomString_loop_spec (Z.to_nat L) EmptyString i)
    as (suffix & -> & Hlen & Hall).
  cbn [fst]. rewrite append_nil_l. repeat split.
  - rewrite Hlen. lia.
  - exact Hall.
  - intros ->. destruct suffix; [reflexivity | discriminate Hlen].
Qed.

Lemma generateRandomString_spec (L : Z) (i : nat) :
  exists s, generateRandomString L random i = (s, (i + Z.to_nat L)%nat) /\
            String.length s = Z.to_nat L /\ string_forall lower_alnum s = true.
Proof.
  unfold generateRandomString.
  destruct (generateRandomString_loop_spec (Z.to_nat L) EmptyString i)
    as (suffix & -> & Hlen & Hall).
  exists suffix. rewrite append_nil_l. auto.
Qed.

End Draws.

Lemma sample_source_unit (i : nat) : unit_interval (sample_source i) = true.
Proof.
  unfold sample_source.
  assert (Hn : (i * 37 mod 100 < 100)%nat) by (apply Nat.mod_upper_bound; lia).
  generalize dependent (i * 37 mod 100)%nat. intros n Hn.
  do 100 (destruct n as [| n]; [vm_compute; reflexivity |]).
  lia.
Qed.

Lemma generateRandomString_length_alphabet_witness :
  0 <= 5 /\
  let s := fst (generateRandomString 5 sample_source 0%nat) in
  Z.of_nat (String.length s) = 5 /\
  string_forall lower_alnum s = true /\
  (5 = 0 -> s = EmptyString).
Proof.
  split; [lia |].
  apply (generateRandomString_length_alphabet sample_source sample_source_unit 5 0%nat).
  lia.
Defined.

(** *** Joining tokens *)

Lemma is_token_spec (s : string) :
  is_token s = true -> token (Some s).
Proof.
  unfold is_token. intros [Hne Hall]%andb_prop.
  exists s. repeat split; [| exact Hall].
  intros ->. discriminate Hne.
Qed.

Lemma www_token : token (Some "www"%string).
Proof. apply is_token_spec. reflexivity. Qed.

Lemma lower_alnum_label_char (c : ascii) : lower_alnum c = true -> label_char c = true.
Proof. unfold label_char. now intros ->. Qed.

(** A non-empty string of letters and digits is a token. *)
Lemma alnum_token (s : string) :
  s <> EmptyString -> string_forall lower_alnum s = true -> token (Some s).
Proof.
  intros Hne Hall. exists s. repeat split; [exact Hne |].
  revert Hall. apply string_forall_weaken, lower_alnum_label_char.
Qed.

Lemma Array_join_cons (sep s : string) (xs : list (option string)) :
  xs <> [] ->
  Array_join sep (Some s :: xs) = (s ++ sep ++ Array_join sep xs)%string.
Proof. destruct xs; [congruence | reflexivity]. Qed.

(** Tokens joined by ["-"] give a non-empty string over [[a-z0-9-]]. *)
Lemma Array_join_tokens (xs : list (option string)) :
  xs <> [] -> Forall token xs ->
  Array_join "-" xs <> EmptyString /\
  string_forall label_char (Array_join "-" xs) = true.
Proof.
  induction xs as [| x xs IH]; [congruence |].
  intros _ Hall. apply Forall_cons in Hall as [(s & -> & Hne & Hs) Hxs].
  destruct xs as [| y ys].
  - cbn. auto.
  - rewrite Array_join_cons by congruence.
    destruct (IH ltac:(congruence) Hxs) as [_ IHall]. split.
    + destruct s; [congruence | discriminate].
    + rewrite !string_forall_app, Hs, IHall. reflexivity.
Qed.

(** [splice(start, 0, item)] inserts [item] at a position of the array. *)
Lemma Array_splice_insert {A} (xs : list A) (start : Z) (item : A) :
  0 <= start <= Z.of_nat (List.length xs) ->
  Array_splice xs start item
  = take (Z.to_nat start) xs ++ item :: drop (Z.to_nat start) xs.
Proof.
  intros Hs. unfold Array_splice.
  replace (start <? 0) with false by (symmetry; apply Z.ltb_ge; lia).
  now rewrite Z.min_l by lia.
Qed.

Lemma Array_splice_Forall {A} (P : A -> Prop) (xs : list A) (start : Z) (item : A) :
  Forall P xs -> P item ->
  Forall P (Array_splice xs start item) /\ Array_splice xs start item <> [].
Proof.
  intros Hxs Hitem. unfold Array_splice. split.
  - apply Forall_app. split; [now apply Forall_take |].
    apply Forall_cons. split; [exact Hitem | now apply Forall_drop].
  - intros Heq. apply app_eq_nil in Heq as [_ Heq]. discriminate Heq.
Qed.

(** *** Labels and URLs *)

Section ValidConfig.

Variable cfg : DomainConfig.
Hypothesis cfg_valid : valid_config cfg = true.

Variable random : RandomSource.
Hypothesis random_unit : forall i, unit_interval (random i) = true.

Lemma valid_config_inv :
  1 <= Z.of_nat (List.length (topLevelDomains cfg)) < 2 ^ 32 /\
  1 <= Z.of_nat (List.length (subDomainPrefixes cfg)) < 2 ^ 32 /\
  Forall (fun s => token (Some s)) (subDomainPrefixes cfg) /\
  1 <= min (subDomainRandomLength cfg) <= max (subDomainRandomLength cfg) /\
  max (subDomainRandomLength cfg) < 2 ^ 32.
Proof.
  pose proof cfg_valid as H. unfold valid_config in H.
  repeat (apply andb_prop in H as [H ?]).
  repeat match goal with
         | H : (_ <=? _) = true |- _ => apply Z.leb_le in H
         | H : (_ <? _) = true |- _ => apply Z.ltb_lt in H
         end.
  repeat split; try lia.
  apply Forall_forall. intros s Hs. apply is_token_spec.
  match goal with H : forallb _ _ = true |- _ => rewrite forallb_forall in H; apply H end.
  now apply list_elem_of_In.
Qed.

Lemma Array_get_in_range {A} (xs : list A) (k : Z) :
  0 <= k < Z.of_nat (List.length xs) ->
  exists x, Array_get xs k = Some x /\ In x xs.
Proof.
  intros Hk. unfold Array_get.
  replace (0 <=? k) with true by (symmetry; apply Z.leb_le; lia).
  destruct (lookup_lt_is_Some_2 xs (Z.to_nat k) ltac:(lia)) as [x Hx].
  exists x. split; [exact Hx |].
  apply list_elem_of_In. eapply list_elem_of_lookup_2. exact Hx.
Qed.

(** The prefix and the optional random string are tokens; at least two
    draws are made. *)
Lemma subdomain_parts_tokens (i : nat) :
  exists parts j,
    subdomain_parts cfg random i = (parts, j) /\
    Forall token parts /\ (1 <= List.length parts <= 2)%nat /\ (i + 2 <= j)%nat.
Proof.
  destruct valid_config_inv as (_ & Hpre & Htok & Hmin & Hmax).
  unfold subdomain_parts. unfold bind at 1.
  destruct (random_index_range random random_unit
              (Z.of_nat (List.length (subDomainPrefixes cfg))) i ltac:(lia))
    as (k & -> & Hk).
  destruct (Array_get_in_range _ k Hk) as (prefix & -> & Hin).
  assert (Hprefix : token (Some prefix)).
  { rewrite Forall_forall in Htok. apply Htok. now apply list_elem_of_In. }
  unfold bind at 1, Math_random at 1.
  destruct (Number_gt (random (S i)) (decimal 3 10)).
  - unfold bind at 1.
    destruct (random_index_range random random_unit
                (max (subDomainRandomLength cfg) - min (subDomainRandomLength cfg) + 1)
                (S (S i)) ltac:(lia)) as (k' & -> & Hk').
    unfold bind at 1.
    destruct (generateRandomString_spec random random_unit
                (k' + min (subDomainRandomLength cfg)) (S (S (S i))))
      as (s & -> & Hlen & Hall).
    unfold ret. eexists _, _. split; [reflexivity |]. repeat split.
    + apply Forall_app. split; [now apply Forall_singleton |].
      apply Forall_singleton. apply alnum_token; [| exact Hall].
      intros ->. cbn in Hlen. lia.
    + cbn. lia.
    + cbn. lia.
    + lia.
  - unfold ret. eexists _, _. split; [reflexivity |]. repeat split.
    + now apply Forall_singleton.
    + cbn. lia.
    + cbn. lia.
    + lia.
Qed.

Lemma insert_www_tokens (parts : list (option string)) (i : nat) :
  Forall token parts -> (1 <= List.length parts <= 2)%nat ->
  exists parts' j,
    insert_www cfg parts random i = (parts', j) /\
    Forall token parts' /\ parts' <> [] /\ (i <= j)%nat.
Proof.
  intros Hparts Hlen.
  assert (Hne : parts <> []) by (destruct parts; [cbn in Hlen; lia | congruence]).
  unfold insert_www.
  destruct (includeWwwAsSpecial cfg); [| unfold ret; eauto 10].
  unfold bind at 1, Math_random at 1.
  destruct (Number_lt (random i) (decimal 2 10)); [| unfold ret; eauto 10].
  unfold bind at 1.
  destruct (random_index_range random random_unit
              (Z.of_nat (List.length parts) + 1) (S i))
    as (k & -> & Hk).
  { lia. }
  unfold ret. eexists _, _. split; [reflexivity |].
  destruct (Array_splice_Forall token parts k (Some "www"%string) Hparts www_token).
  repeat split; auto.
Qed.

(** On a valid configuration the subdomain is a non-empty string over
    [[a-z0-9-]]. *)
Lemma generateRandomSubdomain_label (i : nat) :
  exists label j,
    generateRandomSubdomain cfg random i = (label, j) /\
    label <> EmptyString /\ string_forall label_char label = true.
Proof.
  unfold generateRandomSubdomain. unfold bind at 1.
  destruct (subdomain_parts_tokens i) as (parts & j & -> & Hparts & Hlen & _).
  unfold bind at 1.
  destruct (insert_www_tokens parts j Hparts Hlen) as (parts' & j' & -> & Hparts' & Hne & _).
  unfold ret. eexists _, _. split; [reflexivity |].
  now apply Array_join_tokens.
Qed.

(** On a valid configuration the URL is a scheme, a label and one of the
    top-level domains. *)
Lemma buildRedirectURL_pattern (i : nat) :
  url_pattern (topLevelDomains cfg) (fst (buildRedirectURL cfg random i)).
Proof.
  destruct valid_config_inv as (Htld & _).
  unfold buildRedirectURL. unfold bind at 1.
  destruct (generateRandomSubdomain_label i) as (label & j & -> & Hne & Hall).
  unfold bind at 1, getRandomTopLevelDomain. unfold bind at 1.
  destruct (random_index_range random random_unit
              (Z.of_nat (List.length (topLevelDomains cfg))) j ltac:(lia))
    as (k & -> & Hk).
  destruct (Array_get_in_range _ k Hk) as (tld & -> & Hin).
  unfold ret at 1. unfold bind, Math_random, ret. cbn [fst interpolate default].
  eexists _, label, tld. split; [| repeat split; eauto].
  destruct (Number_gt (random (S j)) (decimal 5 10)); auto.
Qed.

End ValidConfig.

Lemma domainConfig_valid : valid_config domainConfig = true.
Proof. reflexivity. Qed.

(** No dot is a character of a label. *)
Lemma label_no_dot (s : string) :
  string_forall label_char s = true ->
  string_forall (fun c => negb (Ascii.eqb c ".")) s = true.
Proof.
  apply string_forall_weaken. intros c Hc.
  destruct (Ascii.eqb_spec c "."); [subst c; discriminate Hc | reflexivity].
Qed.

(** C5: for every sequence of draws and the shipped configuration,
    [generateRandomSubdomain] returns a non-empty string with no ['.'] and
    no character outside [[a-z0-9-]]. *)
Theorem generateRandomSubdomain_shipped (random : RandomSource) (i : nat) :
  (forall j, unit_interval (random j) = true) ->
  let label := fst (generateRandomSubdomain domainConfig random i) in
  label <> EmptyString /\
  string_forall (fun c => negb (Ascii.eqb c ".")) label = true /\
  string_forall label_char label = true.
Proof.
  intros Hunit.
  destruct (generateRandomSubdomain_label domainConfig domainConfig_valid random Hunit i)
    as (label & j & -> & Hne & Hall).
  cbn [fst]. auto using label_no_dot.
Qed.

Lemma generateRandomSubdomain_shipped_witness :
  (forall j, unit_interval (sample_source j) = true) /\
  let label := fst (generateRandomSubdomain domainConfig sample_source 0%nat) in
  label <> EmptyString /\
  string_forall (fun c => negb (Ascii.eqb c ".")) label = true /\
  string_forall label_char label = true.
Proof.
  split; [exact sample_source_unit |].
  apply (generateRandomSubdomain_shipped sample_source 0%nat sample_source_unit).
Defined.

(** C4: for every sequence of draws, [buildRedirectURL] returns a string
    matching [^(https|http)://[a-z0-9-]+\.(TLD)$], with [TLD] one of the
    configured top-level domains. *)
Theorem buildRedirectURL_shipped (random : RandomSource) (i : nat) :
  (forall j, unit_interval (random j) = true) ->
  url_pattern (topLevelDomains domainConfig)
              (fst (buildRedirectURL domainConfig random i)).
Proof.
  intros Hunit.
  exact (buildRedirectURL_pattern domainConfig domainConfig_valid random Hunit i).
Qed.

Lemma buildRedirectURL_shipped_witness :
  (forall j, unit_interval (sample_source j) = true) /\
  url_pattern (topLevelDomains domainConfig)
              (fst (buildRedirectURL domainConfig sample_source 0%nat)).
Proof.
  split; [exact sample_source_unit |].
  apply (buildRedirectURL_shipped sample_source 0%nat sample_source_unit).
Defined.

(** ** Determinism of the generator *)

Lemma reads_ret {A} (a : A) : reads_own_draws (ret a).
Proof. intros r1 i. cbn. split; [lia | reflexivity]. Qed.

Lemma reads_Math_random : reads_own_draws Math_random.
Proof.
  intros r1 i. cbn. split; [lia |].
  intros r2 Hag. unfold Math_random. rewrite (Hag i) by lia. reflexivity.
Qed.

Lemma reads_bind {A B} (c : Rand A) (k : A -> Rand B) :
  reads_own_draws c -> (forall a, reads_own_draws (k a)) ->
  reads_own_draws (bind c k).
Proof.
  intros Hc Hk r1 i. unfold bind.
  destruct (Hc r1 i) as [Hle Hsame].
  destruct (c r1 i) as [a j] eqn:Hci. cbn [snd] in Hle, Hsame.
  destruct (Hk a r1 j) as [Hle' Hsame'].
  split; [lia |].
  intros r2 Hag.
  rewrite Hsame by (intros n Hn; apply Hag; lia).
  apply Hsame'. intros n Hn. apply Hag. lia.
Qed.

Lemma reads_if {A} (b : bool) (c1 c2 : Rand A) :
  reads_own_draws c1 -> reads_own_draws c2 ->
  reads_own_draws (if b then c1 else c2).
Proof. now destruct b. Qed.

Lemma reads_random_index (n : Z) : reads_own_draws (random_index n).
Proof.
  unfold random_index. apply reads_bind; [apply reads_Math_random |].
  intros r. apply reads_ret.
Qed.

Lemma reads_generateRandomString (length : Z) :
  reads_own_draws (generateRandomString length).
Proof.
  unfold generateRandomString. generalize EmptyString.
  induction (Z.to_nat length) as [| n IH]; intros result; cbn.
  - apply reads_ret.
  - apply reads_bind; [apply reads_random_index |]. intros k. apply IH.
Qed.

Lemma reads_subdomain_parts (cfg : DomainConfig) :
  reads_own_draws (subdomain_parts cfg).
Proof.
  unfold subdomain_parts.
  apply reads_bind; [apply reads_random_index |]. intros k.
  apply reads_bind; [apply reads_Math_random |]. intros r.
  apply reads_if; [| apply reads_ret].
  apply reads_bind; [apply reads_random_index |]. intros k'.
  apply reads_bind; [apply reads_generateRandomString |]. intros s.
  apply reads_ret.
Qed.

Lemma reads_insert_www (cfg : DomainConfig) (parts : list (option string)) :
  reads_own_draws (insert_www cfg parts).
Proof.
  unfold insert_www.
  apply reads_if; [| apply reads_ret].
  apply reads_bind; [apply reads_Math_random |]. intros r.
  apply reads_if; [| apply reads_ret].
  apply reads_bind; [apply reads_random_index |]. intros k.
  apply reads_ret.
Qed.

Lemma reads_generateRandomSubdomain (cfg : DomainConfig) :
  reads_own_draws (generateRandomSubdomain cfg).
Proof.
  unfold generateRandomSubdomain.
  apply reads_bind; [apply reads_subdomain_parts |]. intros parts.
  apply reads_bind; [apply reads_insert_www |]. intros parts'.
  apply reads_ret.
Qed.

Lemma reads_getRandomTopLevelDomain (cfg : DomainConfig) :
  reads_own_draws (getRandomTopLevelDomain cfg).
Proof.
  unfold getRandomTopLevelDomain.
  apply reads_bind; [apply reads_random_index |]. intros k. apply reads_ret.
Qed.

Lemma reads_buildRedirectURL (cfg : DomainConfig) :
  reads_own_draws (buildRedirectURL cfg).
Proof.
  unfold buildRedirectURL.
  apply reads_bind; [apply reads_generateRandomSubdomain |]. intros label.
  apply reads_bind; [apply reads_getRandomTopLevelDomain |]. intros tld.
  apply reads_bind; [apply reads_Math_random |]. intros r.
  apply reads_ret.
Qed.

(** Two runs of the generator from the same cursor, on sources that give
    the same draws as far as the first run reads them, return the same
    strings and leave the same cursor. *)
Lemma buildRedirectURL_agree (cfg : DomainConfig) (r1 r2 : RandomSource) (i : nat) :
  agree r1 r2 i (snd (buildRedirectURL cfg r1 i)) ->
  generateRandomSubdomain cfg r2 i = generateRandomSubdomain cfg r1 i /\
  buildRedirectURL cfg r2 i = buildRedirectURL cfg r1 i.
Proof.
  intros Hag. split.
  - apply reads_generateRandomSubdomain. intros k Hk. apply Hag.
    split; [lia |]. eapply Nat.lt_le_trans; [apply Hk |].
    unfold buildRedirectURL, bind at 1.
    destruct (generateRandomSubdomain cfg r1 i) as [label j]. cbn [snd].
    pose proof (reads_bind (getRandomTopLevelDomain cfg)
                  (fun topDomain =>
                     r <- Math_random ;;
                     ret ((if Number_gt r (decimal 5 10) then "https" else "http")
                            ++ "://" ++ label ++ "." ++ interpolate topDomain)%string)
                  (reads_getRandomTopLevelDomain cfg)) as Hrest.
    apply Hrest. intros tld.
    apply reads_bind; [apply reads_Math_random |]. intros r. apply reads_ret.
  - apply reads_buildRedirectURL. exact Hag.
Qed.


(** *** The generator in memory *)

Lemma elements_store_eq (xs : Page.loc) (elts : list (option string)) (m : Page.Memory) :
  Page.elements xs (Page.store xs elts m) = elts.
Proof. unfold Page.elements, Page.store. cbn. now rewrite lookup_insert_eq. Qed.

Lemma elements_store_ne (xs ys : Page.loc) (elts : list (option string)) (m : Page.Memory) :
  xs <> ys -> Page.elements ys (Page.store xs elts m) = Page.elements ys m.
Proof. intros Hne. unfold Page.elements, Page.store. cbn. now rewrite lookup_insert_ne. Qed.

Lemma store_store (xs : Page.loc) (elts1 elts2 : list (option string)) (m : Page.Memory) :
  Page.store xs elts2 (Page.store xs elts1 m) = Page.store xs elts2 m.
Proof. unfold Page.store. cbn. now rewrite insert_insert_eq. Qed.

Lemma domainConfig_store (xs : Page.loc) (elts : list (option string)) (m : Page.Memory) :
  Page.domainConfig (Page.store xs elts m) = Page.domainConfig m.
Proof. reflexivity. Qed.

Lemma Array_get_Some {A} (xs : list A) (k : Z) :
  mjoin (Array_get (Some <$> xs) k) = Array_get xs k.
Proof.
  unfold Array_get. destruct (0 <=? k); [| reflexivity].
  rewrite list_lookup_fmap. now destruct (xs !! Z.to_nat k).
Qed.

Lemma holds_elements (cfg : DomainConfig) (m : Page.Memory) :
  holds cfg m ->
  Page.elements (Page.topLevelDomains (Page.domainConfig m)) m
  = Some <$> topLevelDomains cfg /\
  Page.elements (Page.subDomainPrefixes (Page.domainConfig m)) m
  = Some <$> subDomainPrefixes cfg.
Proof. intros (Htld & Hpre & _). unfold Page.elements. now rewrite Htld, Hpre. Qed.

Ltac memory :=
  repeat first
    [ rewrite elements_store_eq
    | rewrite elements_store_ne by assumption
    | rewrite store_store
    | rewrite domainConfig_store ].

Lemma Page_generateRandomSubdomain_spec (cfg : DomainConfig) (m : Page.Memory)
    (random : RandomSource) (i : nat) :
  holds cfg m ->
  exists subDomainParts,
    Page.generateRandomSubdomain m random i
    = (fst (generateRandomSubdomain cfg random i),
       Page.store (fresh (dom (Page.arrays m))) subDomainParts m,
       snd (generateRandomSubdomain cfg random i)).
Proof.
  intros Hm. destruct (holds_elements cfg m Hm) as [_ Hprefixes].
  destruct Hm as (_ & Hpre & Hlen & Hflag).
  set (xs := fresh (dom (Page.arrays m))).
  assert (Hxs : xs <> Page.subDomainPrefixes (Page.domainConfig m)).
  { intros Heq. apply (is_fresh (dom (Page.arrays m))). fold xs. rewrite Heq.
    apply elem_of_dom. eauto. }
  unfold Page.generateRandomSubdomain, generateRandomSubdomain, subdomain_parts, insert_www.
  cbv [Page.after Page.the_domainConfig Page.Array_literal Page.draw Page.Array_length
       Page.Array_at Page.Array_push Page.Array_splice_at Page.Array_join_at Page.value
       bind ret Math_random random_index fst snd].
  fold xs. memory.
  rewrite Hprefixes, Array_get_Some, length_fmap, Hlen. cbn [app].
  destruct (Number_gt (random (S i)) (decimal 3 10)).
  - destruct (generateRandomString _ _ _) as [s j]. memory. rewrite Hflag.
    destruct (includeWwwAsSpecial cfg); [| memory; eauto].
    destruct (Number_lt (random j) (decimal 2 10)); memory; eauto.
  - memory. rewrite Hflag.
    destruct (includeWwwAsSpecial cfg); [| memory; eauto].
    destruct (Number_lt (random (S (S i))) (decimal 2 10)); memory; eauto.
Qed.

Lemma Page_getRandomTopLevelDomain_spec (cfg : DomainConfig) (m : Page.Memory)
    (random : RandomSource) (i : nat) :
  holds cfg m ->
  Page.getRandomTopLevelDomain m random i
  = (fst (getRandomTopLevelDomain cfg random i), m,
     snd (getRandomTopLevelDomain cfg random i)).
Proof.
  intros Hm. destruct (holds_elements cfg m Hm) as [Htld _].
  unfold Page.getRandomTopLevelDomain, getRandomTopLevelDomain.
  cbv [Page.after Page.the_domainConfig Page.draw Page.Array_length Page.Array_at
       bind ret Math_random random_index fst snd].
  now rewrite Htld, Array_get_Some, length_fmap.
Qed.

Lemma holds_store_fresh (cfg : DomainConfig) (m : Page.Memory) (elts : list (option string)) :
  holds cfg m -> holds cfg (Page.store (fresh (dom (Page.arrays m))) elts m).
Proof.
  intros (Htld & Hpre & Hlen & Hflag).
  assert (Hfresh : forall ys elts', Page.arrays m !! ys = Some elts' ->
                     fresh (dom (Page.arrays m)) <> ys).
  { intros ys elts' Hys Heq. apply (is_fresh (dom (Page.arrays m))). rewrite Heq.
    apply elem_of_dom. eauto. }
  unfold holds, Page.store. cbn.
  rewrite !lookup_insert_ne by eauto. auto.
Qed.

Lemma Page_buildRedirectURL_spec (cfg : DomainConfig) (m : Page.Memory)
    (random : RandomSource) (i : nat) :
  holds cfg m ->
  exists subDomainParts,
    Page.buildRedirectURL m random i
    = (fst (buildRedirectURL cfg random i),
       Page.store (fresh (dom (Page.arrays m))) subDomainParts m,
       snd (buildRedirectURL cfg random i)).
Proof.
  intros Hm.
  destruct (Page_generateRandomSubdomain_spec cfg m random i Hm) as (parts & Hsub).
  exists parts.
  unfold Page.buildRedirectURL, buildRedirectURL.
  cbv [Page.after Page.draw Page.value bind ret Math_random].
  rewrite Hsub. destruct (generateRandomSubdomain cfg random i) as [subdomainPart j].
  cbn [fst snd].
  rewrite (Page_getRandomTopLevelDomain_spec cfg) by now apply holds_store_fresh.
  destruct (getRandomTopLevelDomain cfg random j) as [topDomain j'].
  reflexivity.
Qed.

(** C9: [generateRandomSubdomain] and [buildRedirectURL], run on the
    memory of the page, are functions of the configuration that the
    memory holds and of the draws they make (draws in [0, 1), as
    [Math.random()] gives them).  Two runs from the same cursor, on
    memories that hold the same configuration and on sources that give
    the same draws as far as the first run reads them, return the same
    strings and leave the same cursor.  A run leaves the object
    [domainConfig] and every array that was there as they were (its own
    array [subDomainParts] is new), so the memory still holds the
    configuration: a second run in the same page, after the first and
    with the same draws, returns the same strings again. *)
Theorem generator_deterministic (cfg : DomainConfig) (m1 m2 : Page.Memory)
    (r1 r2 : RandomSource) (i : nat) :
  holds cfg m1 -> holds cfg m2 ->
  (forall k, unit_interval (r1 k) = true) ->
  agree r1 r2 i (snd (Page.buildRedirectURL m1 r1 i)) ->
  let '(subdomain1, _, _) := Page.generateRandomSubdomain m1 r1 i in
  let '(subdomain2, _, _) := Page.generateRandomSubdomain m2 r2 i in
  let '(url1, m1', j1) := Page.buildRedirectURL m1 r1 i in
  let '(url2, _, j2) := Page.buildRedirectURL m2 r2 i in
  let '(url3, _, j3) := Page.buildRedirectURL m1' r2 i in
  (subdomain2 = subdomain1 /\ url2 = url1 /\ j2 = j1) /\
  (holds cfg m1' /\ Page.domainConfig m1' = Page.domainConfig m1 /\
   forall xs elts, Page.arrays m1 !! xs = Some elts -> Page.arrays m1' !! xs = Some elts) /\
  (url3 = url1 /\ j3 = j1).
Proof.
  intros Hm1 Hm2 _ Hag.
  destruct (Page_generateRandomSubdomain_spec cfg m1 r1 i Hm1) as (parts1 & ->).
  destruct (Page_generateRandomSubdomain_spec cfg m2 r2 i Hm2) as (parts2 & ->).
  destruct (Page_buildRedirectURL_spec cfg m1 r1 i Hm1) as (parts1' & Hrun1).
  destruct (Page_buildRedirectURL_spec cfg m2 r2 i Hm2) as (parts2' & ->).
  rewrite Hrun1 in Hag |- *. cbn [snd] in Hag.
  pose proof (holds_store_fresh cfg m1 parts1' Hm1) as Hm1'.
  destruct (Page_buildRedirectURL_spec cfg _ r2 i Hm1') as (parts3 & ->).
  destruct (buildRedirectURL_agree cfg r1 r2 i Hag) as [-> ->].
  split; [auto |]. split; [| auto].
  split; [exact Hm1' |]. split; [reflexivity |].
  intros xs elts Hxs. unfold Page.store. cbn. rewrite lookup_insert_ne; [exact Hxs |].
  intros Heq. apply (is_fresh (dom (Page.arrays m1))). rewrite Heq.
  apply elem_of_dom. eauto.
Qed.

Lemma generator_deterministic_witness :
  let m := declared domainConfig in
  holds domainConfig m /\
  (forall k, unit_interval (sample_source k) = true) /\
  agree sample_source sample_source' 0 (snd (Page.buildRedirectURL m sample_source 0%nat)) /\
  let '(subdomain1, _, _) := Page.generateRandomSubdomain m sample_source 0%nat in
  let '(subdomain2, _, _) := Page.generateRandomSubdomain m sample_source' 0%nat in
  let '(url1, m1', j1) := Page.buildRedirectURL m sample_source 0%nat in
  let '(url2, _, j2) := Page.buildRedirectURL m sample_source' 0%nat in
  let '(url3, _, j3) := Page.buildRedirectURL m1' sample_source' 0%nat in
  (subdomain2 = subdomain1 /\ url2 = url1 /\ j2 = j1) /\
  (holds domainConfig m1' /\ Page.domainConfig m1' = Page.domainConfig m /\
   forall xs elts, Page.arrays m !! xs = Some elts -> Page.arrays m1' !! xs = Some elts) /\
  (url3 = url1 /\ j3 = j1).
Proof.
  cbv zeta.
  assert (Hm : holds domainConfig (declared domainConfig)) by (repeat split).
  assert (Hag : agree sample_source sample_source' 0
                  (snd (Page.buildRedirectURL (declared domainConfig) sample_source 0%nat))).
  { intros k Hk. unfold sample_source'.
    replace (k <? 20)%nat with true; [reflexivity |].
    symmetry. apply Nat.ltb_lt.
    destruct (Page_buildRedirectURL_spec domainConfig _ sample_source 0%nat Hm) as (parts & Hrun).
    rewrite Hrun in Hk. cbn [snd] in Hk.
    assert (Hj : snd (buildRedirectURL domainConfig sample_source 0%nat) = 11%nat)
      by (vm_compute; reflexivity).
    rewrite Hj in Hk. lia. }
  split; [exact Hm |]. split; [exact sample_source_unit |]. split; [exact Hag |].
  apply (generator_deterministic domainConfig _ _ sample_source sample_source' 0%nat
           Hm Hm sample_source_unit Hag).
Defined.

(** One run on the memory after the declaration, and a second one after
    it with the same draws: the same URL and eleven draws each; every run
    leaves its array [subDomainParts] behind, and the prefixes of the
    configuration are as they were. *)
Example two_runs :
  let m := declared domainConfig in
  let '(url1, m1, j1) := Page.buildRedirectURL m sample_source 0%nat in
  let '(url2, m2, j2) := Page.buildRedirectURL m1 sample_source 0%nat in
  (url1, j1) = ("https://www-dr4hv.demo.org"%string, 11%nat) /\ (url2, j2) = (url1, j1) /\
  map_size (Page.arrays m) = 2%nat /\ map_size (Page.arrays m2) = 4%nat /\
  Page.elements 2%positive m2 = Page.elements 2%positive m.
Proof. vm_compute. repeat split; reflexivity. Qed.

(** The memory is shared by the runs: what a script pushes to the array
    of the prefixes is there for the next run.  (The generator pushes to
    its own array only.) *)
Example memory_is_shared :
  let script :=
    Page.after Page.the_domainConfig (fun config =>
    Page.after (Page.Array_push (Page.subDomainPrefixes config) (Some "x"%string)) (fun _ =>
    Page.Array_length (Page.subDomainPrefixes config))) in
  let '(length1, m1, _) := script (declared domainConfig) sample_source 0%nat in
  let '(length2, _, _) := script m1 sample_source 0%nat in
  (length1, length2) = (22, 23).
Proof. vm_compute. reflexivity. Qed.

(** ** The insertion of ['www'] *)

Section Www.

Variable cfg : DomainConfig.
Variable random : RandomSource.
Hypothesis random_unit : forall i, unit_interval (random i) = true.

(** The parts before the insertion: the prefix alone when draw [i + 1] is
    not above 0.3, the prefix and a random string when it is. *)
Lemma subdomain_parts_shape (i : nat) :
  exists prefix : option string,
    (Number_gt (random (S i)) (decimal 3 10) = false /\
     subdomain_parts cfg random i = ([prefix], S (S i))) \/
    (Number_gt (random (S i)) (decimal 3 10) = true /\
     exists s j, subdomain_parts cfg random i = ([prefix; Some s], j) /\
                 (i + 3 <= j)%nat).
Proof.
  unfold subdomain_parts. cbv zeta.
  rewrite bind_random_index, bind_Math_random.
  eexists. destruct (Number_gt (random (S i)) (decimal 3 10)).
  - right. split; [reflexivity |].
    rewrite bind_random_index, bind_eq.
    match goal with
    | |- context [generateRandomString ?L random ?c] =>
        destruct (generateRandomString_spec random random_unit L c) as (s & -> & _)
    end.
    unfold ret. eexists _, _. split; [reflexivity | lia].
  - left. split; reflexivity.
Qed.

(** The insertion, on any list of parts. *)
Lemma insert_www_cases (subDomainParts : list (option string)) (i : nat) :
  let k := Z.of_nat (List.length subDomainParts) in
  k < 2 ^ 52 ->
  (includeWwwAsSpecial cfg = false ->
   insert_www cfg subDomainParts random i = (subDomainParts, i)) /\
  (includeWwwAsSpecial cfg = true ->
   ((1 # 5 <= Number_value (random i))%Q ->
    insert_www cfg subDomainParts random i = (subDomainParts, S i)) /\
   ((Number_value (random i) < 1 # 5)%Q ->
    exists p, 0 <= p <= k /\
      insert_www cfg subDomainParts random i
      = (take (Z.to_nat p) subDomainParts ++ Some "www"%string :: drop (Z.to_nat p) subDomainParts,
         S (S i)) /\
      forall pos, 0 <= pos <= k ->
        (inject_Z pos <= inject_Z (k + 1) * Number_value (random (S i)))%Q ->
        (inject_Z (k + 1) * Number_value (random (S i))
         <= inject_Z (pos + 1) * (1 - (1 # 2 ^ 53)))%Q ->
        p = pos)).
Proof.
  intros k Hk. unfold insert_www. split.
  - intros ->. reflexivity.
  - intros ->. rewrite bind_Math_random.
    pose proof (lt_one_fifth (random i) (random_unit i)) as Hfifth.
    split.
    + intros Hge. destruct (Number_lt (random i) (decimal 2 10)); [| reflexivity].
      exfalso. apply (Qle_not_lt _ _ Hge). now apply Hfifth.
    + intros Hlt. rewrite (proj2 Hfifth Hlt).
      rewrite bind_random_index. unfold ret. fold k.
      destruct (floor_mul_unit (random (S i)) (k + 1) (random_unit (S i)) ltac:(lia))
        as [_ Hp].
      eexists. split; [| split].
      * split; [apply Hp | ]. lia.
      * rewrite Array_splice_insert by (fold k; lia). reflexivity.
      * intros pos Hpos Hlo Hhi. apply floor_mul_cell; auto; lia.
Qed.

(** C7: in [generateRandomSubdomain], with the flag [includeWwwAsSpecial]
    off nothing is inserted; with the flag on, ['www'] is inserted exactly
    when a draw of its own is below one fifth (a draw made after the one
    that decides on the random string, which is draw [i0 + 1]), at the
    position [p] that the next draw [v] selects among the [k + 1]
    insertion points [0..k] of the [k] parts (before the first, between
    two, after the last): [p = pos] for every [v] from [pos / (k + 1)] to
    [(pos + 1) / (k + 1)], less the rounding margin [2^-53] of the
    product; the parts are joined by ['-'] after that.  So, for draws
    uniform in [0, 1), the insertion has probability 0.2 and the [k + 1]
    positions have the same probability up to [2^-53]. *)
Theorem www_insertion (i0 : nat) :
  let '(parts, i) := subdomain_parts cfg random i0 in
  let k := Z.of_nat (List.length parts) in
  (1 <= k <= 2 /\ (S i0 < i)%nat /\
   (k = 2 <-> Number_gt (random (S i0)) (decimal 3 10) = true)) /\
  (includeWwwAsSpecial cfg = false ->
   generateRandomSubdomain cfg random i0 = (Array_join "-" parts, i)) /\
  (includeWwwAsSpecial cfg = true ->
   ((1 # 5 <= Number_value (random i))%Q ->
    generateRandomSubdomain cfg random i0 = (Array_join "-" parts, S i)) /\
   ((Number_value (random i) < 1 # 5)%Q ->
    exists p, 0 <= p <= k /\
      generateRandomSubdomain cfg random i0
      = (Array_join "-" (take (Z.to_nat p) parts ++ Some "www"%string :: drop (Z.to_nat p) parts),
         S (S i)) /\
      forall pos, 0 <= pos <= k ->
        (inject_Z pos <= inject_Z (k + 1) * Number_value (random (S i)))%Q ->
        (inject_Z (k + 1) * Number_value (random (S i))
         <= inject_Z (pos + 1) * (1 - (1 # 2 ^ 53)))%Q ->
        p = pos)).
Proof.
  unfold generateRandomSubdomain. rewrite bind_eq.
  destruct (subdomain_parts_shape i0) as [prefix [[Hgt ->] | [Hgt (s & j & -> & Hj)]]];
    cbv zeta; rewrite bind_eq.
  - pose proof (insert_www_cases [prefix] (S (S i0)) ltac:(cbn; lia)) as [Hoff Hon].
    split; [| split].
    + cbn [List.length]. repeat split; try lia. rewrite Hgt. discriminate.
    + intros Hflag. now rewrite (Hoff Hflag).
    + intros Hflag. destruct (Hon Hflag) as [Hno Hyes]. split.
      * intros Hge. now rewrite (Hno Hge).
      * intros Hlt. destruct (Hyes Hlt) as (p & Hp & -> & Hcell).
        exists p. auto.
  - pose proof (insert_www_cases [prefix; Some s] j ltac:(cbn; lia)) as [Hoff Hon].
    split; [| split].
    + cbn [List.length]. repeat split; try lia. intros _. exact Hgt.
    + intros Hflag. now rewrite (Hoff Hflag).
    + intros Hflag. destruct (Hon Hflag) as [Hno Hyes]. split.
      * intros Hge. now rewrite (Hno Hge).
      * intros Hlt. destruct (Hyes Hlt) as (p & Hp & -> & Hcell).
        exists p. auto.
Qed.

End Www.

Lemma insertion_source_unit (i : nat) : unit_interval (insertion_source i) = true.
Proof. do 8 (destruct i as [| i]; [reflexivity |]). destruct i; reflexivity. Qed.

Lemma www_insertion_witness :
  (forall i, unit_interval (insertion_source i) = true) /\
  subdomain_parts domainConfig insertion_source 0%nat
  = ([Some "blog"; Some "x7q"]%string, 6%nat) /\
  includeWwwAsSpecial domainConfig = true /\
  (Number_value (insertion_source 6%nat) < 1 # 5)%Q /\
  generateRandomSubdomain domainConfig insertion_source 0%nat
  = ("blog-www-x7q"%string, 8%nat).
Proof.
  assert (Hparts : subdomain_parts domainConfig insertion_source 0%nat
                   = ([Some "blog"; Some "x7q"]%string, 6%nat))
    by (vm_compute; reflexivity).
  assert (Hlt : (Number_value (insertion_source 6%nat) < 1 # 5)%Q)
    by (vm_compute; reflexivity).
  split; [exact insertion_source_unit |].
  split; [exact Hparts |]. split; [reflexivity |]. split; [exact Hlt |].
  pose proof (www_insertion domainConfig insertion_source insertion_source_unit 0%nat) as H.
  rewrite Hparts in H. cbv zeta in H.
  destruct H as (_ & _ & Hon).
  destruct (Hon eq_refl) as [_ Hyes].
  destruct (Hyes Hlt) as (p & _ & Heq & Hcell).
  rewrite Heq.
  rewrite (Hcell 1); [reflexivity | cbn; lia | |].
  - vm_compute. discriminate.
  - vm_compute. discriminate.
Defined.

(** The three insertion points of two parts, each reached: with the
    decision draw 0.1, the position draws 0.1, 0.5 and 0.9 give the
    positions 0, 1 and 2. *)
Example www_positions :
  let parts := [Some "blog"; Some "x7q"]%string in
  let source v : RandomSource := fun i => if (i =? 0)%nat then decimal 1 10 else v in
  map (fun v => Array_join "-" (fst (insert_www domainConfig parts (source v) 0%nat)))
      [decimal 1 10; decimal 5 10; decimal 9 10]
  = ["www-blog-x7q"; "blog-www-x7q"; "blog-x7q-www"]%string.
Proof. vm_compute. reflexivity. Qed.

(** ** The redirect *)

Section Redirect_facts.

Variable cfg : DomainConfig.
Variable location_replace : string -> option string.

(** [performRedirect] logs the URL, calls [location.replace] once, and
    logs the error when the call throws; storage and timers are as before. *)
Lemma performRedirect_spec (w : Browser) (random : RandomSource) (i : nat) :
  let url := fst (buildRedirectURL cfg random i) in
  let w' := fst (performRedirect cfg location_replace w random i) in
  snd (performRedirect cfg location_replace w random i) = snd (buildRedirectURL cfg random i) /\
  localStorage w' = localStorage w /\ timers w' = timers w /\
  match location_replace url with
  | None =>
      location w' = Some url /\
      events w' = events w ++ [ConsoleLog url; LocationReplace url]
  | Some error =>
      location w' = location w /\
      events w' = events w ++ [ConsoleLog url; LocationReplace url; ConsoleError error]
  end.
Proof.
  unfold performRedirect, bind.
  destruct (buildRedirectURL cfg random i) as [url j]. cbn [fst snd].
  destruct (location_replace url) as [error |]; cbn;
    rewrite <- !app_assoc; auto.
Qed.

(** The blocked branch: nothing but the warning. *)
Lemma secureRedirect_blocked_eq (w : Browser) (random : RandomSource) (i : nat) :
  Number_lt (parseInt (or_else (getItem storageKey w) "0")) (Number_of_Z maxRedirects) = false ->
  secureRedirect cfg location_replace w random i = (emit (ConsoleWarn maxRedirects) w, i).
Proof. intros Hlt. unfold secureRedirect. rewrite Hlt. reflexivity. Qed.

(** The allowed branch: the counter is written, the timer set, and
    [performRedirect] runs last. *)
Lemma secureRedirect_allowed_eq (w : Browser) (random : RandomSource) (i : nat) :
  let count := parseInt (or_else (getItem storageKey w) "0") in
  Number_lt count (Number_of_Z maxRedirects) = true ->
  secureRedirect cfg location_replace w random i
  = performRedirect cfg location_replace
      (setTimeout 10000
         (setItem storageKey (Number_toString (Number_add count (Number_of_Z 1))) w))
      random i.
Proof. intros count Hlt. unfold secureRedirect. fold count. rewrite Hlt. reflexivity. Qed.

(** C8: when the call of [location.replace] throws, the error is caught
    and logged and nothing else happens: [performRedirect] returns after
    one call of [location.replace], the browser stays where it was, and
    a page load whose redirect was allowed ends with the logged error. *)
Theorem navigation_error_swallowed (w : Browser) (random : RandomSource) (i : nat)
    (error : string) :
  let url := fst (buildRedirectURL cfg random i) in
  location_replace url = Some error ->
  (let w' := fst (performRedirect cfg location_replace w random i) in
   events w' = events w ++ [ConsoleLog url; LocationReplace url; ConsoleError error] /\
   location w' = location w /\
   localStorage w' = localStorage w /\ timers w' = timers w) /\
  (let count := parseInt (or_else (getItem storageKey w) "0") in
   Number_lt count (Number_of_Z maxRedirects) = true ->
   let w' := fst (secureRedirect cfg location_replace w random i) in
   events w' = events w ++
     [SetItem storageKey (Number_toString (Number_add count (Number_of_Z 1)));
      SetTimeout 10000; ConsoleLog url; LocationReplace url; ConsoleError error] /\
   location w' = location w /\ redirects w' = redirects w ++ [url]).
Proof.
  intros url Hthrow. split.
  - pose proof (performRedirect_spec w random i) as H. cbn zeta in H.
    fold url in H. rewrite Hthrow in H. cbv beta iota in H.
    cbv zeta. tauto.
  - intros count Hlt. cbn zeta.
    rewrite secureRedirect_allowed_eq by exact Hlt. fold count.
    set (w1 := setTimeout 10000 _).
    pose proof (performRedirect_spec w1 random i) as H. cbn zeta in H.
    fold url in H. rewrite Hthrow in H. cbv beta iota in H.
    destruct H as (_ & _ & _ & Hloc & Hev).
    split; [| split].
    + rewrite Hev. unfold w1. cbn. rewrite <- !app_assoc. reflexivity.
    + rewrite Hloc. reflexivity.
    + unfold redirects. rewrite Hev. unfold w1. cbn.
      rewrite <- !app_assoc, !omap_app. reflexivity.
Qed.

(** C10: in the blocked branch (the count read is not below the maximum,
    which includes NaN) the load leaves [localStorage] as it was, sets no
    timer, writes and removes nothing, calls [location.replace] not at all
    and makes no draw; the warning is all that happens. *)
Theorem secureRedirect_blocked_frame (w : Browser) (random : RandomSource) (i : nat) :
  Number_lt (parseInt (or_else (getItem storageKey w) "0")) (Number_of_Z maxRedirects) = false ->
  let w' := fst (secureRedirect cfg location_replace w random i) in
  localStorage w' = localStorage w /\
  timers w' = timers w /\
  location w' = location w /\
  events w' = events w ++ [ConsoleWarn maxRedirects] /\
  redirects w' = redirects w /\
  snd (secureRedirect cfg location_replace w random i) = i.
Proof.
  intros Hlt. cbn zeta. rewrite secureRedirect_blocked_eq by exact Hlt.
  cbn. repeat split.
  unfold redirects. cbn. rewrite omap_app. cbn. now rewrite app_nil_r.
Qed.

End Redirect_facts.

(** A counter that does not start with a decimal integer reads as NaN,
    and NaN is not below the maximum. *)
Lemma NaN_not_below (x : Number) : Number_lt NaN x = false.
Proof. reflexivity. Qed.

Lemma secureRedirect_blocked_frame_witness :
  Number_lt (parseInt (or_else (getItem storageKey (browser_with "abc")) "0"))
            (Number_of_Z maxRedirects) = false /\
  let w := browser_with "abc" in
  let w' := fst (secureRedirect domainConfig (fun _ => None) w sample_source 0%nat) in
  localStorage w' = localStorage w /\
  timers w' = timers w /\
  location w' = location w /\
  events w' = events w ++ [ConsoleWarn maxRedirects] /\
  redirects w' = redirects w /\
  snd (secureRedirect domainConfig (fun _ => None) w sample_source 0%nat) = 0%nat.
Proof.
  split; [reflexivity |].
  apply (secureRedirect_blocked_frame domainConfig (fun _ => None)
           (browser_with "abc") sample_source 0%nat).
  reflexivity.
Defined.

Lemma navigation_error_swallowed_witness :
  let location_replace := fun _ : string => Some "SyntaxError"%string in
  let w := fresh_browser in
  let url := fst (buildRedirectURL domainConfig sample_source 0%nat) in
  location_replace url = Some "SyntaxError"%string /\
  (let w' := fst (performRedirect domainConfig location_replace w sample_source 0%nat) in
   events w' = events w ++ [ConsoleLog url; LocationReplace url; ConsoleError "SyntaxError"] /\
   location w' = location w /\
   localStorage w' = localStorage w /\ timers w' = timers w) /\
  (let count := parseInt (or_else (getItem storageKey w) "0") in
   Number_lt count (Number_of_Z maxRedirects) = true ->
   let w' := fst (secureRedirect domainConfig location_replace w sample_source 0%nat) in
   events w' = events w ++
     [SetItem storageKey (Number_toString (Number_add count (Number_of_Z 1)));
      SetTimeout 10000; ConsoleLog url; LocationReplace url; ConsoleError "SyntaxError"] /\
   location w' = location w /\ redirects w' = redirects w ++ [url]).
Proof.
  cbn zeta. split; [reflexivity |].
  apply (navigation_error_swallowed domainConfig (fun _ => Some "SyntaxError"%string)
           fresh_browser sample_source 0%nat "SyntaxError"%string).
  reflexivity.
Defined.

(** ** The counter *)

Lemma SFeqb_zero_inv (x : Number) (s : bool) :
  SFeqb x (S754_zero s) = true -> exists s', x = S754_zero s'.
Proof.
  destruct x as [s' | s' | | s' m e]; cbn; try discriminate; eauto.
  - destruct s'; cbn; discriminate.
  - destruct s'; cbn; discriminate.
Qed.

Lemma SFeqb_finite_inv (x : Number) (m : positive) (e : Z) :
  SFeqb x (S754_finite false m e) = true -> x = S754_finite false m e.
Proof.
  destruct x as [s' | s' | | s' m' e']; cbn; try discriminate.
  - destruct s'; cbn; discriminate.
  - destruct s'; [discriminate |].
    destruct (Z.compare_spec e' e) as [-> | |]; try discriminate.
    change (Pos.compare_cont Eq m' m) with (Pos.compare m' m).
    destruct (Pos.compare_spec m' m) as [-> | |]; try discriminate.
    reflexivity.
Qed.

(** The Numbers that read as 0, 1, 2 or 3. *)
Lemma in_range_cases (x : Number) (z : Z) :
  0 <= z <= maxRedirects -> SFeqb x (Number_of_Z z) = true ->
  (z = 0 /\ exists s, x = S754_zero s) \/
  (1 <= z <= 3 /\ x = Number_of_Z z).
Proof.
  unfold maxRedirects. intros Hz Heq.
  assert (Hcases : z = 0 \/ z = 1 \/ z = 2 \/ z = 3) by lia.
  destruct Hcases as [-> | [-> | [-> | ->]]].
  - left. split; [reflexivity |]. eapply SFeqb_zero_inv. exact Heq.
  - right. split; [lia |]. apply SFeqb_finite_inv. exact Heq.
  - right. split; [lia |]. apply SFeqb_finite_inv. exact Heq.
  - right. split; [lia |]. apply SFeqb_finite_inv. exact Heq.
Qed.

Lemma or_else_nonempty (s fallback : string) :
  s <> EmptyString -> or_else (Some s) fallback = s.
Proof. destruct s; [congruence | reflexivity]. Qed.

Section Counter.

Variable cfg : DomainConfig.
Variable location_replace : string -> option string.

Abbreviation load w random i := (fst (secureRedirect cfg location_replace w random i)).

Lemma performRedirect_getItem (key : string) (w : Browser) (random : RandomSource) (i : nat) :
  getItem key (fst (performRedirect cfg location_replace w random i)) = getItem key w.
Proof.
  unfold getItem.
  destruct (performRedirect_spec cfg location_replace w random i) as (_ & -> & _).
  reflexivity.
Qed.

(** What an allowed load does, for a count below the maximum. *)
Lemma load_allowed (w : Browser) (random : RandomSource) (i : nat) :
  let count := parseInt (or_else (getItem storageKey w) "0") in
  let url := fst (buildRedirectURL cfg random i) in
  Number_lt count (Number_of_Z maxRedirects) = true ->
  getItem storageKey (load w random i)
  = Some (Number_toString (Number_add count (Number_of_Z 1))) /\
  redirects (load w random i) = redirects w ++ [url] /\
  timers (load w random i) = timers w ++ [10000] /\
  (location_replace url = None -> location (load w random i) = Some url).
Proof.
  intros count url Hlt. rewrite secureRedirect_allowed_eq by exact Hlt. fold count.
  set (w1 := setTimeout 10000 _).
  pose proof (performRedirect_spec cfg location_replace w1 random i) as H.
  cbn zeta in H. fold url in H. destruct H as (_ & Hst & Htm & H).
  split; [| split; [| split]].
  - rewrite performRedirect_getItem. unfold w1, getItem. cbn.
    apply lookup_insert_eq.
  - unfold redirects.
    destruct (location_replace url); destruct H as [_ ->];
      unfold w1; cbn; rewrite <- !app_assoc, !omap_app; reflexivity.
  - rewrite Htm. reflexivity.
  - intros Hnav. rewrite Hnav in H. apply H.
Qed.

(** What a blocked load leaves alone. *)
Lemma load_blocked (w : Browser) (random : RandomSource) (i : nat) :
  Number_lt (parseInt (or_else (getItem storageKey w) "0")) (Number_of_Z maxRedirects) = false ->
  load w random i = emit (ConsoleWarn maxRedirects) w.
Proof. intros Hlt. now rewrite secureRedirect_blocked_eq. Qed.

Lemma redirects_emit_warn (w : Browser) (limit : Z) :
  redirects (emit (ConsoleWarn limit) w) = redirects w.
Proof. unfold redirects. cbn. rewrite omap_app. cbn. apply app_nil_r. Qed.

(** C1, as the code has it: a missing counter, or an empty one, counts
    as 0, so that the counter becomes ["1"] and [location.replace] is
    called with the URL built; a stored value without a leading decimal
    integer, such as ["abc"], reads as NaN, and the load is blocked with
    only the warning. *)
Theorem secureRedirect_default_count (w : Browser) (random : RandomSource) (i : nat) :
  let stored := getItem storageKey w in
  let url := fst (buildRedirectURL cfg random i) in
  (stored = None \/ stored = Some EmptyString ->
   getItem storageKey (load w random i) = Some "1"%string /\
   redirects (load w random i) = redirects w ++ [url] /\
   (location_replace url = None -> location (load w random i) = Some url)) /\
  (forall s, stored = Some s -> s <> EmptyString -> parseInt s = NaN ->
   load w random i = emit (ConsoleWarn maxRedirects) w).
Proof.
  cbn zeta. split.
  - intros Hstored.
    assert (Hor : or_else (getItem storageKey w) "0" = "0"%string)
      by (destruct Hstored as [-> | ->]; reflexivity).
    pose proof (load_allowed w random i) as H. cbn zeta in H.
    rewrite Hor in H. destruct (H eq_refl) as (Hget & Hred & _ & Hloc).
    auto.
  - intros s Hs Hne Hnan. apply load_blocked.
    rewrite Hs, or_else_nonempty, Hnan by exact Hne. reflexivity.
Qed.

(** One load moves the counter up by one, up to 3, with one redirect
    while there is budget. *)
Lemma load_stored_count (w : Browser) (c : Z) (random : RandomSource) (i : nat) :
  stored_count w c ->
  stored_count (load w random i) (Z.min (c + 1) 3) /\
  List.length (redirects (load w random i))
  = (List.length (redirects w) + Z.to_nat (Z.min (c + 1) 3 - c))%nat.
Proof.
  intros [[-> Hget] | [Hc Hget]].
  - pose proof (load_allowed w random i) as H. cbn zeta in H. rewrite Hget in H.
    destruct (H eq_refl) as (Hget' & Hred & _). split.
    + right. split; [lia |]. exact Hget'.
    + rewrite Hred, length_app. reflexivity.
  - assert (Hcases : c = 1 \/ c = 2 \/ c = 3) by lia.
    destruct Hcases as [-> | [-> | ->]].
    + pose proof (load_allowed w random i) as H. cbn zeta in H. rewrite Hget in H.
      destruct (H eq_refl) as (Hget' & Hred & _). split.
      * right. split; [lia |]. exact Hget'.
      * rewrite Hred, length_app. reflexivity.
    + pose proof (load_allowed w random i) as H. cbn zeta in H. rewrite Hget in H.
      destruct (H eq_refl) as (Hget' & Hred & _). split.
      * right. split; [lia |]. exact Hget'.
      * rewrite Hred, length_app. reflexivity.
    + rewrite load_blocked by (rewrite Hget; reflexivity). split.
      * right. split; [lia |]. exact Hget.
      * rewrite redirects_emit_warn. cbn. lia.
Qed.

Lemma page_loads_stored_count (loads : list (RandomSource * nat)) (w : Browser) (c : Z) :
  0 <= c <= 3 -> stored_count w c ->
  let w' := page_loads cfg location_replace loads w in
  let c' := Z.min (c + Z.of_nat (List.length loads)) 3 in
  stored_count w' c' /\
  List.length (redirects w') = (List.length (redirects w) + Z.to_nat (c' - c))%nat.
Proof.
  revert w c. induction loads as [| [random i] loads IH]; intros w c Hc Hst; cbn zeta.
  - cbn [List.length page_loads fold_left].
    replace (Z.min (c + Z.of_nat 0) 3) with c by lia.
    split; [exact Hst |]. replace (c - c) with 0 by lia. cbn. lia.
  - cbn [page_loads fold_left].
    destruct (load_stored_count w c random i Hst) as [Hst1 Hlen1].
    destruct (IH (load w random i) (Z.min (c + 1) 3) ltac:(lia) Hst1) as [Hst2 Hlen2].
    unfold page_loads in Hst2, Hlen2.
    replace (Z.min (c + Z.of_nat (List.length ((random, i) :: loads))) 3)
      with (Z.min (Z.min (c + 1) 3 + Z.of_nat (List.length loads)) 3)
      by (cbn [List.length]; lia).
    split; [exact Hst2 |].
    rewrite Hlen2, Hlen1. lia.
Qed.

(** C2: after [N >= 1] consecutive page loads that start with no counter
    stored, the counter stored is [min(N, 3)], and so many redirects have
    been made; from the third load on, one more load redirects nowhere and
    keeps the counter. *)
Theorem counter_after_loads (loads : list (RandomSource * nat)) (w : Browser) :
  let N := Z.of_nat (List.length loads) in
  let w' := page_loads cfg location_replace loads w in
  1 <= N -> getItem storageKey w = None ->
  getItem storageKey w' = Some (digits_of (Z.min N 3)) /\
  List.length (redirects w') = (List.length (redirects w) + Z.to_nat (Z.min N 3))%nat /\
  (3 <= N -> forall random i,
     redirects (load w' random i) = redirects w' /\
     location (load w' random i) = location w' /\
     localStorage (load w' random i) = localStorage w').
Proof.
  intros N w' HN Hget.
  destruct (page_loads_stored_count loads w 0 ltac:(lia) (or_introl (conj eq_refl Hget)))
    as [Hst Hlen].
  cbn zeta in Hst, Hlen. fold N w' in Hst, Hlen.
  replace (0 + N) with N in Hst, Hlen by lia.
  replace (Z.min N 3 - 0) with (Z.min N 3) in Hlen by lia.
  destruct Hst as [[H0 _] | [_ Hget']]; [lia |].
  split; [exact Hget' | split; [exact Hlen |]].
  intros H3 random i.
  replace (Z.min N 3) with 3 in Hget' by lia.
  rewrite load_blocked by (rewrite Hget'; reflexivity).
  rewrite redirects_emit_warn. auto.
Qed.

(** The invariant is kept by a page load. *)
Lemma load_in_range (w : Browser) (random : RandomSource) (i : nat) :
  counter_in_range w -> counter_in_range (load w random i).
Proof.
  intros Hin.
  assert (Hwritten : forall x, In x [Number_of_Z 1; Number_of_Z 2; Number_of_Z 3] ->
            forall s, Some (Number_toString x) = Some s ->
            exists z, 0 <= z <= maxRedirects /\ SFeqb (parseInt s) (Number_of_Z z) = true).
  { intros x Hx s [= <-]. cbn in Hx.
    destruct Hx as [<- | [<- | [<- | []]]];
      [exists 1 | exists 2 | exists 3]; (split; [unfold maxRedirects; lia | reflexivity]). }
  destruct (getItem storageKey w) as [s |] eqn:Hget.
  - destruct (Hin s Hget) as (z & Hz & Heq).
    assert (Hne : s <> EmptyString) by (intros ->; discriminate Heq).
    destruct (in_range_cases _ z Hz Heq) as [[-> [sg Hx]] | [Hz1 Hx]].
    + pose proof (load_allowed w random i) as H. cbn zeta in H.
      rewrite Hget, or_else_nonempty, Hx in H by exact Hne.
      destruct (H eq_refl) as (Hget' & _).
      intros s' Hs'. rewrite Hget' in Hs'.
      apply (Hwritten (Number_of_Z 1)); [cbn; auto |].
      rewrite <- Hs'. destruct sg; reflexivity.
    + assert (Hcases : z = 1 \/ z = 2 \/ z = 3) by lia.
      destruct Hcases as [-> | [-> | ->]].
      * pose proof (load_allowed w random i) as H. cbn zeta in H.
        rewrite Hget, or_else_nonempty, Hx in H by exact Hne.
        destruct (H eq_refl) as (Hget' & _).
        intros s' Hs'. rewrite Hget' in Hs'.
        apply (Hwritten (Number_of_Z 2)); [cbn; auto |].
        rewrite <- Hs'. reflexivity.
      * pose proof (load_allowed w random i) as H. cbn zeta in H.
        rewrite Hget, or_else_nonempty, Hx in H by exact Hne.
        destruct (H eq_refl) as (Hget' & _).
        intros s' Hs'. rewrite Hget' in Hs'.
        apply (Hwritten (Number_of_Z 3)); [cbn; auto |].
        rewrite <- Hs'. reflexivity.
      * rewrite load_blocked
          by (rewrite Hget, or_else_nonempty, Hx by exact Hne; reflexivity).
        intros s' Hs'. unfold getItem in Hs', Hget. cbn in Hs'.
        rewrite Hget in Hs'. injection Hs' as <-. eauto.
  - pose proof (load_allowed w random i) as H. cbn zeta in H. rewrite Hget in H.
    destruct (H eq_refl) as (Hget' & _).
    intros s' Hs'. rewrite Hget' in Hs'.
    apply (Hwritten (Number_of_Z 1)); [cbn; auto |].
    rewrite <- Hs'. reflexivity.
Qed.

(** A timer that fires removes the counter. *)
Lemma fire_timer_getItem (w : Browser) :
  timers w <> [] -> getItem storageKey (fire_timer w) = None.
Proof.
  unfold fire_timer. destruct (timers w); [congruence |].
  intros _. unfold getItem. cbn. apply lookup_delete_eq.
Qed.

Lemma step_in_range (w w' : Browser) :
  counter_in_range w -> step cfg location_replace w w' -> counter_in_range w'.
Proof.
  intros Hin Hstep. destruct Hstep as [w0 random i | w0 Htimers | w0].
  - now apply load_in_range.
  - intros s Hs. rewrite fire_timer_getItem in Hs by exact Htimers. discriminate Hs.
  - exact Hin.
Qed.

(** At the maximum a load is blocked. *)
Lemma load_at_max (w : Browser) (random : RandomSource) (i : nat) :
  counter_at_max w -> load w random i = emit (ConsoleWarn maxRedirects) w.
Proof.
  intros (s & Hget & Heq).
  assert (Hne : s <> EmptyString) by (intros ->; discriminate Heq).
  apply SFeqb_finite_inv in Heq.
  apply load_blocked. rewrite Hget, or_else_nonempty, Heq by exact Hne. reflexivity.
Qed.

(** C3: from a state whose stored counter is in [[0, maxRedirects]], the
    counter stays in that range along every execution of the redirector
    (page loads, timers, and the page left, in any order); and in a state
    reached where
    the counter is at [maxRedirects], a step either redirects nowhere and
    leaves the counter at the maximum, or is the timer that removes the
    counter. *)
Theorem counter_invariant (w w' : Browser) :
  counter_in_range w -> rtc (step cfg location_replace) w w' ->
  counter_in_range w' /\
  (counter_at_max w' -> forall w'', step cfg location_replace w' w'' ->
     (counter_at_max w'' /\ redirects w'' = redirects w' /\ location w'' = location w') \/
     (getItem storageKey w'' = None /\ redirects w'' = redirects w')).
Proof.
  intros Hin Hsteps.
  assert (Hin' : counter_in_range w').
  { induction Hsteps as [| x y z Hxy _ IH]; [exact Hin |].
    apply IH. eapply step_in_range; eassumption. }
  split; [exact Hin' |].
  intros Hmax w'' Hstep. destruct Hstep as [w0 random i | w0 Htimers | w0].
  - left. rewrite load_at_max by exact Hmax.
    rewrite redirects_emit_warn. repeat split. exact Hmax.
  - right. split; [now apply fire_timer_getItem |].
    unfold fire_timer. destruct (timers w0); [congruence |].
    unfold redirects. cbn. rewrite omap_app. cbn. apply app_nil_r.
  - left. repeat split. exact Hmax.
Qed.

End Counter.

Lemma secureRedirect_default_count_witness :
  let w := fresh_browser in
  let url := fst (buildRedirectURL domainConfig sample_source 0%nat) in
  let w' := fst (secureRedirect domainConfig (fun _ => None) w sample_source 0%nat) in
  (getItem storageKey w = None \/ getItem storageKey w = Some EmptyString) /\
  getItem storageKey w' = Some "1"%string /\
  redirects w' = redirects w ++ [url] /\
  location w' = Some url.
Proof.
  cbn zeta.
  destruct (secureRedirect_default_count domainConfig (fun _ => None)
              fresh_browser sample_source 0%nat) as [Hmissing _].
  cbn zeta in Hmissing.
  assert (Hnone : getItem storageKey fresh_browser = None
                  \/ getItem storageKey fresh_browser = Some EmptyString)
    by (left; reflexivity).
  destruct (Hmissing Hnone) as (Hget & Hred & Hloc).
  split; [exact Hnone |]. split; [exact Hget |]. split; [exact Hred |].
  apply Hloc. reflexivity.
Defined.

(** The counter ["abc"] is not read as 0: the load is blocked, the stored
    value stays, and there is no redirect. *)
Lemma non_numeric_counter_blocks :
  let w := browser_with "abc" in
  let w' := fst (secureRedirect domainConfig (fun _ => None) w sample_source 0%nat) in
  parseInt "abc" = NaN /\
  getItem storageKey w' = Some "abc"%string /\
  redirects w' = [] /\ location w' = None /\
  ~ (getItem storageKey w' = Some "1"%string /\ redirects w' <> []).
Proof.
  cbn zeta.
  assert (Hload : fst (secureRedirect domainConfig (fun _ => None)
                         (browser_with "abc") sample_source 0%nat)
                  = emit (ConsoleWarn maxRedirects) (browser_with "abc"))
    by reflexivity.
  rewrite Hload. repeat split.
  intros [Hget _]. discriminate Hget.
Qed.

Lemma counter_after_loads_witness :
  let loads := [(sample_source, 0%nat); (sample_source, 3%nat);
                (sample_source', 0%nat); (sample_source, 7%nat)] in
  let w := fresh_browser in
  let N := Z.of_nat (List.length loads) in
  let w' := page_loads domainConfig (fun _ => None) loads w in
  (1 <= N /\ getItem storageKey w = None) /\
  getItem storageKey w' = Some (digits_of (Z.min N 3)) /\
  List.length (redirects w') = (List.length (redirects w) + Z.to_nat (Z.min N 3))%nat /\
  (3 <= N -> forall random i,
     redirects (fst (secureRedirect domainConfig (fun _ => None) w' random i)) = redirects w' /\
     location (fst (secureRedirect domainConfig (fun _ => None) w' random i)) = location w' /\
     localStorage (fst (secureRedirect domainConfig (fun _ => None) w' random i))
     = localStorage w').
Proof.
  cbn zeta. split; [split; [cbn; lia | reflexivity] |].
  apply (counter_after_loads domainConfig (fun _ => None)
           [(sample_source, 0%nat); (sample_source, 3%nat);
            (sample_source', 0%nat); (sample_source, 7%nat)] fresh_browser).
  - cbn. lia.
  - reflexivity.
Defined.

Lemma browser_with_in_range : counter_in_range (browser_with "2").
Proof.
  intros s Hs. exists 2. split; [unfold maxRedirects; lia |].
  assert (Hget : getItem storageKey (browser_with "2") = Some "2"%string) by reflexivity.
  rewrite Hget in Hs. injection Hs as <-. reflexivity.
Qed.

Lemma counter_invariant_witness :
  let w := browser_with "2" in
  let w' := fst (secureRedirect domainConfig (fun _ => None) w sample_source 0%nat) in
  (counter_in_range w /\ rtc (step domainConfig (fun _ => None)) w w') /\
  counter_in_range w' /\
  (counter_at_max w' -> forall w'', step domainConfig (fun _ => None) w' w'' ->
     (counter_at_max w'' /\ redirects w'' = redirects w' /\ location w'' = location w') \/
     (getItem storageKey w'' = None /\ redirects w'' = redirects w')).
Proof.
  cbn zeta.
  assert (Hsteps : rtc (step domainConfig (fun _ => None)) (browser_with "2")
                     (fst (secureRedirect domainConfig (fun _ => None)
                             (browser_with "2") sample_source 0%nat)))
    by (apply rtc_once, step_load).
  split; [split; [exact browser_with_in_range | exact Hsteps] |].
  apply (counter_invariant domainConfig (fun _ => None) (browser_with "2") _
           browser_with_in_range Hsteps).
Defined.

(** *** The scenarios of a single load *)

(** Nothing stored: the counter becomes ["1"], the timer is set, and the
    browser is sent to the URL built. *)
Example load_fresh :
  let w' := fst (secureRedirect domainConfig (fun _ => None) fresh_browser sample_source 0%nat) in
  getItem storageKey w' = Some "1"%string /\
  timers w' = [10000] /\
  location w' = Some "https://www-dr4hv.demo.org"%string /\
  events w' = [SetItem storageKey "1"; SetTimeout 10000;
               ConsoleLog "https://www-dr4hv.demo.org";
               LocationReplace "https://www-dr4hv.demo.org"].
Proof. vm_compute. repeat split; reflexivity. Qed.

(** ["2"] stored: one more redirect, and the counter becomes ["3"]. *)
Example load_at_two :
  let w' := fst (secureRedirect domainConfig (fun _ => None) (browser_with "2") sample_source 0%nat) in
  getItem storageKey w' = Some "3"%string /\
  redirects w' = ["https://www-dr4hv.demo.org"%string].
Proof. vm_compute. split; reflexivity. Qed.

(** ["3"] stored: the warning, and nothing else. *)
Example load_at_three :
  fst (secureRedirect domainConfig (fun _ => None) (browser_with "3") sample_source 0%nat)
  = emit (ConsoleWarn 3) (browser_with "3").
Proof. reflexivity. Qed.

(** Four loads set three timers; when the first of them fires, the
    counter is gone and the next load counts from one again. *)
Example load_after_timer :
  let loads := [(sample_source, 0%nat); (sample_source, 3%nat);
                (sample_source', 0%nat); (sample_source, 7%nat)] in
  let w4 := page_loads domainConfig (fun _ => None) loads fresh_browser in
  let w5 := fire_timer w4 in
  let w6 := fst (secureRedirect domainConfig (fun _ => None) w5 sample_source 0%nat) in
  getItem storageKey w4 = Some "3"%string /\ timers w4 = [10000; 10000; 10000] /\
  getItem storageKey w5 = None /\ timers w5 = [10000; 10000] /\
  getItem storageKey w6 = Some "1"%string.
Proof. vm_compute. repeat split; reflexivity. Qed.
(** ** Executions: page loads and timers together *)

Section Executions.

Variable cfg : DomainConfig.
Variable location_replace : string -> option string.

Abbreviation load w random i := (fst (secureRedirect cfg location_replace w random i)).

(** The events of one load. *)
Lemma load_events (w : Browser) (random : RandomSource) (i : nat) :
  let count := parseInt (or_else (getItem storageKey w) "0") in
  let url := fst (buildRedirectURL cfg random i) in
  events (load w random i)
  = events w ++
    (if Number_lt count (Number_of_Z maxRedirects) then
       [SetItem storageKey (Number_toString (Number_add count (Number_of_Z 1)));
        SetTimeout 10000; ConsoleLog url; LocationReplace url]
       ++ match location_replace url with
          | Some error => [ConsoleError error]
          | None => []
          end
     else [ConsoleWarn maxRedirects]).
Proof.
  intros count url.
  destruct (Number_lt count (Number_of_Z maxRedirects)) eqn:Hlt.
  - rewrite secureRedirect_allowed_eq by exact Hlt. fold count.
    set (w1 := setTimeout 10000 _).
    pose proof (performRedirect_spec cfg location_replace w1 random i) as H.
    cbn zeta in H. fold url in H. destruct H as (_ & _ & _ & H).
    destruct (location_replace url); destruct H as [_ ->];
      unfold w1; cbn; rewrite <- !app_assoc; reflexivity.
  - rewrite load_blocked by exact Hlt. reflexivity.
Qed.

Lemma fire_timer_events (w : Browser) :
  timers w <> [] -> events (fire_timer w) = events w ++ [RemoveItem storageKey].
Proof. unfold fire_timer. destruct (timers w); [congruence | reflexivity]. Qed.

Lemma script_events_app (tr1 tr2 : list Event) :
  script_events tr1 -> script_events tr2 -> script_events (tr1 ++ tr2).
Proof.
  intros H1 H2.
  induction H2 as [| tr _ IH | tr value url _ IH | tr value url error _ IH | tr _ IH].
  - now rewrite app_nil_r.
  - rewrite app_assoc. now constructor.
  - rewrite app_assoc. now constructor.
  - rewrite app_assoc. now constructor.
  - rewrite app_assoc. now constructor.
Qed.

Lemma step_events (w w' : Browser) :
  step cfg location_replace w w' ->
  exists tr, events w' = events w ++ tr /\ script_events tr.
Proof.
  intros Hstep. destruct Hstep as [w0 random i | w0 Htimers | w0].
  - rewrite load_events.
    eexists; split; [reflexivity |].
    destruct (Number_lt _ _).
    + destruct (location_replace _).
      * apply (events_failed [] _ _ _ events_none).
      * apply (events_redirect [] _ _ events_none).
    + apply (events_blocked [] events_none).
  - rewrite fire_timer_events by exact Htimers.
    eexists; split; [reflexivity |]. apply (events_reset [] events_none).
  - exists []. split; [cbn; now rewrite app_nil_r | apply events_none].
Qed.

(** X12: along every execution of the redirector (page loads, timers
    and the page left, in any order) the trace grows by blocks of four forms only: the
    warning of a blocked load; the counter written, the timer set for
    10000 ms, the URL logged and the same URL passed to
    [location.replace], in this order; the same followed by the logged
    error; the removal of the counter.  So [location.replace] is never
    called before the counter is written and the timer set, and nothing
    but the counter is written or removed. *)
Theorem execution_events (w w' : Browser) :
  rtc (step cfg location_replace) w w' ->
  exists tr, events w' = events w ++ tr /\ script_events tr.
Proof.
  intros Hsteps. induction Hsteps as [w | w1 w2 w3 Hstep _ IH].
  - exists []. split; [now rewrite app_nil_r | constructor].
  - destruct (step_events _ _ Hstep) as (tr1 & H1 & Htr1).
    destruct IH as (tr2 & H2 & Htr2).
    exists (tr1 ++ tr2). split.
    + rewrite H2, H1, app_assoc. reflexivity.
    + now apply script_events_app.
Qed.

(** *** Other keys *)

Lemma load_other_key (key : string) (w : Browser) (random : RandomSource) (i : nat) :
  key <> storageKey -> getItem key (load w random i) = getItem key w.
Proof.
  intros Hkey.
  destruct (Number_lt (parseInt (or_else (getItem storageKey w) "0"))
              (Number_of_Z maxRedirects)) eqn:Hlt.
  - rewrite secureRedirect_allowed_eq by exact Hlt.
    rewrite performRedirect_getItem. unfold getItem. cbn.
    apply lookup_insert_ne. congruence.
  - rewrite load_blocked by exact Hlt. reflexivity.
Qed.

Lemma fire_timer_other_key (key : string) (w : Browser) :
  key <> storageKey -> getItem key (fire_timer w) = getItem key w.
Proof.
  intros Hkey. unfold fire_timer. destruct (timers w); [reflexivity |].
  unfold getItem. cbn. apply lookup_delete_ne. congruence.
Qed.

(** X13: the redirector reads and writes its own key only: along every
    execution, what [localStorage] holds under any other key stays as it
    was. *)
Theorem other_keys_untouched (key : string) (w w' : Browser) :
  key <> storageKey -> rtc (step cfg location_replace) w w' ->
  getItem key w' = getItem key w.
Proof.
  intros Hkey Hsteps. induction Hsteps as [w | w1 w2 w3 Hstep _ IH]; [reflexivity |].
  rewrite IH. destruct Hstep as [w0 random i | w0 Htimers | w0].
  - now apply load_other_key.
  - now apply fire_timer_other_key.
  - reflexivity.
Qed.

(** *** Blocked for good, and reset *)

Lemma fire_timer_redirects (w : Browser) : redirects (fire_timer w) = redirects w.
Proof.
  unfold fire_timer. destruct (timers w); [reflexivity |].
  unfold redirects. cbn. rewrite omap_app. cbn. apply app_nil_r.
Qed.

(** X14: a stored value that is not below the maximum (3 or more, or
    without a leading integer), with no timer pending, is final: whatever
    the redirector does from there, [localStorage] stays as it is, no
    timer is set, and there is no redirect.  The script alone never
    leaves this state; only a timer set earlier, or clearing the storage
    from outside, ends the block. *)
Theorem blocked_without_timer_final (w w' : Browser) :
  Number_lt (parseInt (or_else (getItem storageKey w) "0")) (Number_of_Z maxRedirects) = false ->
  timers w = [] ->
  rtc (step cfg location_replace) w w' ->
  localStorage w' = localStorage w /\ timers w' = [] /\
  location w' = location w /\ redirects w' = redirects w.
Proof.
  intros Hlt Htimers Hsteps.
  induction Hsteps as [w | w1 w2 w3 Hstep _ IH]; [auto |].
  destruct Hstep as [w0 random i | w0 Hpending | w0]; [| congruence |].
  - rewrite load_blocked in IH by exact Hlt.
    destruct IH as (Hst & Htm & Hloc & Hred); [exact Hlt | exact Htimers |].
    rewrite redirects_emit_warn in Hred. auto.
  - destruct IH as (Hst & Htm & Hloc & Hred); [exact Hlt | reflexivity |]. auto.
Qed.

(** X15: when a pending timer fires the counter is removed, whatever it
    was and whichever load set the timer, and the next page load is the
    first again: it stores ["1"] and calls [location.replace] with the
    URL built. *)
Theorem timer_resets_budget (w : Browser) (random : RandomSource) (i : nat) :
  timers w <> [] ->
  let w1 := fire_timer w in
  let w2 := load w1 random i in
  let url := fst (buildRedirectURL cfg random i) in
  getItem storageKey w1 = None /\
  getItem storageKey w2 = Some "1"%string /\
  redirects w2 = redirects w ++ [url] /\
  (location_replace url = None -> location w2 = Some url).
Proof.
  intros Hpending w1 w2 url.
  assert (Hget : getItem storageKey w1 = None) by now apply fire_timer_getItem.
  pose proof (load_allowed cfg location_replace w1 random i) as H. cbn zeta in H.
  rewrite Hget in H. destruct (H eq_refl) as (Hget' & Hred & _ & Hloc).
  split; [exact Hget |]. split; [exact Hget' |].
  split; [| exact Hloc].
  fold w2 url in Hred. rewrite Hred. unfold w1. now rewrite fire_timer_redirects.
Qed.

(** *** The budget of a window *)

Lemma counter_in_range_count (w : Browser) :
  counter_in_range w -> exists z, 0 <= z <= maxRedirects /\ count_is w z.
Proof.
  intros Hin. unfold count_is.
  destruct (getItem storageKey w) as [s |] eqn:Hget.
  - destruct (Hin s Hget) as (z & Hz & Heq). eauto.
  - exists 0. unfold maxRedirects. split; [lia | reflexivity].
Qed.

(** One load: the count goes up by one while it is below the maximum, and
    there is a redirect exactly then. *)
Lemma load_count (w : Browser) (z : Z) (random : RandomSource) (i : nat) :
  count_is w z ->
  count_is (load w random i) (Z.min (z + 1) 3) /\
  Z.of_nat (List.length (redirects (load w random i)))
  = Z.of_nat (List.length (redirects w)) + (Z.min (z + 1) 3 - z).
Proof.
  unfold count_is at 1. intros Hcount.
  assert (Hallowed : forall (x : Number) (y : Z),
            parseInt (or_else (getItem storageKey w) "0") = x ->
            Number_lt x (Number_of_Z maxRedirects) = true ->
            Number_toString (Number_add x (Number_of_Z 1)) = digits_of y ->
            1 <= y <= 3 ->
            SFeqb (parseInt (digits_of y)) (Number_of_Z y) = true ->
            count_is (load w random i) y /\
            Z.of_nat (List.length (redirects (load w random i)))
            = Z.of_nat (List.length (redirects w)) + 1).
  { intros x y Hx Hlt Hstr Hy Hparse.
    pose proof (load_allowed cfg location_replace w random i) as H. cbn zeta in H.
    rewrite Hx in H. destruct (H Hlt) as (Hget' & Hred & _). split.
    - unfold count_is. rewrite Hget', Hstr. unfold maxRedirects. split; [lia | exact Hparse].
    - rewrite Hred, length_app. cbn. lia. }
  destruct (getItem storageKey w) as [s |] eqn:Hget.
  - destruct Hcount as [Hz Heq].
    assert (Hne : s <> EmptyString) by (intros ->; discriminate Heq).
    assert (Hor : or_else (Some s) "0" = s) by now apply or_else_nonempty.
    destruct (in_range_cases _ z Hz Heq) as [[-> [sg Hx]] | [Hz1 Hx]].
    + destruct (Hallowed (S754_zero sg) 1) as [H1 H2];
        try (rewrite ?Hget, ?Hor, ?Hx; destruct sg; reflexivity); [lia |].
      split; [exact H1 | rewrite H2; lia].
    + assert (Hcases : z = 1 \/ z = 2 \/ z = 3) by lia.
      destruct Hcases as [-> | [-> | ->]].
      * destruct (Hallowed (Number_of_Z 1) 2) as [H1 H2];
          try (rewrite ?Hget, ?Hor, ?Hx; reflexivity); [lia |].
        split; [exact H1 | rewrite H2; lia].
      * destruct (Hallowed (Number_of_Z 2) 3) as [H1 H2];
          try (rewrite ?Hget, ?Hor, ?Hx; reflexivity); [lia |].
        split; [exact H1 | rewrite H2; lia].
      * rewrite load_blocked by (rewrite ?Hget, ?Hor, ?Hx; reflexivity).
        rewrite redirects_emit_warn. split; [| lia].
        unfold count_is. change (getItem storageKey (emit (ConsoleWarn maxRedirects) w))
          with (getItem storageKey w). rewrite Hget. auto.
  - subst z.
    destruct (Hallowed (S754_zero false) 1) as [H1 H2]; try reflexivity; [lia |].
    split; [exact H1 | rewrite H2; lia].
Qed.

Lemma load_removals (w : Browser) (random : RandomSource) (i : nat) :
  removals (load w random i) = removals w.
Proof.
  unfold removals. rewrite load_events. cbv zeta. rewrite omap_app.
  destruct (Number_lt _ _); [destruct (location_replace _) |]; cbn; apply app_nil_r.
Qed.

Lemma fire_timer_removals (w : Browser) :
  timers w <> [] -> removals (fire_timer w) = removals w ++ [storageKey].
Proof.
  intros Hpending. unfold removals. rewrite fire_timer_events by exact Hpending.
  rewrite omap_app. reflexivity.
Qed.

(** Along an execution the redirects, less the count and three for each
    removal of the counter, do not grow. *)
Lemma execution_count (w w' : Browser) (z : Z) :
  0 <= z <= 3 -> count_is w z -> rtc (step cfg location_replace) w w' ->
  exists z', 0 <= z' <= 3 /\ count_is w' z' /\
    Z.of_nat (List.length (redirects w')) - z' - 3 * Z.of_nat (List.length (removals w'))
    <= Z.of_nat (List.length (redirects w)) - z - 3 * Z.of_nat (List.length (removals w)).
Proof.
  intros Hz Hcount Hsteps. revert z Hz Hcount.
  induction Hsteps as [w | w1 w2 w3 Hstep _ IH]; intros z Hz Hcount.
  - exists z. split; [exact Hz |]. split; [exact Hcount | lia].
  - destruct Hstep as [w0 random i | w0 Hpending | w0].
    + destruct (load_count w0 z random i Hcount) as [Hcount1 Hred1].
      destruct (IH (Z.min (z + 1) 3) ltac:(lia) Hcount1) as (z' & Hz' & Hcount' & Hle).
      exists z'. split; [exact Hz' |]. split; [exact Hcount' |].
      rewrite load_removals in Hle. lia.
    + assert (Hcount1 : count_is (fire_timer w0) 0)
        by (unfold count_is; now rewrite fire_timer_getItem).
      destruct (IH 0 ltac:(lia) Hcount1) as (z' & Hz' & Hcount' & Hle).
      exists z'. split; [exact Hz' |]. split; [exact Hcount' |].
      rewrite fire_timer_removals, fire_timer_redirects, length_app in Hle by exact Hpending.
      cbn [List.length] in Hle. lia.
    + exact (IH z Hz Hcount).
Qed.

(** X16: the redirect budget.  From a state whose stored counter is in
    [[0, maxRedirects]], along every execution of the redirector the
    number of calls of [location.replace] is at most three, and three
    more for each time the counter has been removed by a timer: between
    two removals of the counter there are at most three redirects,
    however many page loads there are. *)
Theorem redirect_budget (w w' : Browser) :
  counter_in_range w -> rtc (step cfg location_replace) w w' ->
  (List.length (redirects w') + 3 * List.length (removals w)
   <= List.length (redirects w) + 3 + 3 * List.length (removals w'))%nat.
Proof.
  intros Hin Hsteps.
  destruct (counter_in_range_count w Hin) as (z & Hz & Hcount).
  unfold maxRedirects in Hz.
  destruct (execution_count w w' z Hz Hcount Hsteps) as (z' & Hz' & _ & Hle).
  lia.
Qed.

(** *** Timers *)

Lemma timeouts_app (w : Browser) (tr : list Event) :
  forall w', events w' = events w ++ tr ->
  timeouts w' = timeouts w ++
    omap (fun ev => match ev with SetTimeout delay => Some delay | _ => None end) tr.
Proof. intros w' H. unfold timeouts. now rewrite H, omap_app. Qed.

Lemma load_timeouts (w : Browser) (random : RandomSource) (i : nat) :
  timeouts (load w random i)
  = timeouts w ++
    if Number_lt (parseInt (or_else (getItem storageKey w) "0")) (Number_of_Z maxRedirects)
    then [10 * 1000] else [].
Proof.
  rewrite (timeouts_app w _ _ (load_events w random i)). f_equal.
  destruct (Number_lt _ _); [| reflexivity].
  destruct (location_replace _); reflexivity.
Qed.

Lemma fire_timer_timeouts (w : Browser) : timeouts (fire_timer w) = timeouts w.
Proof.
  unfold fire_timer. destruct (timers w); [reflexivity |].
  unfold timeouts. cbn. rewrite omap_app. cbn. apply app_nil_r.
Qed.

Lemma step_timers (w w' : Browser) :
  step cfg location_replace w w' ->
  (List.length (timeouts w') + List.length (redirects w)
   = List.length (timeouts w) + List.length (redirects w'))%nat /\
  (List.length (timers w') + List.length (removals w') + List.length (redirects w)
   <= List.length (timers w) + List.length (removals w) + List.length (redirects w'))%nat /\
  (Forall (fun delay => delay = 10 * 1000) (timeouts w ++ timers w) ->
   Forall (fun delay => delay = 10 * 1000) (timeouts w' ++ timers w')).
Proof.
  intros Hstep. destruct Hstep as [w0 random i | w0 Hpending | w0].
  - rewrite load_removals, load_timeouts.
    destruct (Number_lt (parseInt (or_else (getItem storageKey w0) "0"))
                (Number_of_Z maxRedirects)) eqn:Hlt.
    + pose proof (load_allowed cfg location_replace w0 random i) as H. cbn zeta in H.
      destruct (H Hlt) as (_ & -> & -> & _). rewrite !length_app. cbn [List.length].
      split; [lia |]. split; [lia |].
      intros Hall. apply Forall_app in Hall. destruct Hall as [Hset Hpend].
      repeat apply Forall_app_2; try assumption; now apply Forall_singleton.
    + rewrite load_blocked by exact Hlt. rewrite redirects_emit_warn, app_nil_r.
      split; [reflexivity |]. split; [reflexivity | auto].
  - rewrite fire_timer_removals, fire_timer_redirects, fire_timer_timeouts, length_app
      by exact Hpending.
    unfold fire_timer. destruct (timers w0) as [| delay rest]; [congruence |].
    cbn [timers List.length]. split; [lia |]. split; [lia |].
    intros Hall. apply Forall_app in Hall. destruct Hall as [Hset Hpend].
    apply Forall_cons in Hpend. apply Forall_app_2; [exact Hset | apply Hpend].
  - split; [reflexivity |].
    split; [unfold redirects, removals, unload; cbn [events timers List.length]; lia |].
    intros Hall. apply Forall_app in Hall. destruct Hall as [Hset _].
    cbn [unload timers]. rewrite app_nil_r. exact Hset.
Qed.

(** X17: every redirect comes with one reset of the counter scheduled,
    10000 ms later, and the counter is reset by such a timer only: along
    every execution the calls of [setTimeout] made are as many as the
    calls of [location.replace] made; the timers pending and the
    removals of the counter made are together at most as many more as
    the calls of [location.replace] are (a page that is left loses its
    timers, so they may be fewer); and every timer set has the delay
    [10 * 1000]. *)
Theorem timers_follow_redirects (w w' : Browser) :
  rtc (step cfg location_replace) w w' ->
  (List.length (timeouts w') + List.length (redirects w)
   = List.length (timeouts w) + List.length (redirects w'))%nat /\
  (List.length (timers w') + List.length (removals w') + List.length (redirects w)
   <= List.length (timers w) + List.length (removals w) + List.length (redirects w'))%nat /\
  (Forall (fun delay => delay = 10 * 1000) (timeouts w ++ timers w) ->
   Forall (fun delay => delay = 10 * 1000) (timeouts w' ++ timers w')).
Proof.
  intros Hsteps. induction Hsteps as [w | w1 w2 w3 Hstep _ IH]; [auto |].
  destruct (step_timers _ _ Hstep) as (Hset & Hlen & Hall).
  destruct IH as (IHset & IHlen & IHall). repeat split; [lia | lia | auto].
Qed.

End Executions.

Lemma execution_events_witness :
  let w := fresh_browser in
  let w' := fst (secureRedirect domainConfig (fun _ => None) w sample_source 0%nat) in
  rtc (step domainConfig (fun _ => None)) w w' /\
  exists tr, events w' = events w ++ tr /\ script_events tr.
Proof.
  cbn zeta.
  assert (Hsteps : rtc (step domainConfig (fun _ => None)) fresh_browser
                     (fst (secureRedirect domainConfig (fun _ => None)
                             fresh_browser sample_source 0%nat)))
    by (apply rtc_once, step_load).
  split; [exact Hsteps |].
  apply (execution_events domainConfig (fun _ => None) fresh_browser _ Hsteps).
Defined.

Lemma other_keys_untouched_witness :
  let w := browser_with_timer "3" in
  let w' := fire_timer w in
  ("theme"%string <> storageKey /\ rtc (step domainConfig (fun _ => None)) w w') /\
  getItem "theme" w' = getItem "theme" w.
Proof.
  cbn zeta.
  assert (Hkey : "theme"%string <> storageKey) by discriminate.
  assert (Hsteps : rtc (step domainConfig (fun _ => None)) (browser_with_timer "3")
                     (fire_timer (browser_with_timer "3")))
    by (apply rtc_once, step_timer; discriminate).
  split; [split; [exact Hkey | exact Hsteps] |].
  apply (other_keys_untouched domainConfig (fun _ => None) "theme"
           (browser_with_timer "3") _ Hkey Hsteps).
Defined.

Lemma blocked_without_timer_final_witness :
  let w := browser_with "abc" in
  let w' := fst (secureRedirect domainConfig (fun _ => None) w sample_source 0%nat) in
  (Number_lt (parseInt (or_else (getItem storageKey w) "0")) (Number_of_Z maxRedirects) = false /\
   timers w = [] /\ rtc (step domainConfig (fun _ => None)) w w') /\
  localStorage w' = localStorage w /\ timers w' = [] /\
  location w' = location w /\ redirects w' = redirects w.
Proof.
  cbn zeta.
  assert (Hsteps : rtc (step domainConfig (fun _ => None)) (browser_with "abc")
                     (fst (secureRedirect domainConfig (fun _ => None)
                             (browser_with "abc") sample_source 0%nat)))
    by (apply rtc_once, step_load).
  split; [split; [reflexivity | split; [reflexivity | exact Hsteps]] |].
  apply (blocked_without_timer_final domainConfig (fun _ => None) (browser_with "abc") _
           eq_refl eq_refl Hsteps).
Defined.

Lemma timer_resets_budget_witness :
  let w := browser_with_timer "3" in
  let w1 := fire_timer w in
  let w2 := fst (secureRedirect domainConfig (fun _ => None) w1 sample_source 0%nat) in
  let url := fst (buildRedirectURL domainConfig sample_source 0%nat) in
  timers w <> [] /\
  getItem storageKey w1 = None /\
  getItem storageKey w2 = Some "1"%string /\
  redirects w2 = redirects w ++ [url] /\
  location w2 = Some url.
Proof.
  cbn zeta.
  assert (Hpending : timers (browser_with_timer "3") <> []) by discriminate.
  destruct (timer_resets_budget domainConfig (fun _ => None) (browser_with_timer "3")
              sample_source 0%nat Hpending) as (Hget1 & Hget2 & Hred & Hloc).
  split; [exact Hpending |]. split; [exact Hget1 |]. split; [exact Hget2 |].
  split; [exact Hred |]. apply Hloc. reflexivity.
Defined.

Lemma redirect_budget_witness :
  let w := browser_with "2" in
  let w' := fst (secureRedirect domainConfig (fun _ => None) w sample_source 0%nat) in
  (counter_in_range w /\ rtc (step domainConfig (fun _ => None)) w w') /\
  (List.length (redirects w') + 3 * List.length (removals w)
   <= List.length (redirects w) + 3 + 3 * List.length (removals w'))%nat.
Proof.
  cbn zeta.
  assert (Hsteps : rtc (step domainConfig (fun _ => None)) (browser_with "2")
                     (fst (secureRedirect domainConfig (fun _ => None)
                             (browser_with "2") sample_source 0%nat)))
    by (apply rtc_once, step_load).
  split; [split; [exact browser_with_in_range | exact Hsteps] |].
  apply (redirect_budget domainConfig (fun _ => None) (browser_with "2") _
           browser_with_in_range Hsteps).
Defined.

Lemma timers_follow_redirects_witness :
  let load w i := fst (secureRedirect domainConfig (fun _ => None) w sample_source i) in
  let w := fresh_browser in
  let w' := fire_timer (load (unload (load w 0%nat)) 1%nat) in
  rtc (step domainConfig (fun _ => None)) w w' /\
  (List.length (timeouts w') + List.length (redirects w)
   = List.length (timeouts w) + List.length (redirects w'))%nat /\
  (List.length (timers w') + List.length (removals w') + List.length (redirects w)
   <= List.length (timers w) + List.length (removals w) + List.length (redirects w'))%nat /\
  (Forall (fun delay => delay = 10 * 1000) (timeouts w ++ timers w) ->
   Forall (fun delay => delay = 10 * 1000) (timeouts w' ++ timers w')).
Proof.
  cbn zeta.
  set (w1 := fst (secureRedirect domainConfig (fun _ => None) fresh_browser sample_source 0%nat)).
  set (w2 := fst (secureRedirect domainConfig (fun _ => None) (unload w1) sample_source 1%nat)).
  assert (Hpending : timers w2 <> []) by (vm_compute; discriminate).
  assert (Hsteps : rtc (step domainConfig (fun _ => None)) fresh_browser (fire_timer w2)).
  { eapply rtc_l; [apply step_load |]. fold w1.
    eapply rtc_l; [apply step_unload |].
    eapply rtc_l; [apply step_load |]. fold w2.
    apply rtc_once, step_timer, Hpending. }
  split; [exact Hsteps |].
  apply (timers_follow_redirects domainConfig (fun _ => None) fresh_browser _ Hsteps).
Defined.

(** Five loads and two timers: the counter is blocked at three, each
    timer that fires gives the next load its redirect, and other keys
    stay. *)
Example loads_and_timers :
  let load w i := fst (secureRedirect domainConfig (fun _ => None) w sample_source i) in
  let w3 := load (load (load (browser_with_timer "0") 0%nat) 1%nat) 2%nat in
  let w4 := load w3 3%nat in
  let w5 := load (fire_timer w4) 4%nat in
  (getItem storageKey w3, List.length (redirects w3), timers w3)
  = (Some "3"%string, 3%nat, [10000; 10000; 10000; 10000]) /\
  (getItem storageKey w4, List.length (redirects w4)) = (Some "3"%string, 3%nat) /\
  (getItem storageKey w5, List.length (redirects w5), List.length (removals w5))
  = (Some "1"%string, 4%nat, 1%nat) /\
  getItem "theme" w5 = Some "dark"%string.
Proof. vm_compute. repeat split; reflexivity. Qed.

(** A page that is left loses its timer and keeps the counter: after the
    load the counter is ["1"] and one timer is pending; once the page is
    left no timer is, and the next load finds ["1"] and stores ["2"]. *)
Example left_page_keeps_counter :
  let load w i := fst (secureRedirect domainConfig (fun _ => None) w sample_source i) in
  let w1 := load fresh_browser 0%nat in
  let w2 := load (unload w1) 1%nat in
  (getItem storageKey w1, timers w1) = (Some "1"%string, [10000]) /\
  (getItem storageKey (unload w1), timers (unload w1)) = (Some "1"%string, []) /\
  (getItem storageKey w2, timers w2) = (Some "2"%string, [10000]).
Proof. vm_compute. repeat split; reflexivity. Qed.

(** Three redirects, each page left before its timer fires: the counter
    is ["3"] with no timer pending, so the fourth load is blocked, and so
    is every later one. *)
Example three_left_pages_block :
  let load w i := unload (fst (secureRedirect domainConfig (fun _ => None) w sample_source i)) in
  let w3 := load (load (load fresh_browser 0%nat) 1%nat) 2%nat in
  let w4 := load w3 3%nat in
  (getItem storageKey w3, timers w3, List.length (redirects w3))
  = (Some "3"%string, [], 3%nat) /\
  (getItem storageKey w4, timers w4, List.length (redirects w4))
  = (Some "3"%string, [], 3%nat) /\
  last (events w4) = Some (ConsoleWarn maxRedirects).
Proof. vm_compute. repeat split; reflexivity. Qed.
(** ** The guard reads an integer *)

(** Rounding a positive [M * 2^E] in the normal range: the result has the
    sign asked for and is an infinity or a finite Number whose exponent is
    at least [E] and at least that of the binade of the value. *)
Lemma binary_round_aux_normal (sx : bool) (M : positive) (E : Z) :
  let d := Z.pos (digits2_pos M) in
  -1074 <= d + E - 53 ->
  binary_round_aux prec emax sx (Z.pos M) E loc_Exact = S754_infinity sx \/
  exists m e, binary_round_aux prec emax sx (Z.pos M) E loc_Exact = S754_finite sx m e /\
              Z.max E (d + E - 53) <= e.
Proof.
  intros d Hnormal.
  pose proof (digits_lower M) as Hlo. fold d in Hlo.
  assert (Hd : 1 <= d) by (unfold d; lia).
  assert (Hlast : forall (m : positive) (e : Z), Z.max E (d + E - 53) <= e ->
            (if e <=? emax - prec then S754_finite sx m e else S754_infinity sx)
            = S754_infinity sx \/
            exists m' e', (if e <=? emax - prec then S754_finite sx m e else S754_infinity sx)
                          = S754_finite sx m' e' /\ Z.max E (d + E - 53) <= e').
  { intros m e He. destruct (e <=? emax - prec); [right; eauto | left; reflexivity]. }
  unfold binary_round_aux, shr_fexp.
  cbn [Zdigits2 shr_record_of_loc]. fold d.
  rewrite fexp_binary64.
  replace (Z.max (d + E - 53) (-1074)) with (d + E - 53) by lia.
  destruct (d + E - 53 - E) as [| p | p] eqn:Hs; cbn [shr].
  - cbn [shr_m round_nearest_even loc_of_shr_record shr_record_of_loc Zdigits2].
    fold d. rewrite fexp_binary64.
    replace (Z.max (d + E - 53) (-1074)) with (d + E - 53) by lia.
    rewrite Hs. cbn [shr shr_m]. apply Hlast. lia.
  - set (mrs1 := SpecFloat.iter_pos shr_1 p
                   {| shr_m := Z.pos M; shr_r := false; shr_s := false |}).
    destruct (iter_shr_1 p {| shr_m := Z.pos M; shr_r := false; shr_s := false |}
                ltac:(cbn; lia)) as [Hq _].
    cbn [shr_m] in Hq. fold mrs1 in Hq.
    pose proof (round_nearest_even_cases mrs1) as Hm1. cbn zeta in Hm1.
    set (m1 := round_nearest_even (shr_m mrs1) (loc_of_shr_record mrs1)) in *.
    assert (Hp : Z.pos p = d - 53) by lia.
    assert (Hq52 : 2 ^ 52 <= shr_m mrs1).
    { rewrite Hq. apply Z.div_le_lower_bound; [apply pow2_pos; lia |].
      rewrite Hp, <- pow2_split by lia.
      replace (d - 53 + 52) with (d - 1) by lia. exact Hlo. }
    assert (H52 : 0 < 2 ^ 52) by (apply pow2_pos; lia).
    assert (Hm1pos : 2 ^ 52 <= m1) by (destruct Hm1 as [-> | [-> _]]; lia).
    cbn [shr_m].
    destruct m1 as [| m | m] eqn:Hm1e; [lia | | lia].
    cbn [Zdigits2]. rewrite fexp_binary64.
    pose proof (digits_upper m) as Hup1.
    set (dm := Z.pos (digits2_pos m)) in *.
    assert (Hdm : 53 <= dm).
    { destruct (Z_lt_le_dec dm 53) as [Hlt | Hge]; [| exact Hge].
      assert (2 ^ dm <= 2 ^ 52) by (apply Z.pow_le_mono_r; lia). lia. }
    replace (Z.max (dm + (E + Z.pos p) - 53) (-1074)) with (dm + (E + Z.pos p) - 53) by lia.
    destruct (dm + (E + Z.pos p) - 53 - (E + Z.pos p)) as [| p2 | p2] eqn:Hs2; cbn [shr shr_m].
    + apply Hlast. lia.
    + destruct (iter_shr_1 p2 {| shr_m := Z.pos m; shr_r := false; shr_s := false |}
                  ltac:(cbn; lia)) as [Hq2 _].
      cbn [shr_m] in Hq2. rewrite Hq2.
      pose proof (digits_lower m) as Hlo1. fold dm in Hlo1.
      assert (Hp2 : Z.pos p2 = dm - 53) by lia.
      assert (Hm2 : 2 ^ 52 <= Z.pos m / 2 ^ Z.pos p2).
      { apply Z.div_le_lower_bound; [apply pow2_pos; lia |].
        rewrite Hp2, <- pow2_split by lia.
        replace (dm - 53 + 52) with (dm - 1) by lia. exact Hlo1. }
      destruct (Z.pos m / 2 ^ Z.pos p2) as [| m2 | m2]; [lia | | lia].
      apply Hlast. lia.
    + lia.
  - cbn [shr_m round_nearest_even loc_of_shr_record shr_record_of_loc Zdigits2].
    fold d. rewrite fexp_binary64.
    replace (Z.max (d + E - 53) (-1074)) with (d + E - 53) by lia.
    rewrite Hs. cbn [shr shr_m]. apply Hlast. lia.
Qed.

(** The Number of a non-zero integer has its sign, and is an infinity or
    a finite Number whose exponent is at least that of its binade. *)
Lemma Number_of_Z_shape (sx : bool) (p : positive) :
  let x := Number_of_Z (cond_Zopp sx (Z.pos p)) in
  x = S754_infinity sx \/
  exists m e, x = S754_finite sx m e /\ Z.pos (digits2_pos p) - 53 <= e.
Proof.
  cbn zeta.
  assert (Hround : Number_of_Z (cond_Zopp sx (Z.pos p)) = binary_round prec emax sx p 0)
    by (destruct sx; reflexivity).
  rewrite Hround. unfold binary_round.
  rewrite fexp_binary64.
  set (d := digits2_pos p).
  replace (Z.max (Z.pos d + 0 - 53) (-1074)) with (Z.pos d - 53) by lia.
  unfold shl_align.
  destruct (Z.pos d - 53 - 0) as [| k | k] eqn:Hk.
  - destruct (binary_round_aux_normal sx p 0 ltac:(fold d; lia)) as [H | (m & e & H & He)];
      [left; exact H | right; exists m, e; split; [exact H | fold d in He; lia]].
  - destruct (binary_round_aux_normal sx p 0 ltac:(fold d; lia)) as [H | (m & e & H & He)];
      [left; exact H | right; exists m, e; split; [exact H | fold d in He; lia]].
  - cbn [shift_pos].
    destruct (binary_round_aux_normal sx (Pos.iter xO p k) (Z.pos d - 53))
      as [H | (m & e & H & He)].
    + rewrite iter_xO_digits. fold d. lia.
    + left; exact H.
    + right. exists m, e. split; [exact H |].
      rewrite iter_xO_digits in He. fold d in He. lia.
Qed.

Lemma parse_digits_nonneg (s : string) (acc : option Z) (n : Z) :
  (forall a, acc = Some a -> 0 <= a) -> parse_digits s acc = Some n -> 0 <= n.
Proof.
  revert acc. induction s as [| c s IH]; intros acc Hacc; cbn [parse_digits].
  - apply Hacc.
  - unfold digit_value.
    destruct (_ && _) eqn:Hd; [| apply Hacc].
    apply IH. intros a [= <-].
    apply andb_prop in Hd as [Hlo _]. apply Z.leb_le in Hlo.
    cbv zeta in Hlo.
    destruct acc as [a |]; cbn; [specialize (Hacc a eq_refl) |]; lia.
Qed.

(** The comparison of the guard, on the Number of an integer. *)
Lemma Number_of_Z_below_max (z : Z) :
  Number_lt (Number_of_Z z) (Number_of_Z maxRedirects) = (z <? maxRedirects).
Proof.
  unfold maxRedirects.
  destruct z as [| p | p].
  - reflexivity.
  - destruct (Z_lt_le_dec (Z.pos p) 4) as [Hsmall | Hbig].
    + assert (Hcases : Z.pos p = 1 \/ Z.pos p = 2 \/ Z.pos p = 3) by lia.
      destruct Hcases as [-> | [-> | ->]]; reflexivity.
    + replace (Z.pos p <? 3) with false by (symmetry; apply Z.ltb_ge; lia).
      assert (Hd : 3 <= Z.pos (digits2_pos p)).
      { pose proof (digits_upper p) as Hup.
        destruct (Z_lt_le_dec (Z.pos (digits2_pos p)) 3) as [Hlt | Hge]; [| exact Hge].
        assert (2 ^ Z.pos (digits2_pos p) <= 2 ^ 2) by (apply Z.pow_le_mono_r; lia).
        change (2 ^ 2) with 4 in *. lia. }
      destruct (Number_of_Z_shape false p) as [H | (m & e & H & He)];
        cbn [cond_Zopp] in H; rewrite H; [reflexivity |].
      unfold Number_lt, SFltb.
      assert (H3 : Number_of_Z 3 = S754_finite false 6755399441055744 (-51)) by reflexivity.
      rewrite H3. cbn [SFcompare].
      destruct (Z.compare_spec e (-51)) as [Heq | Hlt | Hgt]; [lia | lia | reflexivity].
  - replace (Z.neg p <? 3) with true by (symmetry; apply Z.ltb_lt; lia).
    destruct (Number_of_Z_shape true p) as [H | (m & e & H & He)];
      cbn [cond_Zopp] in H; change (- Z.pos p) with (Z.neg p) in H; rewrite H; reflexivity.
Qed.

(** The guard compares the integer read, whatever its size. *)
Lemma guard_reads_integer (s : string) :
  Number_lt (parseInt s) (Number_of_Z maxRedirects)
  = match leading_integer s with
    | Some z => z <? maxRedirects
    | None => false
    end.
Proof.
  unfold parseInt, leading_integer.
  destruct (match trim_start s with
            | String "-" s' => (true, s')
            | String "+" s' => (false, s')
            | _ => (false, trim_start s)
            end) as [negative rest].
  destruct (parse_digits rest None) as [n |] eqn:Hparse; [| reflexivity].
  assert (Hn : 0 <= n).
  { eapply parse_digits_nonneg; [| exact Hparse]. intros a Ha. discriminate Ha. }
  destruct n as [| p | p]; [| | lia].
  - destruct negative; reflexivity.
  - apply Number_of_Z_below_max.
Qed.

(** X11: the guard of [secureRedirect] decides on the integer that the
    stored value starts with (after white space, with its sign), exactly:
    the load redirects and sets the timer when that integer is below 3,
    negative integers included, and is blocked when it is 3 or more, or
    when there is no leading integer; a missing or empty value counts as
    0.  Rounding the integer to a binary64 Number never changes the
    decision, however many digits there are. *)
Theorem secureRedirect_guard (cfg : DomainConfig) (location_replace : string -> option string)
    (w : Browser) (random : RandomSource) (i : nat) :
  let stored := or_else (getItem storageKey w) "0" in
  let url := fst (buildRedirectURL cfg random i) in
  let w' := fst (secureRedirect cfg location_replace w random i) in
  match leading_integer stored with
  | Some z =>
      if z <? maxRedirects
      then redirects w' = redirects w ++ [url] /\ timers w' = timers w ++ [10 * 1000]
      else w' = emit (ConsoleWarn maxRedirects) w
  | None => w' = emit (ConsoleWarn maxRedirects) w
  end.
Proof.
  cbv zeta.
  pose proof (guard_reads_integer (or_else (getItem storageKey w) "0")) as Hguard.
  destruct (leading_integer (or_else (getItem storageKey w) "0")) as [z |].
  - destruct (z <? maxRedirects).
    + pose proof (load_allowed cfg location_replace w random i) as H. cbn zeta in H.
      destruct (H Hguard) as (_ & Hred & Htimers & _). auto.
    + now apply load_blocked.
  - now apply load_blocked.
Qed.

(** A counter below zero is below the maximum, and so is one with white
    space and a sign; a counter of thirty digits is not. *)
Example guard_on_stored_values :
  map (fun value =>
         List.length (redirects (fst (secureRedirect domainConfig (fun _ => None)
                                        (browser_with value) sample_source 0%nat))))
      ["-5"; " +2"; "2abc"; "3"; "100000000000000000000000000000"; "abc"; "-"]%string
  = [1; 1; 1; 0; 0; 0; 0]%nat.
Proof. vm_compute. reflexivity. Qed.
(** ** The generator, draw by draw *)

Lemma Array_get_nil {A} (k : Z) : Array_get (@nil A) k = None.
Proof. unfold Array_get. destruct (0 <=? k); reflexivity. Qed.

(** The URL, from the label and the two draws that follow it. *)
Lemma buildRedirectURL_eq (cfg : DomainConfig) (random : RandomSource) (i : nat) :
  buildRedirectURL cfg random i
  = let (label, j) := generateRandomSubdomain cfg random i in
    let topDomain :=
      Array_get (topLevelDomains cfg)
        (Math_floor (Number_mul (random j)
           (Number_of_Z (Z.of_nat (List.length (topLevelDomains cfg)))))) in
    (((if Number_gt (random (S j)) (decimal 5 10) then "https" else "http")
      ++ "://" ++ label ++ "." ++ interpolate topDomain)%string, S (S j)).
Proof.
  unfold buildRedirectURL. rewrite bind_eq.
  destruct (generateRandomSubdomain cfg random i) as [label j].
  unfold getRandomTopLevelDomain. rewrite bind_eq, bind_random_index.
  unfold ret at 1. rewrite bind_Math_random. reflexivity.
Qed.


Lemma charAt_length (s : string) (pos : Z) : (String.length (charAt s pos) <= 1)%nat.
Proof.
  unfold charAt. destruct (0 <=? pos); [| cbn; lia].
  destruct (String.get (Z.to_nat pos) s); cbn; lia.
Qed.

(** The loop makes one draw for each iteration and adds at most one
    character, whatever the draws are. *)
Lemma generateRandomString_loop_draws (n : nat) (result : string)
    (random : RandomSource) (i : nat) :
  snd (generateRandomString_loop n result random i) = (i + n)%nat /\
  (String.length (fst (generateRandomString_loop n result random i))
   <= String.length result + n)%nat.
Proof.
  revert result i. induction n as [| n IH]; intros result i.
  - cbn. lia.
  - cbn [generateRandomString_loop]. rewrite bind_random_index.
    destruct (IH (result ++ charAt characters
                    (Math_floor (Number_mul (random i)
                       (Number_of_Z (Z.of_nat (String.length characters))))))%string (S i))
      as [Hcur Hlen].
    split; [rewrite Hcur; lia |].
    eapply Nat.le_trans; [exact Hlen |].
    rewrite string_length_app.
    pose proof (charAt_length characters
                  (Math_floor (Number_mul (random i)
                     (Number_of_Z (Z.of_nat (String.length characters)))))).
    lia.
Qed.

(** X1: [generateRandomString(length)] calls [Math.random()] once for each
    character asked for, and not at all for a length that is zero or
    negative, where the result is the empty string; whatever the draws
    are (even outside [0, 1)), the result has at most [length]
    characters. *)
Theorem generateRandomString_draws (length : Z) (random : RandomSource) (i : nat) :
  snd (generateRandomString length random i) = (i + Z.to_nat length)%nat /\
  (String.length (fst (generateRandomString length random i)) <= Z.to_nat length)%nat /\
  (length <= 0 -> generateRandomString length random i = (EmptyString, i)).
Proof.
  unfold generateRandomString.
  destruct (generateRandomString_loop_draws (Z.to_nat length) EmptyString random i)
    as [Hcur Hlen].
  split; [exact Hcur | split; [exact Hlen |]].
  intros Hneg. replace (Z.to_nat length) with 0%nat by lia. reflexivity.
Qed.

Lemma generateRandomString_draws_witness :
  -2 <= 0 /\ generateRandomString (-2) sample_source 4%nat = (EmptyString, 4%nat).
Proof.
  split; [lia |].
  apply (generateRandomString_draws (-2) sample_source 4%nat). lia.
Defined.

(** *** The parts of a label *)

Lemma is_word_spec (s : string) :
  is_word s = true -> s <> EmptyString /\ string_forall lower_alnum s = true.
Proof.
  unfold is_word. intros [Hne Hall]%andb_prop. split; [| exact Hall].
  intros ->. discriminate Hne.
Qed.

Lemma Array_join_default (sep : string) (xs : list (option string)) :
  Array_join sep xs = String.concat sep (map (default EmptyString) xs).
Proof. reflexivity. Qed.

Section Shape.

Variable cfg : DomainConfig.
Variable random : RandomSource.
Hypothesis random_unit : forall i, unit_interval (random i) = true.

(** The parts before the insertion, with the length of the random string
    and the draws made. *)
Lemma subdomain_parts_spec (i : nat) :
  let prefix :=
    Array_get (subDomainPrefixes cfg)
      (Math_floor (Number_mul (random i)
         (Number_of_Z (Z.of_nat (List.length (subDomainPrefixes cfg)))))) in
  let randomLength :=
    Math_floor (Number_mul (random (S (S i)))
      (Number_of_Z (max (subDomainRandomLength cfg) - min (subDomainRandomLength cfg) + 1)))
    + min (subDomainRandomLength cfg) in
  (Number_gt (random (S i)) (decimal 3 10) = false /\
   subdomain_parts cfg random i = ([prefix], (i + 2)%nat)) \/
  (Number_gt (random (S i)) (decimal 3 10) = true /\
   exists s,
     String.length s = Z.to_nat randomLength /\
     string_forall lower_alnum s = true /\
     subdomain_parts cfg random i = ([prefix; Some s], (i + 3 + String.length s)%nat)).
Proof.
  cbv zeta. unfold subdomain_parts. cbv zeta.
  rewrite bind_random_index, bind_Math_random.
  destruct (Number_gt (random (S i)) (decimal 3 10)).
  - right. split; [reflexivity |].
    rewrite bind_random_index, bind_eq.
    match goal with
    | |- context [generateRandomString ?L random ?c] =>
        destruct (generateRandomString_spec random random_unit L c) as (s & -> & Hlen & Hall)
    end.
    exists s. split; [exact Hlen |]. split; [exact Hall |].
    unfold ret. cbn [app]. f_equal. lia.
  - left. split; [reflexivity |]. unfold ret. f_equal. lia.
Qed.

(** The insertion puts ['www'] at one of the places of the list, or
    leaves the list; it makes no draw with the flag off, one or two with
    the flag on. *)
Lemma insert_www_spec (base : list (option string)) (i : nat) :
  Z.of_nat (List.length base) < 2 ^ 52 ->
  exists parts j,
    insert_www cfg base random i = (parts, j) /\
    (parts = base /\ (i <= j <= i + 1)%nat \/
     includeWwwAsSpecial cfg = true /\ j = (i + 2)%nat /\
     exists p, (p <= List.length base)%nat /\
       parts = take p base ++ Some "www"%string :: drop p base).
Proof.
  intros Hlen. unfold insert_www.
  destruct (includeWwwAsSpecial cfg).
  - rewrite bind_Math_random.
    destruct (Number_lt (random i) (decimal 2 10)).
    + rewrite bind_random_index. unfold ret.
      destruct (floor_mul_unit (random (S i)) (Z.of_nat (List.length base) + 1)
                  (random_unit (S i)) ltac:(lia)) as [_ Hp].
      rewrite Array_splice_insert by lia.
      set (p := Math_floor _) in *.
      eexists _, _. split; [reflexivity |].
      right. split; [reflexivity |]. split; [lia |].
      exists (Z.to_nat p). split; [lia | reflexivity].
    + unfold ret. exists base, (S i). split; [reflexivity |]. left. split; [reflexivity | lia].
  - unfold ret. exists base, i. split; [reflexivity |]. left. split; [reflexivity | lia].
Qed.

(** The label: its parts, joined by hyphens, and the draws made.  The
    prefix is the entry drawn, or the empty string for [undefined]. *)
Lemma generateRandomSubdomain_parts (i : nat) :
  let prefix :=
    default EmptyString
      (Array_get (subDomainPrefixes cfg)
         (Math_floor (Number_mul (random i)
            (Number_of_Z (Z.of_nat (List.length (subDomainPrefixes cfg))))))) in
  let randomLength :=
    Math_floor (Number_mul (random (S (S i)))
      (Number_of_Z (max (subDomainRandomLength cfg) - min (subDomainRandomLength cfg) + 1)))
    + min (subDomainRandomLength cfg) in
  exists base parts j,
    (base = [prefix] /\ (j <= i + 4)%nat \/
     exists s, base = [prefix; s] /\
       String.length s = Z.to_nat randomLength /\
       string_forall lower_alnum s = true /\
       (j <= i + 5 + String.length s)%nat) /\
    (parts = base \/
     includeWwwAsSpecial cfg = true /\
     exists p, (p <= List.length base)%nat /\
       parts = take p base ++ "www"%string :: drop p base) /\
    generateRandomSubdomain cfg random i = (String.concat "-" parts, j) /\
    (i + 2 <= j)%nat.
Proof.
  cbv zeta. unfold generateRandomSubdomain. rewrite bind_eq.
  assert (Hjoin : forall (base : list (option string)) (p : nat),
            map (default EmptyString) (take p base ++ Some "www"%string :: drop p base)
            = take p (map (default EmptyString) base)
              ++ "www"%string :: drop p (map (default EmptyString) base)).
  { intros base p. rewrite map_app. cbn [map default].
    change (map (default EmptyString)) with (fmap (M := list) (default EmptyString)).
    now rewrite fmap_take, fmap_drop. }
  pose proof (subdomain_parts_spec i) as Hspec. cbv zeta in Hspec.
  destruct Hspec as [[_ ->] | [_ (s & Hs & Hall & ->)]]; rewrite bind_eq.
  - set (px := Array_get _ _).
    destruct (insert_www_spec [px] (i + 2)) as (parts & j & -> & Hparts);
      [cbn; lia |].
    unfold ret. rewrite Array_join_default.
    exists [default EmptyString px], (map (default EmptyString) parts), j.
    destruct Hparts as [[-> Hj] | (Hflag & -> & p & Hp & ->)].
    + split; [left; split; [reflexivity | lia] |].
      split; [left; reflexivity |]. split; [reflexivity | lia].
    + split; [left; split; [reflexivity | lia] |].
      split; [right; split; [exact Hflag |]; exists p; split; [exact Hp | apply Hjoin] |].
      split; [reflexivity | lia].
  - set (px := Array_get _ _).
    destruct (insert_www_spec [px; Some s] (i + 3 + String.length s))
      as (parts & j & -> & Hparts); [cbn; lia |].
    unfold ret. rewrite Array_join_default.
    exists [default EmptyString px; s], (map (default EmptyString) parts), j.
    destruct Hparts as [[-> Hj] | (Hflag & -> & p & Hp & ->)].
    + split; [right; exists s; repeat split; [exact Hs | exact Hall | lia] |].
      split; [left; reflexivity |]. split; [reflexivity | lia].
    + split; [right; exists s; repeat split; [exact Hs | exact Hall | lia] |].
      split; [right; split; [exact Hflag |]; exists p; split; [exact Hp | apply Hjoin] |].
      split; [reflexivity | lia].
Qed.

(** The forms of a label with the prefix [prefix]; [good] is what is
    known of the random string. *)
Lemma label_forms (prefix : string) (good : string -> Prop) (base parts : list string) :
  (base = [prefix] \/ exists s, base = [prefix; s] /\ good s) ->
  (parts = base \/
   includeWwwAsSpecial cfg = true /\
   exists p, (p <= List.length base)%nat /\
     parts = take p base ++ "www"%string :: drop p base) ->
  let label := String.concat "-" parts in
  ((label = prefix \/
    includeWwwAsSpecial cfg = true /\
    (label = "www-" ++ prefix \/ label = prefix ++ "-www")) \/
   exists s, good s /\
     (label = prefix ++ "-" ++ s \/
      includeWwwAsSpecial cfg = true /\
      (label = "www-" ++ prefix ++ "-" ++ s \/
       label = prefix ++ "-www-" ++ s \/
       label = prefix ++ "-" ++ s ++ "-www")))%string.
Proof.
  intros Hbase Hparts. cbv zeta.
  destruct Hbase as [-> | (s & -> & Hs)].
  - left. destruct Hparts as [-> | (Hflag & p & Hp & ->)]; [left; reflexivity |].
    right. split; [exact Hflag |].
    cbn [List.length] in Hp.
    assert (Hcases : (p = 0 \/ p = 1)%nat) by lia.
    destruct Hcases as [-> | ->]; [left | right]; reflexivity.
  - right. exists s. split; [exact Hs |].
    destruct Hparts as [-> | (Hflag & p & Hp & ->)]; [left; reflexivity |].
    right. split; [exact Hflag |].
    cbn [List.length] in Hp.
    assert (Hcases : (p = 0 \/ p = 1 \/ p = 2)%nat) by lia.
    destruct Hcases as [-> | [-> | ->]]; [left | right; left | right; right];
      cbn; rewrite ?append_assoc; reflexivity.
Qed.

End Shape.

Section Labels.

Variable cfg : DomainConfig.
Variable random : RandomSource.
Hypothesis random_unit : forall i, unit_interval (random i) = true.

(** On a valid configuration the prefix is an entry of the list and the
    random string has a length from [min] to [max]. *)
Lemma generateRandomSubdomain_valid_parts (i : nat) :
  valid_config cfg = true ->
  exists prefix base parts j,
    In prefix (subDomainPrefixes cfg) /\
    (base = [prefix] \/
     exists s, base = [prefix; s] /\
       min (subDomainRandomLength cfg) <= Z.of_nat (String.length s)
         <= max (subDomainRandomLength cfg) /\
       string_forall lower_alnum s = true) /\
    (parts = base \/
     includeWwwAsSpecial cfg = true /\
     exists p, (p <= List.length base)%nat /\
       parts = take p base ++ "www"%string :: drop p base) /\
    generateRandomSubdomain cfg random i = (String.concat "-" parts, j) /\
    (i + 2 <= j)%nat /\
    Z.of_nat j <= Z.of_nat i + 5 + max (subDomainRandomLength cfg).
Proof.
  intros cfg_valid.
  destruct (valid_config_inv cfg cfg_valid) as (_ & Hpre & _ & Hmin & Hmax).
  pose proof (generateRandomSubdomain_parts cfg random random_unit i) as Hparts.
  cbv zeta in Hparts.
  destruct (floor_mul_unit (random i) (Z.of_nat (List.length (subDomainPrefixes cfg)))
              (random_unit i) ltac:(lia)) as [_ Hk].
  destruct (Array_get_in_range _ _ Hk) as (prefix & Hget & Hin).
  rewrite Hget in Hparts. cbn [default] in Hparts.
  destruct (floor_mul_unit (random (S (S i)))
              (max (subDomainRandomLength cfg) - min (subDomainRandomLength cfg) + 1)
              (random_unit (S (S i))) ltac:(lia)) as [_ Hk'].
  destruct Hparts as (base & parts & j & Hbase & Hins & Heq & Hlo).
  exists prefix, base, parts, j. split; [exact Hin |].
  destruct Hbase as [[-> Hj] | (s & -> & Hs & Hall & Hj)].
  - split; [left; reflexivity |]. split; [exact Hins |]. split; [exact Heq | lia].
  - split; [right; exists s; split; [reflexivity | split; [lia | exact Hall]] |].
    split; [exact Hins |]. split; [exact Heq | lia].
Qed.

(** X2: on a valid configuration a label is a prefix of the list, alone
    or followed by a hyphen and a random string over [[a-z0-9]] whose
    length is from [min] to [max]; with the flag [includeWwwAsSpecial] on
    it may also have ['www'] before, between or after these parts, set
    off by hyphens.  There are no other labels. *)
Theorem generateRandomSubdomain_forms (i : nat) :
  valid_config cfg = true ->
  let label := fst (generateRandomSubdomain cfg random i) in
  exists prefix, In prefix (subDomainPrefixes cfg) /\
    ((label = prefix \/
      includeWwwAsSpecial cfg = true /\
      (label = "www-" ++ prefix \/ label = prefix ++ "-www")) \/
     exists s,
       (min (subDomainRandomLength cfg) <= Z.of_nat (String.length s)
          <= max (subDomainRandomLength cfg) /\
        string_forall lower_alnum s = true) /\
       (label = prefix ++ "-" ++ s \/
        includeWwwAsSpecial cfg = true /\
        (label = "www-" ++ prefix ++ "-" ++ s \/
         label = prefix ++ "-www-" ++ s \/
         label = prefix ++ "-" ++ s ++ "-www")))%string.
Proof.
  intros cfg_valid label.
  destruct (generateRandomSubdomain_valid_parts i cfg_valid)
    as (prefix & base & parts & j & Hin & Hbase & Hparts & Heq & _).
  unfold label. rewrite Heq. cbn [fst]. clear label Heq.
  exists prefix. split; [exact Hin |].
  apply (label_forms cfg prefix
           (fun s => min (subDomainRandomLength cfg) <= Z.of_nat (String.length s)
                       <= max (subDomainRandomLength cfg) /\
                     string_forall lower_alnum s = true) base parts);
    [| exact Hparts].
  destruct Hbase as [-> | (s & -> & Hs)]; [left; reflexivity | right; eauto].
Qed.

(** X6: with an empty list of prefixes nothing fails: the prefix is
    [undefined], which [join] renders as the empty string, and the labels
    are those of a valid configuration with the empty string for prefix:
    the empty label, or one that begins or ends with a hyphen or has two
    hyphens in a row. *)
Theorem generateRandomSubdomain_no_prefixes (i : nat) :
  subDomainPrefixes cfg = [] ->
  let label := fst (generateRandomSubdomain cfg random i) in
  ((label = EmptyString \/
    includeWwwAsSpecial cfg = true /\ (label = "www-" \/ label = "-www")) \/
   exists s,
     string_forall lower_alnum s = true /\
     (label = "-" ++ s \/
      includeWwwAsSpecial cfg = true /\
      (label = "www--" ++ s \/ label = "-www-" ++ s \/ label = "-" ++ s ++ "-www")))%string.
Proof.
  intros Hempty label.
  pose proof (generateRandomSubdomain_parts cfg random random_unit i) as Hparts.
  cbv zeta in Hparts. rewrite Hempty, Array_get_nil in Hparts. cbn [default] in Hparts.
  destruct Hparts as (base & parts & j & Hbase & Hins & Heq & _).
  unfold label. rewrite Heq. cbn [fst]. clear label Heq.
  apply (label_forms cfg EmptyString (fun s => string_forall lower_alnum s = true)
           base parts); [| exact Hins].
  destruct Hbase as [[-> _] | (s & -> & _ & Hall & _)]; [left; reflexivity | right; eauto].
Qed.

End Labels.

Lemma generateRandomSubdomain_forms_witness :
  let cfg := domainConfig in
  let label := fst (generateRandomSubdomain cfg sample_source 0%nat) in
  ((forall i, unit_interval (sample_source i) = true) /\ valid_config cfg = true) /\
  exists prefix, In prefix (subDomainPrefixes cfg) /\
    ((label = prefix \/
      includeWwwAsSpecial cfg = true /\
      (label = "www-" ++ prefix \/ label = prefix ++ "-www")) \/
     exists s,
       (min (subDomainRandomLength cfg) <= Z.of_nat (String.length s)
          <= max (subDomainRandomLength cfg) /\
        string_forall lower_alnum s = true) /\
       (label = prefix ++ "-" ++ s \/
        includeWwwAsSpecial cfg = true /\
        (label = "www-" ++ prefix ++ "-" ++ s \/
         label = prefix ++ "-www-" ++ s \/
         label = prefix ++ "-" ++ s ++ "-www")))%string.
Proof.
  cbn zeta. split; [split; [exact sample_source_unit | reflexivity] |].
  apply (generateRandomSubdomain_forms domainConfig sample_source sample_source_unit
           0%nat eq_refl).
Defined.

Lemma generateRandomSubdomain_no_prefixes_witness :
  let cfg := config_without_prefixes in
  let label := fst (generateRandomSubdomain cfg sample_source 0%nat) in
  ((forall i, unit_interval (sample_source i) = true) /\ subDomainPrefixes cfg = []) /\
  ((label = EmptyString \/
    includeWwwAsSpecial cfg = true /\ (label = "www-" \/ label = "-www")) \/
   exists s,
     string_forall lower_alnum s = true /\
     (label = "-" ++ s \/
      includeWwwAsSpecial cfg = true /\
      (label = "www--" ++ s \/ label = "-www-" ++ s \/ label = "-" ++ s ++ "-www")))%string.
Proof.
  cbn zeta. split; [split; [exact sample_source_unit | reflexivity] |].
  apply (generateRandomSubdomain_no_prefixes config_without_prefixes sample_source
           sample_source_unit 0%nat eq_refl).
Defined.

(** *** Host name labels *)

Lemma string_last_app (s1 s2 : string) :
  s2 <> EmptyString -> string_last (s1 ++ s2) = string_last s2.
Proof.
  intros Hne. induction s1 as [| c s1 IH]; [now rewrite append_nil_l |].
  rewrite append_cons. cbn [string_last]. rewrite IH.
  destruct (s1 ++ s2)%string eqn:Heq; [| reflexivity].
  destruct s1; [rewrite append_nil_l in Heq; congruence |].
  rewrite append_cons in Heq. discriminate Heq.
Qed.

(** Words joined by hyphens: the characters are those of a label, the
    first and the last are not hyphens, and the length is that of the
    words and the hyphens. *)
Lemma concat_words (parts : list string) :
  parts <> [] -> Forall (fun s => is_word s = true) parts ->
  let label := String.concat "-" parts in
  label <> EmptyString /\
  string_forall label_char label = true /\
  match label with String c _ => lower_alnum c | EmptyString => false end = true /\
  match string_last label with Some c => lower_alnum c | None => false end = true /\
  Z.of_nat (String.length label)
  = Z.of_nat (list_sum (map String.length parts)) + Z.of_nat (List.length parts) - 1.
Proof.
  induction parts as [| x parts IH]; [congruence |].
  intros _ Hall. apply Forall_cons in Hall as [Hx Hparts].
  destruct (is_word_spec x Hx) as [Hne Hxall].
  assert (Hxfirst : match x with String c _ => lower_alnum c | EmptyString => false end = true).
  { destruct x as [| c x]; [congruence |]. cbn in Hxall.
    apply andb_prop in Hxall. apply Hxall. }
  assert (Hxlast : match string_last x with Some c => lower_alnum c | None => false end = true).
  { clear - Hne Hxall. induction x as [| c x IHx]; [congruence |].
    cbn in Hxall. apply andb_prop in Hxall as [Hc Hrest].
    destruct x as [| c' x]; [exact Hc |].
    change (string_last (String c (String c' x))) with (string_last (String c' x)).
    apply IHx; [discriminate | exact Hrest]. }
  destruct parts as [| y ys]; cbn zeta.
  - cbn [String.concat map list_sum fold_right List.length].
    split; [exact Hne |]. split; [| split; [exact Hxfirst | split; [exact Hxlast | lia]]].
    revert Hxall. apply string_forall_weaken, lower_alnum_label_char.
  - destruct (IH ltac:(congruence) Hparts) as (IHne & IHall & _ & IHlast & IHlen).
    cbn zeta in IHne, IHall, IHlast, IHlen.
    change (String.concat "-" (x :: y :: ys))
      with (x ++ "-" ++ String.concat "-" (y :: ys))%string.
    set (rest := String.concat "-" (y :: ys)) in *.
    split; [destruct x; [congruence | rewrite append_cons; discriminate] |].
    split; [| split; [| split]].
    + rewrite !string_forall_app, IHall, andb_true_r.
      rewrite (string_forall_weaken lower_alnum label_char x lower_alnum_label_char Hxall).
      reflexivity.
    + destruct x as [| c x]; [congruence |]. rewrite append_cons. exact Hxfirst.
    + rewrite string_last_app.
      * rewrite string_last_app by exact IHne. exact IHlast.
      * destruct rest; discriminate.
    + rewrite !string_length_app.
      cbn [map list_sum fold_right List.length String.length] in *. lia.
Qed.

Section Hosts.

Variable cfg : DomainConfig.
Variable random : RandomSource.
Hypothesis random_unit : forall i, unit_interval (random i) = true.

(** X3: when the prefixes are words over [[a-z0-9]] and a prefix, a
    random string, ['www'] and two hyphens make up at most 63 characters
    (as for the shipped configuration, where they are at most 18), every
    label generated is a label of a host name: 1 to 63 characters of
    [[a-z0-9-]], with no hyphen at either end. *)
Theorem generateRandomSubdomain_host_label (i : nat) :
  host_config cfg = true ->
  host_label (fst (generateRandomSubdomain cfg random i)) = true.
Proof.
  intros Hhost. unfold host_config in Hhost.
  apply andb_prop in Hhost as [cfg_valid Hprefixes].
  rewrite forallb_forall in Hprefixes.
  destruct (valid_config_inv cfg cfg_valid) as (_ & _ & _ & Hmin & Hmax).
  destruct (generateRandomSubdomain_valid_parts cfg random random_unit i cfg_valid)
    as (prefix & base & parts & j & Hin & Hbase & Hparts & Heq & _).
  rewrite Heq. cbn [fst]. clear Heq.
  specialize (Hprefixes prefix Hin). apply andb_prop in Hprefixes as [Hword Hlen].
  apply Z.leb_le in Hlen.
  assert (Hwww : is_word "www" = true) by reflexivity.
  assert (Hbase' : Forall (fun s => is_word s = true) base /\ base <> [] /\
            Z.of_nat (list_sum (map String.length base)) + Z.of_nat (List.length base)
            <= Z.of_nat (String.length prefix) + max (subDomainRandomLength cfg) + 2).
  { destruct Hbase as [-> | (s & -> & Hs & Hall)].
    - split; [now apply Forall_singleton |]. split; [discriminate |].
      cbn [map list_sum fold_right List.length]. lia.
    - split; [| split; [discriminate | cbn [map list_sum fold_right List.length]; lia]].
      apply Forall_cons. split; [exact Hword |]. apply Forall_singleton.
      unfold is_word. rewrite Hall, andb_true_r.
      destruct s; [cbn in Hs; lia | reflexivity]. }
  destruct Hbase' as (Hwords & Hne & Hsum).
  assert (Hparts' : Forall (fun s => is_word s = true) parts /\ parts <> [] /\
            Z.of_nat (list_sum (map String.length parts)) + Z.of_nat (List.length parts)
            <= Z.of_nat (String.length prefix) + max (subDomainRandomLength cfg) + 6).
  { destruct Hparts as [-> | (_ & p & Hp & ->)]; [split; [exact Hwords | split; [exact Hne | lia]] |].
    split; [| split].
    - apply Forall_app. split; [now apply Forall_take |].
      apply Forall_cons. split; [exact Hwww | now apply Forall_drop].
    - intros Happ. apply app_eq_nil in Happ as [_ Happ]. discriminate Happ.
    - rewrite map_app, list_sum_app, length_app. cbn [map List.length String.length].
      change (list_sum (3%nat :: map String.length (drop p base)))
        with (3 + list_sum (map String.length (drop p base)))%nat.
      rewrite <- (take_drop p base) in Hsum at 1 2.
      rewrite map_app, list_sum_app, length_app in Hsum. lia. }
  destruct Hparts' as (Hall & Hne' & Hsum').
  destruct (concat_words parts Hne' Hall) as (Hlne & Hchars & Hfirst & Hlast & Hlength).
  cbn zeta in Hlne, Hchars, Hfirst, Hlast, Hlength.
  unfold host_label. rewrite Hchars, Hfirst, Hlast, !andb_true_r.
  apply andb_true_intro. split; [apply Z.leb_le | apply Z.leb_le; lia].
  destruct (String.concat "-" parts); [congruence | cbn [String.length]; lia].
Qed.

(** X10: on a valid configuration [buildRedirectURL] calls
    [Math.random()] at least 4 times and at most [max + 7] times (prefix,
    decision, length, [max] characters, decision and position of ['www'],
    top-level domain, scheme). *)
Theorem buildRedirectURL_draws (i : nat) :
  valid_config cfg = true ->
  let j := snd (buildRedirectURL cfg random i) in
  (i + 4 <= j)%nat /\
  Z.of_nat j <= Z.of_nat i + 7 + max (subDomainRandomLength cfg).
Proof.
  intros cfg_valid.
  destruct (generateRandomSubdomain_valid_parts cfg random random_unit i cfg_valid)
    as (prefix & base & parts & j & _ & _ & _ & Heq & Hlo & Hhi).
  cbv zeta. rewrite buildRedirectURL_eq, Heq. cbn [snd]. lia.
Qed.

End Hosts.

Lemma generateRandomSubdomain_host_label_witness :
  ((forall i, unit_interval (sample_source i) = true) /\ host_config domainConfig = true) /\
  host_label (fst (generateRandomSubdomain domainConfig sample_source 0%nat)) = true.
Proof.
  split; [split; [exact sample_source_unit | reflexivity] |].
  apply (generateRandomSubdomain_host_label domainConfig sample_source sample_source_unit
           0%nat eq_refl).
Defined.

Lemma buildRedirectURL_draws_witness :
  let j := snd (buildRedirectURL domainConfig sample_source 0%nat) in
  ((forall i, unit_interval (sample_source i) = true) /\ valid_config domainConfig = true) /\
  (0 + 4 <= j)%nat /\
  Z.of_nat j <= Z.of_nat 0 + 7 + max (subDomainRandomLength domainConfig).
Proof.
  cbn zeta. split; [split; [exact sample_source_unit | reflexivity] |].
  apply (buildRedirectURL_draws domainConfig sample_source sample_source_unit
           0%nat eq_refl).
Defined.

(** ** Empty lists *)

(** X8: with an empty list of top-level domains nothing fails: the
    domain chosen is [undefined], and the URL ends in [.undefined]. *)
Theorem buildRedirectURL_no_domains (cfg : DomainConfig) (random : RandomSource) (i : nat) :
  topLevelDomains cfg = [] ->
  let label := fst (generateRandomSubdomain cfg random i) in
  let url := fst (buildRedirectURL cfg random i) in
  url = ("https://" ++ label ++ ".undefined")%string \/
  url = ("http://" ++ label ++ ".undefined")%string.
Proof.
  intros Hempty. cbv zeta. rewrite buildRedirectURL_eq.
  destruct (generateRandomSubdomain cfg random i) as [label j]. cbn [fst].
  rewrite Hempty, Array_get_nil.
  destruct (Number_gt (random (S j)) (decimal 5 10)); [left | right]; reflexivity.
Qed.


Lemma buildRedirectURL_no_domains_witness :
  let cfg := config_without_domains in
  let label := fst (generateRandomSubdomain cfg sample_source 0%nat) in
  let url := fst (buildRedirectURL cfg sample_source 0%nat) in
  topLevelDomains cfg = [] /\
  (url = ("https://" ++ label ++ ".undefined")%string \/
   url = ("http://" ++ label ++ ".undefined")%string).
Proof.
  cbn zeta. split; [reflexivity |].
  apply (buildRedirectURL_no_domains config_without_domains sample_source 0%nat eq_refl).
Defined.

(** The labels and URLs of the emptied configurations, for the sample
    source and for a source of zeros. *)
Example empty_lists :
  fst (buildRedirectURL config_without_domains sample_source 0%nat)
  = "https://www-dr4hv.undefined"%string /\
  fst (buildRedirectURL config_without_prefixes sample_source 0%nat)
  = "https://-dr4hv.demo.org"%string /\
  fst (buildRedirectURL config_without_prefixes (fun _ => S754_zero false) 0%nat)
  = "http://www-.example.com"%string.
Proof. vm_compute. repeat split; reflexivity. Qed.
(** ** The thresholds 0.3 and 0.5 *)

(** The literal [0.3] separates the draws above three tenths from the
    others: no binary64 lies between the literal and three tenths. *)
Lemma gt_three_tenths (r : Number) :
  unit_interval r = true ->
  Number_gt r (decimal 3 10) = true <-> (3 # 10 < Number_value r)%Q.
Proof.
  intros Hr.
  assert (Hlit : decimal 3 10 = S754_finite false 5404319552844595 (-54))
    by (vm_compute; reflexivity).
  rewrite Hlit. clear Hlit.
  destruct r as [[] | | | [] m e]; try discriminate Hr.
  - split; [discriminate | intros H; discriminate H].
  - destruct (unit_interval_canonical m e Hr) as (He & Hm & Hnorm).
    destruct (value_finite m e ltac:(lia)) as [-> HD].
    unfold Qlt. cbn [Qnum Qden]. rewrite HD.
    unfold Number_gt, SFltb, SFcompare.
    assert (Hcmp : forall k, PosDef.Pos.compare_cont Eq k m = Pos.compare k m)
      by reflexivity.
    rewrite Hcmp. clear Hcmp Hr HD.
    assert (H52 : 2 ^ 52 = 4503599627370496) by (vm_compute; reflexivity).
    assert (H53 : 2 ^ 53 = 9007199254740992) by (vm_compute; reflexivity).
    assert (H54 : 2 ^ 54 = 18014398509481984) by (vm_compute; reflexivity).
    assert (H55 : 2 ^ 55 = 36028797018963968) by (vm_compute; reflexivity).
    rewrite H52 in Hnorm. rewrite H53 in Hm.
    destruct (Z.compare_spec (-54) e) as [<- | Hlt | Hgt].
    + replace (- -54) with 54 by reflexivity. rewrite H54.
      rewrite Pos2Z.inj_compare.
      destruct (Z.compare_spec 5404319552844595 (Z.pos m)) as [Hm' | Hm' | Hm'];
        (split; [intros H; try discriminate H; lia | intros H; try reflexivity; lia]).
    + split; [intros _ | reflexivity].
      destruct Hnorm as [-> | Hnorm]; [lia |].
      assert (2 ^ (- e) <= 2 ^ 53) by (apply Z.pow_le_mono_r; lia).
      rewrite H53 in *. lia.
    + split; [discriminate |]. intros H. exfalso.
      assert (2 ^ 55 <= 2 ^ (- e)) by (apply Z.pow_le_mono_r; lia).
      rewrite H55 in *. lia.
Qed.

(** The literal [0.5] is one half. *)
Lemma gt_one_half (r : Number) :
  unit_interval r = true ->
  Number_gt r (decimal 5 10) = true <-> (1 # 2 < Number_value r)%Q.
Proof.
  intros Hr.
  assert (Hlit : decimal 5 10 = S754_finite false 4503599627370496 (-53))
    by (vm_compute; reflexivity).
  rewrite Hlit. clear Hlit.
  destruct r as [[] | | | [] m e]; try discriminate Hr.
  - split; [discriminate | intros H; discriminate H].
  - destruct (unit_interval_canonical m e Hr) as (He & Hm & Hnorm).
    destruct (value_finite m e ltac:(lia)) as [-> HD].
    unfold Qlt. cbn [Qnum Qden]. rewrite HD.
    unfold Number_gt, SFltb, SFcompare.
    assert (Hcmp : forall k, PosDef.Pos.compare_cont Eq k m = Pos.compare k m)
      by reflexivity.
    rewrite Hcmp. clear Hcmp Hr HD.
    assert (H53 : 2 ^ 53 = 9007199254740992) by (vm_compute; reflexivity).
    assert (H54 : 2 ^ 54 = 18014398509481984) by (vm_compute; reflexivity).
    rewrite H53 in Hm.
    destruct (Z.compare_spec (-53) e) as [<- | Hlt | Hgt].
    + replace (- -53) with 53 by reflexivity. rewrite H53.
      rewrite Pos2Z.inj_compare.
      destruct (Z.compare_spec 4503599627370496 (Z.pos m)) as [Hm' | Hm' | Hm'];
        (split; [intros H; try discriminate H; lia | intros H; try reflexivity; lia]).
    + lia.
    + split; [discriminate |]. intros H. exfalso.
      assert (2 ^ 54 <= 2 ^ (- e)) by (apply Z.pow_le_mono_r; lia).
      rewrite H54 in *. lia.
Qed.

Section Thresholds.

Variable cfg : DomainConfig.
Variable random : RandomSource.

(** X4: the random string is pushed exactly when the second draw of
    [generateRandomSubdomain] is above three tenths: the parts are two
    then, and the prefix alone for a draw of at most three tenths. *)
Theorem random_string_threshold (i : nat) :
  unit_interval (random (S i)) = true ->
  List.length (fst (subdomain_parts cfg random i))
  = (if Qlt_le_dec (3 # 10) (Number_value (random (S i))) then 2 else 1)%nat.
Proof.
  intros Hunit.
  pose proof (gt_three_tenths (random (S i)) Hunit) as Hthr.
  unfold subdomain_parts. cbv zeta. rewrite bind_random_index, bind_Math_random.
  destruct (Qlt_le_dec (3 # 10) (Number_value (random (S i)))) as [Hlt | Hle].
  - rewrite (proj2 Hthr Hlt). rewrite bind_random_index, bind_eq.
    destruct (generateRandomString _ random _) as [s j]. reflexivity.
  - destruct (Number_gt (random (S i)) (decimal 3 10)); [| reflexivity].
    exfalso. apply (Qle_not_lt _ _ Hle). now apply Hthr.
Qed.

(** X9: the scheme is [https] exactly when the last draw of
    [buildRedirectURL] is above one half, and [http] for a draw of at
    most one half; the label is the one of [generateRandomSubdomain]. *)
Theorem scheme_threshold (i : nat) :
  let '(url, j) := buildRedirectURL cfg random i in
  let label := fst (generateRandomSubdomain cfg random i) in
  unit_interval (random (pred j)) = true ->
  exists tld : string,
    url = ((if Qlt_le_dec (1 # 2) (Number_value (random (pred j))) then "https" else "http")
           ++ "://" ++ label ++ "." ++ tld)%string.
Proof.
  unfold buildRedirectURL. rewrite bind_eq.
  destruct (generateRandomSubdomain cfg random i) as [label j1].
  unfold getRandomTopLevelDomain. rewrite bind_eq, bind_random_index.
  unfold ret at 1. rewrite bind_Math_random. unfold ret. cbn [fst pred].
  intros Hunit. pose proof (gt_one_half (random (S j1)) Hunit) as Hthr.
  eexists.
  destruct (Qlt_le_dec (1 # 2) (Number_value (random (S j1)))) as [Hlt | Hle].
  - rewrite (proj2 Hthr Hlt). reflexivity.
  - destruct (Number_gt (random (S j1)) (decimal 5 10)); [| reflexivity].
    exfalso. apply (Qle_not_lt _ _ Hle). now apply Hthr.
Qed.

End Thresholds.

Lemma random_string_threshold_witness :
  unit_interval (sample_source 1%nat) = true /\
  List.length (fst (subdomain_parts domainConfig sample_source 0%nat))
  = (if Qlt_le_dec (3 # 10) (Number_value (sample_source 1%nat)) then 2 else 1)%nat.
Proof.
  split; [reflexivity |].
  apply (random_string_threshold domainConfig sample_source 0%nat). reflexivity.
Defined.

Lemma scheme_threshold_witness :
  let '(url, j) := buildRedirectURL domainConfig sample_source 0%nat in
  let label := fst (generateRandomSubdomain domainConfig sample_source 0%nat) in
  unit_interval (sample_source (pred j)) = true /\
  exists tld : string,
    url = ((if Qlt_le_dec (1 # 2) (Number_value (sample_source (pred j)))
            then "https" else "http")
           ++ "://" ++ label ++ "." ++ tld)%string.
Proof.
  pose proof (scheme_threshold domainConfig sample_source 0%nat) as H.
  destruct (buildRedirectURL domainConfig sample_source 0%nat) as [url j].
  cbn zeta in *. split; [apply sample_source_unit |].
  apply H. apply sample_source_unit.
Defined.

(** A draw of exactly one half gives [http], and a draw of exactly the
    literal [0.3] no random string. *)
Example thresholds_at_the_literals :
  fst (buildRedirectURL domainConfig (fun _ => decimal 5 10) 0%nat)
  = "http://shop-sssss.mysite.net"%string /\
  fst (generateRandomSubdomain domainConfig (fun _ => decimal 3 10) 0%nat)
  = "beta"%string.
Proof. vm_compute. split; reflexivity. Qed.
(** ** Every index is drawn *)

(** The Number [j / 2^53], for a positive integer [j] below [2^53], is a
    draw. *)
Lemma dyadic_unit (j : Z) :
  1 <= j < 2 ^ 53 ->
  exists m e, unit_interval (S754_finite false m e) = true /\
              e <= -53 /\ Z.pos m = j * 2 ^ (- 53 - e).
Proof.
  intros Hj. destruct j as [| p | p]; try lia.
  pose proof (digits_le p 53 ltac:(lia)) as Hd.
  pose proof (digits_upper p) as Hup.
  assert (Hcanon : forall (m : positive) (e : Z),
            Z.pos (digits2_pos m) = 53 -> -1074 <= e <= -53 ->
            Z.pos m < 2 ^ (- e) ->
            unit_interval (S754_finite false m e) = true).
  { intros m e Hdm He Hm. cbn [unit_interval]. unfold bounded, canonical_mantissa.
    rewrite fexp_binary64, Hdm.
    replace (Z.max (53 + e - 53) (-1074)) with e by lia.
    rewrite Z.eqb_refl.
    replace (e <=? emax - prec) with true
      by (symmetry; apply Z.leb_le; unfold emax, prec; lia).
    replace (e <=? 0) with true by (symmetry; apply Z.leb_le; lia).
    replace (Z.pos m <? 2 ^ (- e)) with true by (symmetry; apply Z.ltb_lt; exact Hm).
    reflexivity. }
  set (d := digits2_pos p) in *.
  destruct (53 - Z.pos d) as [| k | k] eqn:Hk; try lia.
  - exists p, (-53). split; [| split; [lia |]].
    + apply Hcanon; [fold d; lia | lia |]. exact (proj2 Hj).
    + replace (- 53 - -53) with 0 by lia. lia.
  - exists (Pos.iter xO p k), (- 53 - Z.pos k). split; [| split; [lia |]].
    + apply Hcanon; [rewrite iter_xO_digits; fold d; lia | lia |].
      rewrite iter_xO_pos.
      replace (- (- 53 - Z.pos k)) with (53 + Z.pos k) by lia.
      rewrite pow2_split by lia.
      pose proof (pow2_pos (Z.pos k) ltac:(lia)). nia.
    + rewrite iter_xO_pos. do 2 f_equal. lia.
Qed.

(** [Math.floor(Math.random() * n)] takes every value from 0 to
    [n - 1]: for each of them there is a draw that gives it. *)
Lemma random_index_onto (n k : Z) :
  1 <= n <= 2 ^ 52 -> 0 <= k < n ->
  exists r, unit_interval r = true /\ Math_floor (Number_mul r (Number_of_Z n)) = k.
Proof.
  intros Hn Hk.
  assert (H52 : 2 ^ 52 = 4503599627370496) by (vm_compute; reflexivity).
  assert (H53 : 2 ^ 53 = 9007199254740992) by (vm_compute; reflexivity).
  destruct (Z.eq_dec k 0) as [-> | Hk0].
  - exists (S754_zero false). split; [reflexivity |].
    apply floor_mul_cell; [reflexivity | lia | lia | |]; cbn [Number_value].
    + unfold Qle, Qmult, inject_Z. cbn [Qnum Qden]. lia.
    + unfold Qle, Qmult, Qminus, Qplus, Qopp, inject_Z. cbn [Qnum Qden]. lia.
  - set (j := (k * 2 ^ 53 + n - 1) / n).
    pose proof (Z.div_mod (k * 2 ^ 53 + n - 1) n ltac:(lia)) as Hdm.
    pose proof (Z.mod_pos_bound (k * 2 ^ 53 + n - 1) n ltac:(lia)) as Hrem.
    fold j in Hdm.
    assert (Hlo : k * 2 ^ 53 <= n * j) by lia.
    assert (Hhi : n * j <= k * 2 ^ 53 + n - 1) by lia.
    assert (Hj : 1 <= j < 2 ^ 53) by (rewrite H53 in *; nia).
    destruct (dyadic_unit j Hj) as (m & e & Hunit & He & Hm).
    exists (S754_finite false m e). split; [exact Hunit |].
    destruct (value_finite m e ltac:(lia)) as [Hval HD].
    pose proof (pow2_pos (- 53 - e) ltac:(lia)) as Hpos.
    assert (Hsplit : 2 ^ (- e) = 2 ^ 53 * 2 ^ (- 53 - e))
      by (rewrite <- pow2_split by lia; f_equal; lia).
    apply floor_mul_cell; [exact Hunit | lia | lia | |]; rewrite Hval.
    + apply Qle_scaled_l. rewrite HD, Hsplit, Hm. nia.
    + apply Qle_scaled_r. rewrite HD, Hsplit, Hm. rewrite H53 in *. nia.
Qed.

(** X18: for a length [n] from 1 to [2^52], the values of
    [Math.floor(Math.random() * n)] over the draws in [0, 1) are the
    indices 0 to [n - 1], all of them: the index is never [n] (the
    product is never rounded up to [n]), and no index is left out. *)
Theorem random_index_image (n : Z) :
  1 <= n <= 2 ^ 52 ->
  (forall (random : RandomSource) (i : nat),
     unit_interval (random i) = true ->
     exists k, random_index n random i = (k, S i) /\ 0 <= k < n) /\
  (forall k, 0 <= k < n ->
     exists r, unit_interval r = true /\
       forall (random : RandomSource) (i : nat),
         random i = r -> random_index n random i = (k, S i)).
Proof.
  intros Hn. split.
  - intros random i Hunit. eexists. split; [reflexivity |].
    apply floor_mul_unit; assumption.
  - intros k Hk. destruct (random_index_onto n k Hn Hk) as (r & Hunit & Hfloor).
    exists r. split; [exact Hunit |].
    intros random i Hr. unfold random_index. rewrite bind_Math_random, Hr, Hfloor.
    reflexivity.
Qed.

Lemma random_index_image_witness :
  1 <= 36 <= 2 ^ 52 /\
  (forall (random : RandomSource) (i : nat),
     unit_interval (random i) = true ->
     exists k, random_index 36 random i = (k, S i) /\ 0 <= k < 36) /\
  (forall k, 0 <= k < 36 ->
     exists r, unit_interval r = true /\
       forall (random : RandomSource) (i : nat),
         random i = r -> random_index 36 random i = (k, S i)).
Proof.
  assert (Hn : 1 <= 36 <= 2 ^ 52) by (split; [lia | vm_compute; discriminate]).
  split; [exact Hn |].
  apply (random_index_image 36 Hn).
Defined.

Lemma Array_get_elem {A} (xs : list A) (x : A) :
  In x xs -> exists k, 0 <= k < Z.of_nat (List.length xs) /\ Array_get xs k = Some x.
Proof.
  intros Hin. apply list_elem_of_In in Hin.
  apply list_elem_of_lookup_1 in Hin as [n Hn].
  pose proof (lookup_lt_Some _ _ _ Hn) as Hlt.
  exists (Z.of_nat n). split; [lia |].
  unfold Array_get.
  replace (0 <=? Z.of_nat n) with true by (symmetry; apply Z.leb_le; lia).
  now rewrite Nat2Z.id.
Qed.

(** X7: every top-level domain of the list, the last one included, is
    returned by [getRandomTopLevelDomain] for some draw in [0, 1). *)
Theorem getRandomTopLevelDomain_onto (cfg : DomainConfig) (tld : string) :
  Z.of_nat (List.length (topLevelDomains cfg)) <= 2 ^ 52 ->
  In tld (topLevelDomains cfg) ->
  exists r, unit_interval r = true /\
    forall (random : RandomSource) (i : nat),
      random i = r -> getRandomTopLevelDomain cfg random i = (Some tld, S i).
Proof.
  intros Hlen Hin.
  destruct (Array_get_elem _ _ Hin) as (k & Hk & Hget).
  destruct (random_index_onto (Z.of_nat (List.length (topLevelDomains cfg))) k
              ltac:(lia) Hk) as (r & Hunit & Hfloor).
  exists r. split; [exact Hunit |].
  intros random i Hr. unfold getRandomTopLevelDomain.
  rewrite bind_random_index, Hr, Hfloor, Hget. reflexivity.
Qed.

(** X5: on a valid configuration every prefix of the list goes with
    every length from [min] to [max], both ends included: for each pair
    there are draws in [0, 1) for which the label is the prefix, a
    hyphen and a random string of that length. *)
Theorem generateRandomSubdomain_onto (cfg : DomainConfig) (prefix : string) (L : Z) :
  valid_config cfg = true ->
  In prefix (subDomainPrefixes cfg) ->
  min (subDomainRandomLength cfg) <= L <= max (subDomainRandomLength cfg) ->
  exists random : RandomSource,
    (forall i, unit_interval (random i) = true) /\
    exists s, fst (generateRandomSubdomain cfg random 0%nat) = (prefix ++ "-" ++ s)%string /\
              Z.of_nat (String.length s) = L /\
              string_forall lower_alnum s = true.
Proof.
  intros cfg_valid Hin HL.
  destruct (valid_config_inv cfg cfg_valid) as (_ & Hpre & _ & Hmin & Hmax).
  destruct (Array_get_elem _ _ Hin) as (k & Hk & Hget).
  destruct (random_index_onto (Z.of_nat (List.length (subDomainPrefixes cfg))) k
              ltac:(lia) Hk) as (r0 & Hunit0 & Hfloor0).
  destruct (random_index_onto
              (max (subDomainRandomLength cfg) - min (subDomainRandomLength cfg) + 1)
              (L - min (subDomainRandomLength cfg)) ltac:(lia) ltac:(lia))
    as (r2 & Hunit2 & Hfloor2).
  set (random := fun idx : nat =>
         if (idx =? 0)%nat then r0 else if (idx =? 2)%nat then r2 else decimal 5 10).
  assert (Hunit : forall i, unit_interval (random i) = true).
  { intros i. unfold random.
    destruct (i =? 0)%nat; [exact Hunit0 |].
    destruct (i =? 2)%nat; [exact Hunit2 | reflexivity]. }
  exists random. split; [exact Hunit |].
  pose proof (subdomain_parts_spec cfg random Hunit 0) as Hspec. cbv zeta in Hspec.
  change (random 0%nat) with r0 in Hspec. change (random 2%nat) with r2 in Hspec.
  change (random 1%nat) with (decimal 5 10) in Hspec.
  rewrite Hfloor0, Hfloor2, Hget in Hspec.
  destruct Hspec as [[Hgt _] | [_ (s & Hs & Hall & Heq)]]; [discriminate Hgt |].
  exists s. split; [| split; [lia | exact Hall]].
  unfold generateRandomSubdomain. rewrite bind_eq, Heq, bind_eq.
  unfold insert_www. destruct (includeWwwAsSpecial cfg); [| reflexivity].
  rewrite bind_Math_random.
  change (random (0 + 3 + String.length s)%nat) with (decimal 5 10).
  reflexivity.
Qed.

Lemma getRandomTopLevelDomain_onto_witness :
  (Z.of_nat (List.length (topLevelDomains domainConfig)) <= 2 ^ 52 /\
   In "product.io"%string (topLevelDomains domainConfig)) /\
  exists r, unit_interval r = true /\
    forall (random : RandomSource) (i : nat),
      random i = r ->
      getRandomTopLevelDomain domainConfig random i = (Some "product.io"%string, S i).
Proof.
  assert (Hlen : Z.of_nat (List.length (topLevelDomains domainConfig)) <= 2 ^ 52)
    by (vm_compute; discriminate).
  assert (Hin : In "product.io"%string (topLevelDomains domainConfig))
    by (cbn; auto).
  split; [split; [exact Hlen | exact Hin] |].
  apply (getRandomTopLevelDomain_onto domainConfig "product.io" Hlen Hin).
Defined.

Lemma generateRandomSubdomain_onto_witness :
  (valid_config domainConfig = true /\
   In "service"%string (subDomainPrefixes domainConfig) /\
   min (subDomainRandomLength domainConfig) <= 6
     <= max (subDomainRandomLength domainConfig)) /\
  exists random : RandomSource,
    (forall i, unit_interval (random i) = true) /\
    exists s, fst (generateRandomSubdomain domainConfig random 0%nat)
              = ("service" ++ "-" ++ s)%string /\
              Z.of_nat (String.length s) = 6 /\
              string_forall lower_alnum s = true.
Proof.
  assert (Hin : In "service"%string (subDomainPrefixes domainConfig))
    by (cbn; tauto).
  assert (HL : min (subDomainRandomLength domainConfig) <= 6
               <= max (subDomainRandomLength domainConfig))
    by (cbn; lia).
  split; [split; [reflexivity | split; [exact Hin | exact HL]] |].
  apply (generateRandomSubdomain_onto domainConfig "service" 6 eq_refl Hin HL).
Defined.
(** ** The draws that give an index *)

Section Cells.

Variable r : Number.
Variable n : Z.
Hypothesis r_unit : unit_interval r = true.
Hypothesis n_range : 1 <= n <= 2 ^ 52.

(** A product of at least [pos] has a floor of at least [pos]. *)
Lemma floor_mul_at_least (pos : Z) :
  0 <= pos ->
  (inject_Z pos <= inject_Z n * Number_value r)%Q ->
  pos <= Math_floor (Number_mul r (Number_of_Z n)).
Proof.
  intros Hpos Hlo.
  destruct (Number_of_Z_exact n ltac:(lia)) as (mn & en & -> & Hen & Hmn).
  destruct r as [[] | | | [] mx ex]; try discriminate r_unit.
  - cbn [Number_value] in Hlo.
    assert (pos = 0); [| subst pos; reflexivity].
    revert Hlo. unfold Qle, Qmult, inject_Z. cbn [Qnum Qden]. lia.
  - destruct (unit_interval_bound mx ex r_unit) as [Hex Hmx].
    destruct (value_finite mx ex ltac:(lia)) as [Hval HD].
    rewrite Hval in Hlo.
    apply (proj1 (Qle_scaled_l _ _ _ _)) in Hlo. rewrite HD in Hlo.
    unfold Number_mul, SFmul. cbn [xorb].
    pose proof (pow2_pos (- ex - 53) ltac:(lia)) as Hb.
    pose proof (pow2_pos (- en) ltac:(lia)) as Hc.
    pose proof (pow2_pos (- ex) ltac:(lia)) as Hbx.
    assert (Hsplit : 2 ^ (- (ex + en)) = 2 ^ (- ex) * 2 ^ (- en))
      by (rewrite <- pow2_split by lia; f_equal; lia).
    assert (Hsplit53 : 2 ^ (- ex) = 2 ^ (- ex - 53) * 2 ^ 53)
      by (rewrite <- pow2_split by lia; f_equal; lia).
    assert (HM : Z.pos (mx * mn) < 2 ^ 52 * 2 ^ (- (ex + en))).
    { rewrite Pos2Z.inj_mul, Hmn, Hsplit. nia. }
    apply binary_round_aux_at_least; try lia.
    rewrite Pos2Z.inj_mul, Hmn, Hsplit. nia.
Qed.

(** A product of at most [bound - bound * 2^-53] has a floor below
    [bound]. *)
Lemma floor_mul_below (bound : Z) :
  1 <= bound <= 2 ^ 52 ->
  (inject_Z n * Number_value r <= inject_Z bound * (1 - (1 # 2 ^ 53)))%Q ->
  Math_floor (Number_mul r (Number_of_Z n)) < bound.
Proof.
  intros Hbound Hhi.
  destruct (Number_of_Z_exact n ltac:(lia)) as (mn & en & -> & Hen & Hmn).
  destruct r as [[] | | | [] mx ex]; try discriminate r_unit.
  - cbn. lia.
  - destruct (unit_interval_bound mx ex r_unit) as [Hex Hmx].
    destruct (value_finite mx ex ltac:(lia)) as [Hval HD].
    rewrite Hval in Hhi.
    apply (proj1 (Qle_scaled_r _ _ _ _)) in Hhi. rewrite HD in Hhi.
    unfold Number_mul, SFmul. cbn [xorb].
    pose proof (pow2_pos (- ex - 53) ltac:(lia)) as Hb.
    pose proof (pow2_pos (- en) ltac:(lia)) as Hc.
    pose proof (pow2_pos (- ex) ltac:(lia)) as Hbx.
    assert (Hsplit : 2 ^ (- (ex + en)) = 2 ^ (- ex) * 2 ^ (- en))
      by (rewrite <- pow2_split by lia; f_equal; lia).
    assert (Hsplit53 : 2 ^ (- ex) = 2 ^ (- ex - 53) * 2 ^ 53)
      by (rewrite <- pow2_split by lia; f_equal; lia).
    apply (binary_round_aux_below (mx * mn) (ex + en) bound
             (bound * 2 ^ (- ex - 53) * 2 ^ (- en))).
    + lia.
    + lia.
    + apply Z.mul_pos_pos; [apply Z.mul_pos_pos |]; lia.
    + rewrite Hsplit, Hsplit53. ring.
    + rewrite Pos2Z.inj_mul, Hmn. rewrite Hsplit53 in Hhi. nia.
Qed.

(** X19: which draws give which index.  For a draw [r] in [0, 1) and a
    length [n] from 1 to [2^52], the index [k = Math.floor(r * n)]
    satisfies [k - k * 2^-53 <= n * r < k + 1] for the exact product: it
    is the integer part of [n * r], or one more when [n * r] is within
    [k * 2^-53] of the next integer [k] and the product is rounded up to
    it.  So the draws that give [k] are those from [k / n] to
    [(k + 1) / n], up to a margin of [2^-53] at each end, and each index
    is as likely as any other up to that margin. *)
Theorem random_index_cell :
  let k := Math_floor (Number_mul r (Number_of_Z n)) in
  (inject_Z k * (1 - (1 # 2 ^ 53)) <= inject_Z n * Number_value r)%Q /\
  (inject_Z n * Number_value r < inject_Z (k + 1))%Q.
Proof.
  cbv zeta.
  destruct (floor_mul_unit r n r_unit n_range) as [_ Hk].
  set (k := Math_floor (Number_mul r (Number_of_Z n))) in *.
  split.
  - destruct (Qlt_le_dec (inject_Z n * Number_value r) (inject_Z k * (1 - (1 # 2 ^ 53))))
      as [Hlt | Hle]; [| exact Hle].
    exfalso.
    assert (Hk0 : k <> 0).
    { intros Hk0. rewrite Hk0 in Hlt.
      assert (Hnonneg : (0 <= inject_Z n * Number_value r)%Q); [| ].
      { apply Qmult_le_0_compat.
        - unfold Qle, inject_Z. cbn. lia.
        - destruct r as [[] | | | [] mx ex]; try discriminate r_unit.
          + cbn. apply Qle_refl.
          + destruct (unit_interval_bound mx ex r_unit) as [Hex _].
            destruct (value_finite mx ex ltac:(lia)) as [-> _].
            unfold Qle. cbn. lia. }
      apply (Qlt_not_le _ _ Hlt).
      eapply Qle_trans; [| exact Hnonneg].
      unfold Qle, Qmult, Qminus, Qplus, Qopp, inject_Z. cbn. lia. }
    pose proof (floor_mul_below k ltac:(lia) (Qlt_le_weak _ _ Hlt)) as Hbelow.
    fold k in Hbelow. lia.
  - destruct (Qlt_le_dec (inject_Z n * Number_value r) (inject_Z (k + 1)))
      as [Hlt | Hle]; [exact Hlt |].
    exfalso.
    pose proof (floor_mul_at_least (k + 1) ltac:(lia) Hle) as Hat.
    fold k in Hat. lia.
Qed.

End Cells.

Lemma random_index_cell_witness :
  let r := decimal 1 3 in
  let n := 3 in
  let k := Math_floor (Number_mul r (Number_of_Z n)) in
  (unit_interval r = true /\ 1 <= n <= 2 ^ 52) /\
  (inject_Z k * (1 - (1 # 2 ^ 53)) <= inject_Z n * Number_value r)%Q /\
  (inject_Z n * Number_value r < inject_Z (k + 1))%Q.
Proof.
  cbn zeta.
  assert (Hn : 1 <= 3 <= 2 ^ 52) by (split; [lia | vm_compute; discriminate]).
  split; [split; [reflexivity | exact Hn] |].
  apply (random_index_cell (decimal 1 3) 3 eq_refl Hn).
Defined.

(** The draw nearest to one third is below one third, and its product
    with 3 is rounded up to 1: the index is 1, though the integer part of
    the exact product is 0. *)
Example one_third_of_three :
  (inject_Z 3 * Number_value (decimal 1 3) < 1)%Q /\
  Math_floor (Number_mul (decimal 1 3) (Number_of_Z 3)) = 1.
Proof. split; reflexivity. Qed.
(** ** Integers as Numbers, exactly *)

(** Shifting out zero bits leaves neither a round bit nor a sticky bit. *)
Lemma shr_1_even (m : Z) :
  0 <= m -> m mod 2 = 0 ->
  shr_1 {| shr_m := m; shr_r := false; shr_s := false |}
  = {| shr_m := m / 2; shr_r := false; shr_s := false |}.
Proof.
  intros Hm Heven. destruct m as [| [q | q |] | q]; try lia.
  - reflexivity.
  - exfalso. rewrite Pos2Z.inj_xI in Heven.
    rewrite Z.add_comm, Z.mul_comm, Z.mod_add in Heven by lia. discriminate Heven.
  - cbn [shr_1 orb]. f_equal.
    rewrite Pos2Z.inj_xO, Z.mul_comm, Z.div_mul by lia. reflexivity.
  - discriminate Heven.
Qed.

Lemma iter_shr_1_exact (p : positive) (m : Z) :
  0 <= m -> m mod 2 ^ Z.pos p = 0 ->
  SpecFloat.iter_pos shr_1 p {| shr_m := m; shr_r := false; shr_s := false |}
  = {| shr_m := m / 2 ^ Z.pos p; shr_r := false; shr_s := false |}.
Proof.
  intros Hm. induction p as [| p IH] using Pos.peano_ind; intros Hmod.
  - cbn [SpecFloat.iter_pos]. change (2 ^ 1) with 2 in *. now apply shr_1_even.
  - rewrite iter_pos_succ.
    rewrite Pos2Z.inj_succ, Z.pow_succ_r in * by lia.
    pose proof (pow2_pos (Z.pos p) ltac:(lia)) as Hpos.
    assert (Hdiv : m = 2 * 2 ^ Z.pos p * (m / (2 * 2 ^ Z.pos p))).
    { pose proof (Z.div_mod m (2 * 2 ^ Z.pos p) ltac:(lia)). lia. }
    set (q := m / (2 * 2 ^ Z.pos p)) in *.
    assert (Hq : 0 <= q) by (apply Z.div_pos; lia).
    assert (Hmp : m / 2 ^ Z.pos p = 2 * q).
    { rewrite Hdiv. replace (2 * 2 ^ Z.pos p * q) with (2 * q * 2 ^ Z.pos p) by ring.
      apply Z.div_mul. lia. }
    rewrite IH.
    + rewrite Hmp, shr_1_even; [| lia |].
      * f_equal. rewrite Z.mul_comm, Z.div_mul by lia. reflexivity.
      * rewrite Z.mul_comm. apply Z.mod_mul. lia.
    + rewrite Hdiv. replace (2 * 2 ^ Z.pos p * q) with (2 * q * 2 ^ Z.pos p) by ring.
      apply Z.mod_mul. lia.
Qed.

(** A mantissa of 53 bits is kept as it is. *)
Lemma binary_round_aux_canonical (sx : bool) (mz : positive) (ez : Z) :
  Z.pos (digits2_pos mz) = 53 -> -1074 <= ez <= 971 ->
  binary_round_aux prec emax sx (Z.pos mz) ez loc_Exact = S754_finite sx mz ez.
Proof.
  intros Hdz Hez. unfold binary_round_aux, shr_fexp.
  cbn [Zdigits2 shr_record_of_loc]. rewrite fexp_binary64, Hdz.
  replace (Z.max (53 + ez - 53) (-1074) - ez) with 0 by lia.
  cbn [shr shr_m round_nearest_even loc_of_shr_record shr_record_of_loc Zdigits2].
  rewrite fexp_binary64, Hdz.
  replace (Z.max (53 + ez - 53) (-1074) - ez) with 0 by lia.
  cbn [shr shr_m].
  replace (ez <=? emax - prec) with true
    by (symmetry; apply Z.leb_le; unfold emax, prec; lia).
  reflexivity.
Qed.

Lemma digits_shift (n : positive) (j : Z) :
  0 <= j ->
  Z.pos (digits2_pos (Z.to_pos (Z.pos n * 2 ^ j))) = Z.pos (digits2_pos n) + j.
Proof.
  intros Hj. destruct j as [| jp | jp]; [| | lia].
  - rewrite Z.pow_0_r, Z.mul_1_r. cbn [Z.to_pos]. lia.
  - rewrite <- iter_xO_pos. cbn [Z.to_pos]. rewrite iter_xO_digits. lia.
Qed.

(** The Number of [N * 2^-k], for an integer [N] of at most 53 bits:
    the mantissa is [N], shifted to 53 bits. *)
Lemma binary_round_scaled (sx : bool) (N : positive) (k : Z) :
  Z.pos N < 2 ^ 53 -> 0 <= k <= 1000 ->
  let d := Z.pos (digits2_pos N) in
  binary_round prec emax sx (Z.to_pos (Z.pos N * 2 ^ k)) (- k)
  = S754_finite sx (Z.to_pos (Z.pos N * 2 ^ (53 - d))) (d - 53).
Proof.
  intros HN Hk d.
  pose proof (digits_le N 53 HN) as Hd53. fold d in Hd53.
  assert (Hd1 : 1 <= d) by (unfold d; lia).
  pose proof (pow2_pos k ltac:(lia)) as Hkpos.
  pose proof (pow2_pos (53 - d) ltac:(lia)) as Hcpos.
  set (M := Z.to_pos (Z.pos N * 2 ^ k)).
  assert (HM : Z.pos M = Z.pos N * 2 ^ k) by (unfold M; rewrite Z2Pos.id; lia).
  assert (HdM : Z.pos (digits2_pos M) = d + k) by (unfold M; now apply digits_shift).
  assert (Hto : forall a : positive, Z.pos a = Z.pos N * 2 ^ (53 - d) ->
            a = Z.to_pos (Z.pos N * 2 ^ (53 - d))).
  { intros a Ha. rewrite <- Ha. reflexivity. }
  unfold binary_round. rewrite fexp_binary64, HdM.
  replace (Z.max (d + k + - k - 53) (-1074)) with (d - 53) by lia.
  unfold shl_align.
  destruct (d - 53 - - k) as [| p | j] eqn:Hs.
  - (* the mantissa has 53 bits *)
    rewrite binary_round_aux_canonical by lia.
    replace (- k) with (d - 53) by lia. f_equal.
    apply Hto. rewrite HM. do 2 f_equal. lia.
  - (* [p] zero bits are shifted out *)
    unfold binary_round_aux, shr_fexp.
    cbn [Zdigits2 shr_record_of_loc]. rewrite fexp_binary64, HdM.
    replace (Z.max (d + k + - k - 53) (-1074) - - k) with (Z.pos p) by lia.
    cbn [shr].
    assert (Hsplit : 2 ^ k = 2 ^ (53 - d) * 2 ^ Z.pos p)
      by (rewrite <- pow2_split by lia; f_equal; lia).
    pose proof (pow2_pos (Z.pos p) ltac:(lia)) as Hppos.
    assert (Hquot : Z.pos M / 2 ^ Z.pos p = Z.pos N * 2 ^ (53 - d)).
    { rewrite HM, Hsplit, Z.mul_assoc. apply Z.div_mul. lia. }
    rewrite iter_shr_1_exact; [| lia |].
    + cbn [shr_m loc_of_shr_record round_nearest_even]. rewrite Hquot.
      destruct (Z.pos N * 2 ^ (53 - d)) as [| mc | mc] eqn:Hmc; [lia | | lia].
      cbn [Zdigits2 shr_record_of_loc]. rewrite fexp_binary64.
      assert (Hdmc : Z.pos (digits2_pos mc) = 53).
      { assert (Hmc' : mc = Z.to_pos (Z.pos N * 2 ^ (53 - d)))
          by (rewrite Hmc; reflexivity).
        rewrite Hmc', digits_shift by lia. fold d. lia. }
      rewrite Hdmc.
      replace (Z.max (53 + (- k + Z.pos p) - 53) (-1074) - (- k + Z.pos p)) with 0 by lia.
      cbn [shr shr_m].
      replace (- k + Z.pos p <=? emax - prec) with true
        by (symmetry; apply Z.leb_le; unfold emax, prec; lia).
      f_equal. lia.
    + rewrite HM, Hsplit, Z.mul_assoc. apply Z.mod_mul. lia.
  - (* the mantissa is shifted to 53 bits *)
    rewrite binary_round_aux_canonical; [| rewrite iter_xO_digits; lia | lia].
    f_equal. apply Hto. rewrite iter_xO_pos, HM, <- Z.mul_assoc, <- pow2_split by lia.
    do 2 f_equal. lia.
Qed.

(** The Number of a non-zero integer of at most 53 bits. *)
Lemma Number_of_Z_canonical (sx : bool) (N : positive) :
  Z.pos N < 2 ^ 53 ->
  let d := Z.pos (digits2_pos N) in
  Number_of_Z (cond_Zopp sx (Z.pos N))
  = S754_finite sx (Z.to_pos (Z.pos N * 2 ^ (53 - d))) (d - 53).
Proof.
  intros HN d.
  pose proof (binary_round_scaled sx N 0 HN ltac:(lia)) as H. cbv zeta in H.
  rewrite Z.pow_0_r, Z.mul_1_r in H. cbn [Z.to_pos Z.opp] in H.
  unfold d. rewrite <- H. destruct sx; reflexivity.
Qed.

(** The Numbers of two positive integers, one of them of at most 53 bits,
    differ. *)
Lemma Number_of_Z_inj (a b : positive) :
  Z.pos b < 2 ^ 53 ->
  Number_of_Z (Z.pos a) = Number_of_Z (Z.pos b) -> a = b.
Proof.
  intros Hb Heq.
  pose proof (Number_of_Z_canonical false b Hb) as Hcb. cbv zeta in Hcb.
  cbn [cond_Zopp] in Hcb. rewrite Hcb in Heq.
  pose proof (digits_le b 53 Hb) as Hdb.
  destruct (Z_lt_le_dec (Z.pos a) (2 ^ 53)) as [Ha | Ha].
  - pose proof (Number_of_Z_canonical false a Ha) as Hca. cbv zeta in Hca.
    cbn [cond_Zopp] in Hca. rewrite Hca in Heq.
    pose proof (digits_le a 53 Ha) as Hda.
    injection Heq as Hm He.
    assert (Hd : Z.pos (digits2_pos a) = Z.pos (digits2_pos b)) by lia.
    rewrite Hd in Hm.
    pose proof (pow2_pos (53 - Z.pos (digits2_pos b)) ltac:(lia)) as Hpos.
    apply (f_equal Z.pos) in Hm. rewrite !Z2Pos.id in Hm by lia.
    assert (Z.pos a = Z.pos b) by nia. congruence.
  - exfalso.
    assert (Hda : 54 <= Z.pos (digits2_pos a)).
    { pose proof (digits_upper a) as Hup.
      destruct (Z_lt_le_dec (Z.pos (digits2_pos a)) 54) as [Hlt | Hge]; [| exact Hge].
      assert (2 ^ Z.pos (digits2_pos a) <= 2 ^ 53) by (apply Z.pow_le_mono_r; lia).
      lia. }
    destruct (Number_of_Z_shape false a) as [H | (m & e & H & He)];
      cbn [cond_Zopp] in H; rewrite H in Heq; [discriminate Heq |].
    injection Heq as _ He'. lia.
Qed.

(** The integer that the Number of an integer of at most 53 bits is. *)
Lemma integer_value_of_Z (N : positive) :
  Z.pos N < 2 ^ 53 -> integer_value (Number_of_Z (Z.pos N)) = Some (Z.pos N).
Proof.
  intros HN.
  pose proof (Number_of_Z_canonical false N HN) as Hc. cbv zeta in Hc.
  cbn [cond_Zopp] in Hc. rewrite Hc. clear Hc.
  pose proof (digits_le N 53 HN) as Hd.
  set (d := Z.pos (digits2_pos N)) in *.
  assert (Hd1 : 1 <= d) by (unfold d; lia).
  pose proof (pow2_pos (53 - d) ltac:(lia)) as Hpos.
  cbn [integer_value cond_Zopp]. rewrite Z2Pos.id by lia.
  destruct (0 <=? d - 53) eqn:Hsign.
  - apply Z.leb_le in Hsign. replace (53 - d) with 0 by lia.
    replace (d - 53) with 0 by lia. rewrite Z.pow_0_r. f_equal. lia.
  - replace (- (d - 53)) with (53 - d) by lia.
    rewrite Z.mod_mul by lia. cbn [Z.eqb]. rewrite Z.div_mul by lia. reflexivity.
Qed.

(** Adding one to the Number of an integer is exact. *)
Lemma Number_add_one (z : Z) :
  - 2 ^ 53 < z < 2 ^ 53 - 1 ->
  Number_add (Number_of_Z z) (Number_of_Z 1) = Number_of_Z (z + 1).
Proof.
  intros Hz.
  assert (H53 : 2 ^ 53 = 9007199254740992) by (vm_compute; reflexivity).
  assert (Hone : Number_of_Z 1 = S754_finite false 4503599627370496 (-52)) by reflexivity.
  assert (H52 : Z.pos 4503599627370496 = 2 ^ 52) by (vm_compute; reflexivity).
  assert (Haligned : forall (sx : bool) (N : positive), Z.pos N < 2 ^ 53 ->
            let d := Z.pos (digits2_pos N) in
            Number_add (S754_finite sx (Z.to_pos (Z.pos N * 2 ^ (53 - d))) (d - 53))
                       (S754_finite false 4503599627370496 (-52))
            = binary_normalize prec emax
                (cond_Zopp sx (Z.pos N * 2 ^ 52) + 2 ^ 52) (-52) false).
  { intros sx N HN d.
    pose proof (digits_le N 53 HN) as Hd. fold d in Hd.
    assert (Hd1 : 1 <= d) by (unfold d; lia).
    pose proof (pow2_pos (53 - d) ltac:(lia)) as Hpos.
    unfold Number_add, SFadd. cbv zeta.
    replace (Z.min (d - 53) (-52)) with (-52) by lia.
    unfold shl_align. replace (-52 - -52) with 0 by lia. cbn [fst].
    rewrite H52. do 2 f_equal.
    destruct (-52 - (d - 53)) as [| j | j] eqn:Hj; cbn [fst]; [| lia |].
    - rewrite Z2Pos.id by lia. replace (53 - d) with 52 by lia. reflexivity.
    - rewrite iter_xO_pos, Z2Pos.id by lia.
      rewrite <- Z.mul_assoc, <- pow2_split by lia. do 3 f_equal. lia. }
  destruct z as [| N | N].
  - reflexivity.
  - pose proof (Number_of_Z_canonical false N ltac:(lia)) as Hc. cbv zeta in Hc.
    cbn [cond_Zopp] in Hc. rewrite Hc, Hone, Haligned by lia. cbn [cond_Zopp].
    replace (Z.pos N * 2 ^ 52 + 2 ^ 52) with (Z.pos (N + 1) * 2 ^ 52) by lia.
    pose proof (pow2_pos 52 ltac:(lia)) as Hpos.
    pose proof (binary_round_scaled false (N + 1) 52 ltac:(lia) ltac:(lia)) as Hs.
    cbv zeta in Hs.
    pose proof (Number_of_Z_canonical false (N + 1) ltac:(lia)) as Hc'. cbv zeta in Hc'.
    cbn [cond_Zopp] in Hc'.
    replace (Z.pos N + 1) with (Z.pos (N + 1)) by lia.
    rewrite Hc', <- Hs.
    destruct (Z.pos (N + 1) * 2 ^ 52) as [| q | q] eqn:Hq; [lia | reflexivity | lia].
  - pose proof (Number_of_Z_canonical true N ltac:(lia)) as Hc. cbv zeta in Hc.
    cbn [cond_Zopp] in Hc. change (- Z.pos N) with (Z.neg N) in Hc.
    rewrite Hc, Hone, Haligned by lia. cbn [cond_Zopp].
    destruct (Pos.eq_dec N 1%positive) as [-> | HN1].
    + reflexivity.
    + assert (HN : 2 <= Z.pos N) by lia.
      replace (- (Z.pos N * 2 ^ 52) + 2 ^ 52) with (- (Z.pos (N - 1) * 2 ^ 52)) by lia.
      pose proof (pow2_pos 52 ltac:(lia)) as Hpos.
      pose proof (binary_round_scaled true (N - 1) 52 ltac:(lia) ltac:(lia)) as Hs.
      cbv zeta in Hs.
      pose proof (Number_of_Z_canonical true (N - 1) ltac:(lia)) as Hc'. cbv zeta in Hc'.
      cbn [cond_Zopp] in Hc'.
      replace (Z.neg N + 1) with (- Z.pos (N - 1)) by lia.
      rewrite Hc', <- Hs.
      destruct (Z.pos (N - 1) * 2 ^ 52) as [| q | q] eqn:Hq; [lia | reflexivity | lia].
Qed.
(** ** Decimal digits, written and read *)

Lemma parse_digits_uint (d : Decimal.uint) (acc : Z) :
  parse_digits (NilEmpty.string_of_uint d) (Some acc) = Some (uint_value d acc).
Proof.
  revert acc. induction d; intros acc; cbn [NilEmpty.string_of_uint parse_digits uint_value];
    try reflexivity;
    match goal with
    | |- context [digit_value ?c] =>
        let v := eval vm_compute in (digit_value c) in
        change (digit_value c) with v
    end; unfold default; cbn [from_option id]; rewrite IHd; do 2 f_equal; lia.
Qed.

Lemma uint_value_acc (d : Decimal.uint) (acc : positive) :
  uint_value d (Z.pos acc) = Z.pos (Pos.of_uint_acc d acc).
Proof.
  revert acc. induction d; intros acc; cbn [uint_value Pos.of_uint_acc];
    try reflexivity;
    match goal with
    | |- uint_value _ ?a = _ =>
        match goal with
        | |- _ = Z.pos (Pos.of_uint_acc _ ?b) =>
            replace a with (Z.pos b) by lia
        end
    end; apply IHd.
Qed.

Lemma uint_value_of_uint (d : Decimal.uint) :
  uint_value d 0 = Z.of_N (N.of_uint d).
Proof.
  unfold N.of_uint.
  induction d; cbn [uint_value Pos.of_uint Z.of_N]; try reflexivity;
    try (rewrite <- uint_value_acc; reflexivity).
  exact IHd.
Qed.

(** The value lies between the accumulator and its successor, shifted
    by the digits. *)
Lemma uint_value_bounds (d : Decimal.uint) (acc : Z) :
  0 <= acc ->
  acc * 10 ^ Z.of_nat (Decimal.nb_digits d) <= uint_value d acc
  < (acc + 1) * 10 ^ Z.of_nat (Decimal.nb_digits d).
Proof.
  revert acc. induction d; intros acc Hacc; cbn [uint_value Decimal.nb_digits];
    try (rewrite Z.pow_0_r; lia);
    rewrite Nat2Z.inj_succ, Z.pow_succ_r by lia;
    match goal with
    | |- _ <= uint_value _ ?a < _ =>
        pose proof (IHd a ltac:(lia)) as IH
    end;
    pose proof (Z.pow_pos_nonneg 10 (Z.of_nat (Decimal.nb_digits d)) ltac:(lia) ltac:(lia));
    nia.
Qed.

Lemma string_of_uint_length (d : Decimal.uint) :
  String.length (NilEmpty.string_of_uint d) = Decimal.nb_digits d.
Proof. induction d; cbn; congruence. Qed.

(** What [digits_of] writes is read back by [parse_digits]. *)
Lemma parse_digits_digits_of (v : Z) :
  0 <= v -> parse_digits (digits_of v) None = Some v.
Proof.
  intros Hv. unfold digits_of.
  pose proof (DecimalN.Unsigned.of_to (Z.to_N v)) as Hof.
  pose proof (uint_value_of_uint (N.to_uint (Z.to_N v))) as Hval.
  rewrite Hof, Z2N.id in Hval by exact Hv.
  destruct (N.to_uint (Z.to_N v)) as [| d | d | d | d | d | d | d | d | d | d] eqn:Hd;
    cbn [NilZero.string_of_uint NilEmpty.string_of_uint parse_digits];
    cbn [uint_value] in Hval;
    try (match goal with
         | |- context [digit_value ?c] =>
             let r := eval vm_compute in (digit_value c) in
             change (digit_value c) with r
         end; unfold default; cbn [from_option id]; rewrite parse_digits_uint; f_equal; exact Hval).
  subst v. reflexivity.
Qed.

(** A positive integer has as many digits as its size in powers of ten. *)
Lemma digits_of_length (v : Z) :
  1 <= v ->
  let nd := Z.of_nat (String.length (digits_of v)) in
  10 ^ (nd - 1) <= v < 10 ^ nd.
Proof.
  intros Hv. unfold digits_of.
  pose proof (DecimalN.Unsigned.of_to (Z.to_N v)) as Hof.
  pose proof (DecimalN.Unsigned.to_of (N.to_uint (Z.to_N v))) as Hnorm.
  rewrite Hof in Hnorm.
  pose proof (uint_value_of_uint (N.to_uint (Z.to_N v))) as Hval.
  rewrite Hof, Z2N.id in Hval by lia.
  set (u := N.to_uint (Z.to_N v)) in *. clearbody u. clear Hof.
  destruct u as [| d | d | d | d | d | d | d | d | d | d];
    cbn [NilZero.string_of_uint NilEmpty.string_of_uint String.length uint_value] in *;
    try (rewrite string_of_uint_length, Nat2Z.inj_succ;
         replace (Z.succ (Z.of_nat (Decimal.nb_digits d)) - 1)
           with (Z.of_nat (Decimal.nb_digits d)) by lia;
         rewrite Z.pow_succ_r by lia;
         match goal with
         | H : uint_value d ?a = v |- _ =>
             pose proof (uint_value_bounds d a ltac:(lia)) as Hb; rewrite H in Hb
         end;
         pose proof (Z.pow_pos_nonneg 10 (Z.of_nat (Decimal.nb_digits d))
                       ltac:(lia) ltac:(lia));
         nia).
  - lia.
  - (* a leading zero: the digits are not those of a positive integer *)
    exfalso. rewrite DecimalFacts.unorm_D0 in Hnorm.
    destruct d as [| d | d | d | d | d | d | d | d | d | d];
      try (match type of Hnorm with
           | _ = Decimal.unorm ?u =>
               pose proof (DecimalFacts.nb_digits_unorm u ltac:(discriminate)) as Hlen
           end;
           rewrite <- Hnorm in Hlen; cbn [Decimal.nb_digits] in Hlen; lia).
    cbn in Hval. lia.
Qed.

(** ** Integers written by [toString] *)

Lemma SFeqb_finite_refl (m : positive) (e : Z) :
  SFeqb (S754_finite false m e) (S754_finite false m e) = true.
Proof.
  unfold SFeqb, SFcompare. rewrite Z.compare_refl.
  change (PosDef.Pos.compare_cont Eq m m) with (Pos.compare m m).
  now rewrite Pos.compare_refl.
Qed.

Lemma fold_nearer (P : Z * Z -> Prop) (v k : Z) (cs : list (Z * Z)) (c : Z * Z) :
  P c -> Forall P cs -> P (fold_left (nearer v k) cs c).
Proof.
  revert c. induction cs as [| c' cs IH]; intros c Hc Hcs; [exact Hc |].
  apply Forall_cons in Hcs as [Hc' Hcs]. cbn [fold_left]. apply IH; [| exact Hcs].
  unfold nearer. destruct (_ <? _); [exact Hc' |]. destruct (_ && _); assumption.
Qed.

Section Digits.

Variable v : Z.
Hypothesis v_range : 1 <= v < 2 ^ 53.

Abbreviation x := (Number_of_Z v).
Abbreviation nd := (Z.of_nat (String.length (digits_of v))).

(** A candidate is a way of writing [v] itself. *)
Lemma digit_candidates_exact (k : Z) (c : Z * Z) :
  1 <= k -> In c (digit_candidates x v k) ->
  fst c * 10 ^ (snd c - k) = v /\ snd c <= nd + 1.
Proof.
  intros Hk Hin. unfold digit_candidates in Hin. cbv zeta in Hin.
  apply in_flat_map in Hin as (n & Hn & Hc).
  apply list_elem_of_In, list_elem_of_filter in Hc as [Hpred Hc].
  destruct (k <=? n) eqn:Hkn; [| now apply elem_of_nil in Hc].
  apply Z.leb_le in Hkn.
  assert (Hsnd : snd c = n).
  { apply list_elem_of_In in Hc. cbn in Hc. destruct Hc as [<- | [<- | []]]; reflexivity. }
  destruct c as [s n']. cbn [fst snd] in *. subst n'. clear Hc.
  apply Is_true_true in Hpred.
  apply andb_prop in Hpred as [Hpred Heq]. apply andb_prop in Hpred as [Hlo _].
  apply Z.leb_le in Hlo.
  pose proof (Z.pow_pos_nonneg 10 (k - 1) ltac:(lia) ltac:(lia)) as Hk10.
  pose proof (Z.pow_pos_nonneg 10 (n - k) ltac:(lia) ltac:(lia)) as Hp10.
  split; [| cbn in Hn; lia].
  destruct v as [| N | N] eqn:Hv; try lia.
  pose proof (Number_of_Z_canonical false N ltac:(lia)) as Hc. cbv zeta in Hc.
  cbn [cond_Zopp] in Hc. rewrite Hc in Heq.
  apply SFeqb_finite_inv in Heq. rewrite <- Hc in Heq.
  destruct (s * 10 ^ (n - k)) as [| a | a] eqn:Ha; [nia | | nia].
  f_equal. now apply Number_of_Z_inj.
Qed.

(** With as many digits as [v] has there is a candidate. *)
Lemma digit_candidates_full : digit_candidates x v nd <> [].
Proof.
  pose proof (digits_of_length v ltac:(lia)) as Hlen. cbv zeta in Hlen.
  assert (Hin : (v, nd) ∈ digit_candidates x v nd); [| intros Heq; rewrite Heq in Hin;
                                                       now apply elem_of_nil in Hin].
  apply list_elem_of_In. unfold digit_candidates. cbv zeta.
  apply in_flat_map. exists nd. split; [cbn; auto |].
  apply list_elem_of_In, list_elem_of_filter.
  replace (nd - nd) with 0 by lia. rewrite Z.pow_0_r, Z.div_1_r, Z.leb_refl. split.
  - apply Is_true_true. rewrite Z.mul_1_r.
    replace (10 ^ (nd - 1) <=? v) with true by (symmetry; apply Z.leb_le; lia).
    replace (v <? 10 ^ nd) with true by (symmetry; apply Z.ltb_lt; lia).
    cbn [andb]. destruct v as [| N | N] eqn:Hv; try lia.
    pose proof (Number_of_Z_canonical false N ltac:(lia)) as Hc. cbv zeta in Hc.
    cbn [cond_Zopp] in Hc. rewrite Hc. apply SFeqb_finite_refl.
  - apply list_elem_of_In. cbn. auto.
Qed.

Lemma nd_range : 1 <= nd <= 16.
Proof.
  pose proof (digits_of_length v ltac:(lia)) as Hlen. cbv zeta in Hlen.
  assert (H53 : 2 ^ 53 < 10 ^ 16) by (vm_compute; reflexivity).
  split.
  - destruct (Z_lt_le_dec nd 1) as [Hlt | Hge]; [| exact Hge].
    exfalso. destruct (Z.eq_dec nd 0) as [H0 | H0]; [| lia].
    rewrite H0 in Hlen. cbn in Hlen. lia.
  - destruct (Z_lt_le_dec 16 nd) as [Hlt | Hge]; [| exact Hge].
    exfalso. assert (10 ^ 16 <= 10 ^ (nd - 1)) by (apply Z.pow_le_mono_r; lia). lia.
Qed.

(** The search for the digits ends, on a way of writing [v]. *)
Lemma shortest_digits_exact (fuel : nat) (k : Z) :
  1 <= k <= nd -> (Z.to_nat (nd - k) < fuel)%nat ->
  exists s n k', shortest_digits fuel x v k = Some (s, n, k') /\
                 s * 10 ^ (n - k') = v /\ n <= nd + 1.
Proof.
  revert k. induction fuel as [| fuel IH]; intros k Hk Hfuel; [lia |].
  cbn [shortest_digits].
  destruct (digit_candidates x v k) as [| c cs] eqn:Hcands.
  - assert (Hne : k <> nd) by (intros ->; now apply digit_candidates_full).
    apply IH; lia.
  - assert (Hall : Forall (fun c => fst c * 10 ^ (snd c - k) = v /\ snd c <= nd + 1) (c :: cs)).
    { apply Forall_forall. intros c' Hc'. apply digit_candidates_exact; [lia |].
      rewrite Hcands. now apply list_elem_of_In. }
    apply Forall_cons in Hall as [Hc Hcs].
    pose proof (fold_nearer _ v k cs c Hc Hcs) as Hfold.
    destruct (fold_left (nearer v k) cs c) as [s n]. cbn [fst snd] in Hfold.
    exists s, n, k. split; [reflexivity | exact Hfold].
Qed.

Lemma positive_integer_toString_exact : positive_integer_toString x v = digits_of v.
Proof.
  pose proof nd_range as Hnd.
  destruct (shortest_digits_exact 17 1 ltac:(lia) ltac:(lia)) as (s & n & k & Heq & Hv & Hn).
  unfold positive_integer_toString. rewrite Heq.
  replace (n <=? 21) with true by (symmetry; apply Z.leb_le; lia).
  now rewrite Hv.
Qed.

End Digits.

(** [toString] writes an integer of at most 53 bits in decimal. *)
Lemma Number_toString_of_Z (z : Z) :
  - 2 ^ 53 < z < 2 ^ 53 -> Number_toString (Number_of_Z z) = Z_toString z.
Proof.
  intros Hz. destruct z as [| N | N].
  - reflexivity.
  - pose proof (Number_of_Z_canonical false N ltac:(lia)) as Hc. cbv zeta in Hc.
    cbn [cond_Zopp] in Hc.
    unfold Z_toString. replace (Z.pos N <? 0) with false by reflexivity.
    rewrite Hc. cbn [Number_toString SFabs]. rewrite <- Hc.
    rewrite integer_value_of_Z by lia.
    rewrite positive_integer_toString_exact by lia. apply append_nil_l.
  - pose proof (Number_of_Z_canonical true N ltac:(lia)) as Hc. cbv zeta in Hc.
    cbn [cond_Zopp] in Hc. change (- Z.pos N) with (Z.neg N) in Hc.
    pose proof (Number_of_Z_canonical false N ltac:(lia)) as Hc'. cbv zeta in Hc'.
    cbn [cond_Zopp] in Hc'.
    unfold Z_toString. replace (Z.neg N <? 0) with true by reflexivity.
    rewrite Hc. cbn [Number_toString SFabs]. rewrite <- Hc'.
    rewrite integer_value_of_Z by lia.
    rewrite positive_integer_toString_exact by lia. reflexivity.
Qed.
(** ** The counter, written and read back *)

(** The first digit written is neither white space nor a sign. *)
Lemma leading_integer_digits_of (v : Z) :
  0 <= v -> leading_integer (digits_of v) = Some v /\ digits_of v <> EmptyString.
Proof.
  intros Hv. pose proof (parse_digits_digits_of v Hv) as Hparse.
  unfold leading_integer. unfold digits_of in *.
  destruct (N.to_uint (Z.to_N v)) as [| d | d | d | d | d | d | d | d | d | d];
    cbn [NilZero.string_of_uint NilEmpty.string_of_uint] in *;
    (split; [| discriminate]);
    cbn [trim_start];
    match goal with
    | |- context [is_whitespace ?c] =>
        let r := eval vm_compute in (is_whitespace c) in
        change (is_whitespace c) with r
    end; cbv iota; rewrite Hparse; reflexivity.
Qed.

Lemma leading_integer_Z_toString (z : Z) :
  leading_integer (Z_toString z) = Some z /\ Z_toString z <> EmptyString.
Proof.
  unfold Z_toString. destruct (z <? 0) eqn:Hneg.
  - apply Z.ltb_lt in Hneg. split; [| discriminate].
    pose proof (parse_digits_digits_of (- z) ltac:(lia)) as Hparse.
    unfold leading_integer.
    change (trim_start ("-" ++ digits_of (- z))) with (String "-" (digits_of (- z))).
    cbv iota. rewrite Hparse. f_equal. lia.
  - apply Z.ltb_ge in Hneg. now apply leading_integer_digits_of.
Qed.

(** [parseInt] gives the Number of the integer read, and a zero for the
    integer 0. *)
Lemma parseInt_leading_integer (s : string) (z : Z) :
  leading_integer s = Some z ->
  (z <> 0 /\ parseInt s = Number_of_Z z) \/ (z = 0 /\ exists sg, parseInt s = S754_zero sg).
Proof.
  unfold leading_integer, parseInt.
  destruct (match trim_start s with
            | String "-" s' => (true, s')
            | String "+" s' => (false, s')
            | _ => (false, trim_start s)
            end) as [negative rest].
  destruct (parse_digits rest None) as [n |] eqn:Hparse; [| discriminate].
  intros [= <-].
  destruct n as [| p | p].
  - right. split; [destruct negative; reflexivity | eauto].
  - left. split; [destruct negative; discriminate | reflexivity].
  - left. split; [destruct negative; discriminate | reflexivity].
Qed.

Lemma parseInt_Z_toString (z : Z) : parseInt (Z_toString z) = Number_of_Z z.
Proof.
  destruct (leading_integer_Z_toString z) as [Hlead _].
  destruct (parseInt_leading_integer _ _ Hlead) as [[_ H] | [-> _]]; [exact H |].
  reflexivity.
Qed.

(** X20: the counter is written and read back without loss: for every
    integer [z] of at most 53 bits, of either sign,
    [Number(z).toString()] is [z] in decimal (digits, with a minus sign
    for a negative integer, no exponent), and [parseInt] of that string
    is the Number of [z] again. *)
Theorem counter_round_trip (z : Z) :
  - 2 ^ 53 < z < 2 ^ 53 ->
  Number_toString (Number_of_Z z) = Z_toString z /\
  parseInt (Number_toString (Number_of_Z z)) = Number_of_Z z.
Proof.
  intros Hz. rewrite Number_toString_of_Z by exact Hz.
  split; [reflexivity | apply parseInt_Z_toString].
Qed.

Section Increment.

Variable cfg : DomainConfig.
Variable location_replace : string -> option string.

Abbreviation load w random i := (fst (secureRedirect cfg location_replace w random i)).

(** The value written by an allowed load. *)
Lemma incremented_count (s : string) (z : Z) :
  leading_integer s = Some z -> - 2 ^ 53 < z < 2 ^ 53 - 1 ->
  Number_toString (Number_add (parseInt s) (Number_of_Z 1)) = Z_toString (z + 1).
Proof.
  intros Hlead Hz.
  destruct (parseInt_leading_integer s z Hlead) as [[_ ->] | [-> [sg ->]]].
  - rewrite Number_add_one by exact Hz. apply Number_toString_of_Z. lia.
  - destruct sg; reflexivity.
Qed.

(** One load on a stored integer. *)
Lemma load_stored_integer (w : Browser) (z : Z) (random : RandomSource) (i : nat) :
  stored_integer w z -> - 2 ^ 53 < z ->
  let url := fst (buildRedirectURL cfg random i) in
  if z <? maxRedirects
  then getItem storageKey (load w random i) = Some (Z_toString (z + 1)) /\
       stored_integer (load w random i) (z + 1) /\
       redirects (load w random i) = redirects w ++ [url]
  else load w random i = emit (ConsoleWarn maxRedirects) w.
Proof.
  intros Hstored Hz url. unfold stored_integer in *.
  pose proof (guard_reads_integer (or_else (getItem storageKey w) "0")) as Hguard.
  rewrite Hstored in Hguard.
  destruct (z <? maxRedirects) eqn:Hlt.
  - apply Z.ltb_lt in Hlt. unfold maxRedirects in Hlt.
    assert (H53 : 3 < 2 ^ 53 - 1) by (vm_compute; reflexivity).
    pose proof (load_allowed cfg location_replace w random i) as H. cbn zeta in H.
    destruct (H Hguard) as (Hget & Hred & _).
    rewrite (incremented_count _ z Hstored) in Hget by lia.
    split; [exact Hget |]. split; [| exact Hred].
    destruct (leading_integer_Z_toString (z + 1)) as [Hlead Hne].
    rewrite Hget, or_else_nonempty by exact Hne. exact Hlead.
  - now apply load_blocked.
Qed.

End Increment.

Lemma counter_round_trip_witness :
  - 2 ^ 53 < -40 < 2 ^ 53 /\
  Number_toString (Number_of_Z (-40)) = Z_toString (-40) /\
  parseInt (Number_toString (Number_of_Z (-40))) = Number_of_Z (-40).
Proof.
  assert (Hz : - 2 ^ 53 < -40 < 2 ^ 53) by (vm_compute; split; reflexivity).
  split; [exact Hz |].
  apply (counter_round_trip (-40) Hz).
Defined.

Section Stored.

Variable cfg : DomainConfig.
Variable location_replace : string -> option string.

Abbreviation load w random i := (fst (secureRedirect cfg location_replace w random i)).

(** X21: an allowed load adds one to the integer the stored value starts
    with, exactly, whatever that integer is below 3 (negative integers
    included, down to [-2^53]) and however the value was written (white
    space, a sign, text after the digits): the value stored afterwards is
    the integer plus one in decimal, which [parseInt] reads back as that
    integer; the redirect is made and the timer set. *)
Theorem load_increments_stored_integer (w : Browser) (z : Z)
    (random : RandomSource) (i : nat) :
  stored_integer w z -> - 2 ^ 53 < z < maxRedirects ->
  let url := fst (buildRedirectURL cfg random i) in
  let w' := load w random i in
  getItem storageKey w' = Some (Z_toString (z + 1)) /\
  parseInt (Z_toString (z + 1)) = Number_of_Z (z + 1) /\
  redirects w' = redirects w ++ [url] /\
  timers w' = timers w ++ [10 * 1000].
Proof.
  intros Hstored Hz url w'.
  pose proof (load_stored_integer cfg location_replace w z random i Hstored ltac:(lia)) as H.
  cbv zeta in H.
  replace (z <? maxRedirects) with true in H by (symmetry; apply Z.ltb_lt; lia).
  destruct H as (Hget & _ & Hred).
  split; [exact Hget |]. split; [apply parseInt_Z_toString |]. split; [exact Hred |].
  pose proof (guard_reads_integer (or_else (getItem storageKey w) "0")) as Hguard.
  unfold stored_integer in Hstored. rewrite Hstored in Hguard.
  replace (z <? maxRedirects) with true in Hguard by (symmetry; apply Z.ltb_lt; lia).
  pose proof (load_allowed cfg location_replace w random i) as Hload. cbn zeta in Hload.
  destruct (Hload Hguard) as (_ & _ & Htimers & _). exact Htimers.
Qed.

(** X22: the budget of a stored integer.  When the stored value starts
    with the integer [z] (above [-2^53]), [N] page loads in a row with no
    timer firing make [min(N, 3 - z)] redirects for [z < 3] and none for
    [z >= 3]; afterwards the stored integer is [min(z + N, 3)] for
    [z < 3] and [z] as before otherwise.  For the counters that the
    script writes this is at most three redirects; a stored negative
    integer, which the guard does not reject, gives as many more. *)
Theorem stored_integer_budget (loads : list (RandomSource * nat)) (w : Browser) (z : Z) :
  stored_integer w z -> - 2 ^ 53 < z ->
  let N := Z.of_nat (List.length loads) in
  let w' := page_loads cfg location_replace loads w in
  stored_integer w' (if z <? maxRedirects then Z.min (z + N) maxRedirects else z) /\
  Z.of_nat (List.length (redirects w'))
  = Z.of_nat (List.length (redirects w)) + Z.min N (Z.max 0 (maxRedirects - z)).
Proof.
  unfold maxRedirects.
  revert w z. induction loads as [| [random i] loads IH]; intros w z Hstored Hz; cbv zeta.
  - cbn [List.length page_loads fold_left]. split; [| lia].
    destruct (z <? 3) eqn:Hlt; [| exact Hstored].
    apply Z.ltb_lt in Hlt. replace (Z.min (z + Z.of_nat 0) 3) with z by lia. exact Hstored.
  - cbn [page_loads fold_left].
    pose proof (load_stored_integer cfg location_replace w z random i Hstored Hz) as Hload.
    cbv zeta in Hload. unfold maxRedirects in Hload.
    rewrite length_cons, Nat2Z.inj_succ.
    destruct (z <? 3) eqn:Hlt.
    + apply Z.ltb_lt in Hlt. destruct Hload as (_ & Hstored1 & Hred1).
      destruct (IH (load w random i) (z + 1) Hstored1 ltac:(lia)) as [IHst IHred].
      unfold page_loads in IHst, IHred. split.
      * destruct (z + 1 <? 3) eqn:Hlt1.
        -- replace (Z.min (z + Z.succ (Z.of_nat (List.length loads))) 3)
             with (Z.min (z + 1 + Z.of_nat (List.length loads)) 3) by lia.
           exact IHst.
        -- apply Z.ltb_ge in Hlt1.
           replace (Z.min (z + Z.succ (Z.of_nat (List.length loads))) 3) with (z + 1) by lia.
           exact IHst.
      * rewrite IHred, Hred1, length_app. cbn [List.length]. lia.
    + apply Z.ltb_ge in Hlt. rewrite Hload.
      assert (Hstored1 : stored_integer (emit (ConsoleWarn 3) w) z) by exact Hstored.
      destruct (IH (emit (ConsoleWarn 3) w) z Hstored1 Hz) as [IHst IHred].
      unfold page_loads in IHst, IHred.
      replace (z <? 3) with false in IHst by (symmetry; apply Z.ltb_ge; lia).
      split; [exact IHst |].
      rewrite IHred, redirects_emit_warn. lia.
Qed.

End Stored.

Lemma load_increments_stored_integer_witness :
  let w := browser_with " -5 apples" in
  let z := -5 in
  let url := fst (buildRedirectURL domainConfig sample_source 0%nat) in
  let w' := fst (secureRedirect domainConfig (fun _ => None) w sample_source 0%nat) in
  (stored_integer w z /\ - 2 ^ 53 < z < maxRedirects) /\
  getItem storageKey w' = Some (Z_toString (z + 1)) /\
  parseInt (Z_toString (z + 1)) = Number_of_Z (z + 1) /\
  redirects w' = redirects w ++ [url] /\
  timers w' = timers w ++ [10 * 1000].
Proof.
  cbn zeta.
  assert (Hstored : stored_integer (browser_with " -5 apples") (-5)) by reflexivity.
  assert (Hz : - 2 ^ 53 < -5 < maxRedirects) by (vm_compute; split; reflexivity).
  split; [split; [exact Hstored | exact Hz] |].
  apply (load_increments_stored_integer domainConfig (fun _ => None)
           (browser_with " -5 apples") (-5) sample_source 0%nat Hstored Hz).
Defined.

Lemma stored_integer_budget_witness :
  let loads := [(sample_source, 0%nat); (sample_source, 3%nat); (sample_source', 0%nat);
                (sample_source, 7%nat); (sample_source, 9%nat); (sample_source, 11%nat)] in
  let w := browser_with "-2" in
  let z := -2 in
  let N := Z.of_nat (List.length loads) in
  let w' := page_loads domainConfig (fun _ => None) loads w in
  (stored_integer w z /\ - 2 ^ 53 < z) /\
  stored_integer w' (if z <? maxRedirects then Z.min (z + N) maxRedirects else z) /\
  Z.of_nat (List.length (redirects w'))
  = Z.of_nat (List.length (redirects w)) + Z.min N (Z.max 0 (maxRedirects - z)).
Proof.
  cbn zeta.
  assert (Hstored : stored_integer (browser_with "-2") (-2)) by reflexivity.
  assert (Hz : - 2 ^ 53 < -2) by reflexivity.
  split; [split; [exact Hstored | exact Hz] |].
  apply (stored_integer_budget domainConfig (fun _ => None)
           [(sample_source, 0%nat); (sample_source, 3%nat); (sample_source', 0%nat);
            (sample_source, 7%nat); (sample_source, 9%nat); (sample_source, 11%nat)]
           (browser_with "-2") (-2) Hstored Hz).
Defined.

(** A counter of -2 gives five redirects in six loads, and is then at 3;
    what is stored on the way is written without exponent or fraction. *)
Example loads_from_minus_two :
  let step w := fst (secureRedirect domainConfig (fun _ => None) w sample_source 0%nat) in
  let w1 := step (browser_with "-2") in
  let w6 := step (step (step (step (step w1)))) in
  (getItem storageKey w1, getItem storageKey (step w1), getItem storageKey w6)
  = (Some "-1"%string, Some "0"%string, Some "3"%string) /\
  List.length (redirects w6) = 5%nat.
Proof. vm_compute. split; reflexivity. Qed.
(** ** Every string is generated *)

(** A character of [[a-z0-9]] is at an index of the alphabet. *)
Lemma alnum_index (c : ascii) :
  lower_alnum c = true ->
  exists k, 0 <= k < 36 /\ charAt characters k = String c EmptyString.
Proof.
  intros Hc.
  exists (let n := Z.of_N (N_of_ascii c) in if n <=? 57 then n - 48 + 26 else n - 97).
  destruct c as [[] [] [] [] [] [] [] []]; try discriminate Hc;
    vm_compute; repeat split; congruence.
Qed.

(** The loop reads the draws from its cursor on only. *)
Lemma generateRandomString_loop_agree (n : nat) (result : string)
    (r1 r2 : RandomSource) (i : nat) :
  (forall j, (i <= j)%nat -> r1 j = r2 j) ->
  generateRandomString_loop n result r1 i = generateRandomString_loop n result r2 i.
Proof.
  revert result i. induction n as [| n IH]; intros result i Hagree; [reflexivity |].
  cbn [generateRandomString_loop]. rewrite !bind_random_index.
  rewrite (Hagree i) by lia. apply IH. intros j Hj. apply Hagree. lia.
Qed.

Lemma generateRandomString_loop_onto (s result : string) (i : nat) :
  string_forall lower_alnum s = true ->
  exists random : RandomSource,
    (forall j, unit_interval (random j) = true) /\
    generateRandomString_loop (String.length s) result random i
    = ((result ++ s)%string, (i + String.length s)%nat).
Proof.
  revert result i. induction s as [| c s IH]; intros result i Hall.
  - exists (fun _ => S754_zero false). split; [reflexivity |].
    cbn. rewrite append_nil_r. f_equal. lia.
  - cbn [string_forall] in Hall. apply andb_prop in Hall as [Hc Hs].
    destruct (alnum_index c Hc) as (k & Hk & Hchar).
    assert (H36 : 1 <= 36 <= 2 ^ 52) by (split; [lia | vm_compute; discriminate]).
    destruct (random_index_onto 36 k H36 Hk) as (r & Hunit & Hfloor).
    destruct (IH (result ++ String c EmptyString)%string (S i) Hs)
      as (random' & Hunit' & Hloop).
    exists (fun j => if (j =? i)%nat then r else random' j). split.
    + intros j. destruct (j =? i)%nat; [exact Hunit | apply Hunit'].
    + cbn [String.length generateRandomString_loop]. rewrite bind_random_index.
      rewrite Nat.eqb_refl.
      change (Z.of_nat (String.length characters)) with 36.
      rewrite Hfloor, Hchar.
      rewrite (generateRandomString_loop_agree _ _ _ random' (S i)).
      * rewrite Hloop, append_assoc. f_equal. lia.
      * intros j Hj. replace (j =? i)%nat with false; [reflexivity |].
        symmetry. apply Nat.eqb_neq. lia.
Qed.

(** X23: every string over [[a-z0-9]] is a result of
    [generateRandomString]: for each such string there are draws in
    [0, 1) for which [generateRandomString], called with the length of
    the string, returns it, after one draw for each character.  With the
    inclusion the other way, the results for a length [L] are exactly the
    strings of [L] characters of the alphabet. *)
Theorem generateRandomString_onto (s : string) :
  string_forall lower_alnum s = true ->
  exists random : RandomSource,
    (forall j, unit_interval (random j) = true) /\
    generateRandomString (Z.of_nat (String.length s)) random 0%nat
    = (s, String.length s).
Proof.
  intros Hall.
  destruct (generateRandomString_loop_onto s EmptyString 0%nat Hall)
    as (random & Hunit & Hloop).
  exists random. split; [exact Hunit |].
  unfold generateRandomString. rewrite Nat2Z.id, Hloop, append_nil_l. reflexivity.
Qed.

Lemma generateRandomString_onto_witness :
  string_forall lower_alnum "x7q9" = true /\
  exists random : RandomSource,
    (forall j, unit_interval (random j) = true) /\
    generateRandomString (Z.of_nat (String.length "x7q9")) random 0%nat
    = ("x7q9"%string, String.length "x7q9").
Proof.
  split; [reflexivity |].
  apply (generateRandomString_onto "x7q9" eq_refl).
Defined.
